(** * OPC-UAgua: the OPC UA connectivity and subscription core

    A shallow embedding of the parts of the server and of the browser-side
    correlation layer that the specification's testable properties talk
    about:
    - server/opcua/client.ts: class OpcUaClient;
    - server/opcua/subscription.ts: class SubscriptionManager, followed in
      the same file by the route handlers (registerRoutes) and by the
      storage class (PrismaStorage);
    - client/src/contexts/NavigationContext.tsx: the OpcUaProvider component
      with its registry of response handlers.

    Conventions.
    - A TypeScript object with mutable fields is a record; a method is a
      computation in the monad [M] below, which threads the object's state
      and carries JavaScript exceptions.  The state survives a [throw], as
      it does in JavaScript.
    - What the node-opcua stack and the Prisma client answer is not decided
      by this repository: each call takes its outcome from an environment
      record ([Returns] or [Throws]).
    - [async] methods are run to completion: the interleaving of two calls
      at an [await] is not modelled.
    - A console message is kept by its level and, for errors, by the text
      of the error; the wording of the message is abridged. *)

From Stdlib Require Import ZArith String List Bool Lia PrimFloat.
From stdpp Require Import base option list gmap strings pretty.
Import ListNotations.
Open Scope string_scope.

(** ** JavaScript control flow: state and exceptions *)

Inductive completion (A : Type) : Type :=
| Normal (a : A)
| Thrown (message : string).
Arguments Normal {A} a.
Arguments Thrown {A} message.

(** What a call into a library does, as far as the caller can tell. *)
Inductive outcome : Type :=
| Returns
| Throws (message : string).

Section StateAndExceptions.
Context {S : Type}.

Definition M (A : Type) : Type := S -> completion A * S.

Definition ret {A} (a : A) : M A := fun s => (Normal a, s).

Definition throw {A} (message : string) : M A := fun s => (Thrown message, s).

Definition bind {A B} (m : M A) (k : A -> M B) : M B :=
  fun s =>
    match m s with
    | (Normal a, s') => k a s'
    | (Thrown e, s') => (Thrown e, s')
    end.

(** [try { m } catch (err) { handler err }] *)
Definition try_catch {A} (m : M A) (handler : string -> M A) : M A :=
  fun s =>
    match m s with
    | (Normal a, s') => (Normal a, s')
    | (Thrown e, s') => handler e s'
    end.

Definition get : M S := fun s => (Normal s, s).
Definition modify (f : S -> S) : M unit := fun s => (Normal tt, f s).

(** A library call whose result the environment decides. *)
Definition call (o : outcome) : M unit :=
  match o with
  | Returns => ret tt
  | Throws e => throw e
  end.

(** Calling an [async] function without [await]: its synchronous effects
    happen, an exception becomes a rejected promise nobody observes. *)
Definition fire_and_forget (m : M unit) : M unit :=
  try_catch m (fun _ => ret tt).

Definition final_state {A} (r : completion A * S) : S := snd r.
Definition completed {A} (r : completion A * S) : completion A := fst r.
End StateAndExceptions.

Notation "x <- m ;; k" := (bind m (fun x => k))
  (at level 100, m at next level, right associativity).
Notation "m ;;; k" := (bind m (fun _ => k))
  (at level 100, right associativity).

(** [!!o] for a reference that is an object or [null]. *)
Definition isSome {A} (o : option A) : bool :=
  match o with Some _ => true | None => false end.

(** [haystack.includes(needle)] *)
Definition includes (haystack needle : string) : bool :=
  isSome (String.index 0 needle haystack).

(** [s.startsWith(p)] *)
Definition startsWith (s p : string) : bool := String.prefix p s.

(** ** server/opcua/client.ts *)

Module OpcUaClient.

(** The keys of [interface OpcUaEventHandlers] that the route handlers set. *)
Inductive handler : Type :=
| onConnected | onDisconnected | onConnectionLost | onReconnected.

#[global] Instance handler_eq_dec : EqDecision handler.
Proof. solve_decision. Defined.

(** What the object does to the outside world, in order. *)
Inductive effect : Type :=
| SessionClose (session : nat)          (* session.close() *)
| TransportDisconnect (client : nat)    (* client.disconnect() *)
| ConsoleLog (text : string)
| ConsoleWarn (text : string) (err : string)
| ConsoleError (text : string) (err : string)
| Handler (h : handler).                 (* this.eventHandlers.h() *)

(** The private fields of [class OpcUaClient].  [client] and [session] hold
    the identity of the node-opcua object, [None] is [null]. *)
Record t : Type := {
  client : option nat;
  session : option nat;
  connected : bool;
  endpointUrl : string;
  eventHandlers : list handler;
  effects : list effect
}.

Definition set_session (v : option nat) (c : t) : t :=
  {| client := client c; session := v; connected := connected c;
     endpointUrl := endpointUrl c; eventHandlers := eventHandlers c;
     effects := effects c |}.

Definition set_connected (v : bool) (c : t) : t :=
  {| client := client c; session := session c; connected := v;
     endpointUrl := endpointUrl c; eventHandlers := eventHandlers c;
     effects := effects c |}.

Definition emit (e : effect) (c : t) : t :=
  {| client := client c; session := session c; connected := connected c;
     endpointUrl := endpointUrl c; eventHandlers := eventHandlers c;
     effects := (effects c ++ [e])%list |}.

Definition perform (e : effect) : M (S := t) unit := modify (emit e).

(** [if (this.eventHandlers.h) { this.eventHandlers.h(); }] *)
Definition notify (h : handler) (c : t) : t :=
  if bool_decide (h ∈ eventHandlers c) then emit (Handler h) c else c.

(** The listeners [initializeClient] registers on the stack's client for
    "connection_lost" and "after_reconnection". *)
Definition connection_lost (c : t) : t :=
  notify onConnectionLost (set_connected false (emit (ConsoleLog "connection lost") c)).

Definition after_reconnection (c : t) : t :=
  notify onReconnected (set_connected true (emit (ConsoleLog "connection restored") c)).

(** [isConnected(): return this.connected && !!this.session] *)
Definition isConnected (c : t) : bool := connected c && isSome (session c).

Definition getSession (c : t) : option nat := session c.

(** The answers of the stack to the two calls [disconnect] makes. *)
Record disconnect_env : Type := {
  session_close : outcome;
  client_disconnect : outcome
}.

(** [async disconnect(): Promise<void>] *)
Definition disconnect (env : disconnect_env) : M (S := t) unit :=
  try_catch
    (c <- get ;;
     if negb (isSome (client c)) && negb (isSome (session c)) then
       perform (ConsoleLog "no active OPC UA connection to disconnect")
     else
       (match session c with
        | Some s =>
            perform (ConsoleLog "closing OPC UA session") ;;;
            try_catch
              (perform (SessionClose s) ;;;
               call (session_close env) ;;;
               perform (ConsoleLog "OPC UA session closed"))
              (fun err => perform (ConsoleWarn "error closing OPC UA session" err)) ;;;
            modify (set_session None)
        | None => ret tt
        end) ;;;
       c1 <- get ;;
       (match client c1 with
        | Some cl =>
            perform (ConsoleLog "disconnecting OPC UA client") ;;;
            try_catch
              (perform (TransportDisconnect cl) ;;;
               call (client_disconnect env) ;;;
               perform (ConsoleLog "OPC UA client disconnected"))
              (fun err =>
                 perform (ConsoleWarn "error disconnecting OPC UA client" err) ;;;
                 c2 <- get ;;
                 if negb (isSome (session c2)) then throw err else ret tt)
        | None => ret tt
        end) ;;;
       modify (set_connected false) ;;;
       perform (ConsoleLog "disconnected from OPC UA server") ;;;
       modify (notify onDisconnected))
    (fun err =>
       perform (ConsoleError "error during OPC UA disconnection" err) ;;;
       throw err).

(** The protocol calls among the effects, in the order they were made. *)
Definition is_protocol_call (e : effect) : bool :=
  match e with
  | SessionClose _ | TransportDisconnect _ => true
  | _ => false
  end.

Definition protocol_calls (c : t) : list effect :=
  List.filter is_protocol_call (effects c).

(** State of the object with the record of its effects forgotten. *)
Definition fields (c : t) : option nat * option nat * bool * string * list handler :=
  (client c, session c, connected c, endpointUrl c, eventHandlers c).

(** *** Browsing *)

(** A status code of the stack.  The library keeps one object per constant,
    so comparing two constants with [===] compares their contents. *)
Record StatusCode : Type := {
  sc_value : Z;
  sc_name : string
}.

Definition StatusCode_same (a b : StatusCode) : bool :=
  (sc_value a =? sc_value b)%Z && String.eqb (sc_name a) (sc_name b).

(** [StatusCodes.Good] *)
Definition Good : StatusCode := {| sc_value := 0; sc_name := "Good" |}.

(** [n.toString(16)] for a number that is not negative. *)
Definition hex_digit (n : Z) : string :=
  String.substring (Z.to_nat n) 1 "0123456789abcdef".

Fixpoint toString16 (fuel : nat) (n : Z) : string :=
  match fuel with
  | O => hex_digit (n mod 16)
  | S fuel' =>
      if (n <? 16)%Z then hex_digit n
      else toString16 fuel' (n / 16) ++ hex_digit (n mod 16)
  end.

(** [s.substr(-8)]: the last eight characters, all of [s] when it is
    shorter. *)
Definition substr_last8 (s : string) : string :=
  String.substring (String.length s - 8) 8 s.

(** [statusCode.toString()] of the stack: the name of the code, then its
    value in hexadecimal, as in "Good (0x00000)" and
    "BadNodeIdUnknown (0x80340000)". *)
Definition StatusCode_toString (s : StatusCode) : string :=
  sc_name s ++ " (0x" ++ substr_last8 ("0000" ++ toString16 16 (sc_value s)) ++ ")".

(** The node classes of OPC UA, an enumeration of the stack.  Its numbering
    is not declared in this repository; it is the one the address-space
    browser component relies on ("NodeClass: Object=1, Variable=2,
    Method=4"), each class being one bit of the node class mask. *)
Inductive NodeClass : Type :=
| NC_Unspecified | NC_Object | NC_Variable | NC_Method | NC_ObjectType
| NC_VariableType | NC_ReferenceType | NC_DataType | NC_View.

Definition NodeClass_value (c : NodeClass) : N :=
  match c with
  | NC_Unspecified => 0
  | NC_Object => 1
  | NC_Variable => 2
  | NC_Method => 4
  | NC_ObjectType => 8
  | NC_VariableType => 16
  | NC_ReferenceType => 32
  | NC_DataType => 64
  | NC_View => 128
  end%N.

(** [reference.nodeClass.toString()]: the decimal numeral of the value. *)
Definition NodeClass_toString (c : NodeClass) : string :=
  pretty (NodeClass_value c).

(** A reference as the server returns it.  [ref_displayName] is
    [displayName.text] ([None] when there is no display name),
    [ref_typeDefinition] is [typeDefinition.toString()] ([None] when the
    field is null). *)
Record ReferenceDescription : Type := {
  ref_nodeId : string;
  ref_browseName : string;
  ref_displayName : option string;
  ref_nodeClass : NodeClass;
  ref_typeDefinition : option string
}.

Record BrowseResult : Type := {
  br_statusCode : StatusCode;
  br_references : option (list ReferenceDescription)
}.

(** The answer to reading one attribute: [dv_value] is
    [value.value.toString()], [None] when [value.value] is falsy. *)
Record AttributeValue : Type := {
  dv_statusCode : StatusCode;
  dv_value : option string
}.

(** [interface OpcUaNode] *)
Record OpcUaNode : Type := {
  nodeId : string;
  browseName : string;
  displayName : string;
  nodeClass : string;
  dataType : option string;
  isFolder : bool
}.

Record browse_env : Type := {
  session_browse : completion BrowseResult;
  session_browseNext : completion (list BrowseResult);
  session_read_DataType : string -> completion AttributeValue
}.

(** The folder flag, as the body of the loop computes it. *)
Definition folder_flag (reference : ReferenceDescription) : bool :=
  let nodeClassStr := NodeClass_toString (ref_nodeClass reference) in
  let isFolder := false in
  let isFolder :=
    if String.eqb nodeClassStr "1" || String.eqb nodeClassStr "3"
    then true else isFolder in
  let isFolder :=
    match ref_typeDefinition reference with
    | Some typeDefinition =>
        if includes typeDefinition "FolderType" then true else isFolder
    | None => isFolder
    end in
  isFolder.

(** One turn of the loop [for (const reference of browseResult.references)]:
    the node pushed for [reference].  The loops of [browse] and [browseNext]
    have the same body. *)
Definition describe (env : browse_env) (reference : ReferenceDescription) : OpcUaNode :=
  let nodeIdStr := ref_nodeId reference in
  let browseNameStr := ref_browseName reference in
  let displayNameStr :=
    match ref_displayName reference with
    | Some text => if String.eqb text "" then browseNameStr else text
    | None => browseNameStr
    end in
  let nodeClassStr := NodeClass_toString (ref_nodeClass reference) in
  let dataType :=
    if String.eqb nodeClassStr "2" then
      match session_read_DataType env nodeIdStr with
      | Normal dataTypeResult =>
          if StatusCode_same (dv_statusCode dataTypeResult) Good
          then dv_value dataTypeResult else None
      | Thrown _ => None
      end
    else None in
  {| nodeId := nodeIdStr; browseName := browseNameStr;
     displayName := displayNameStr; nodeClass := nodeClassStr;
     dataType := dataType; isFolder := folder_flag reference |}.

(** [const nodes = []; for (...) { ...; nodes.push(node) }; return nodes] *)
Definition normalize (env : browse_env) (references : list ReferenceDescription)
  : list OpcUaNode :=
  fold_left (fun nodes reference => (nodes ++ [describe env reference])%list) references [].

(** [async browse(nodeId = "RootFolder"): Promise<OpcUaNode[]>] *)
Definition browse (env : browse_env) (c : t) (node : string)
  : completion (list OpcUaNode) :=
  if negb (isConnected c) || negb (isSome (session c)) then
    Thrown "Not connected to OPC UA server"
  else
    match session_browse env with
    | Thrown err => Thrown err
    | Normal browseResult =>
        if negb (StatusCode_same (br_statusCode browseResult) Good) then
          Thrown ("Browse failed: " ++ StatusCode_toString (br_statusCode browseResult))
        else
          Normal (normalize env (default [] (br_references browseResult)))
    end.

(** [async browseNext(continuationPoint: Buffer): Promise<OpcUaNode[]>] *)
Definition browseNext (env : browse_env) (c : t) : completion (list OpcUaNode) :=
  if negb (isConnected c) || negb (isSome (session c)) then
    Thrown "Not connected to OPC UA server"
  else
    match session_browseNext env with
    | Thrown err => Thrown err
    | Normal [] => Normal []
    | Normal (browseResult :: _) =>
        if negb (StatusCode_same (br_statusCode browseResult) Good) then
          Thrown ("BrowseNext failed: " ++ StatusCode_toString (br_statusCode browseResult))
        else
          Normal (normalize env (default [] (br_references browseResult)))
    end.

(** [async readNodeAttributes(nodeId)], as far as [subscribe] uses it: it
    throws when there is no connection or when one of the four reads is
    rejected; its result is not looked at. *)
Definition readNodeAttributes (reads : string -> outcome) (c : t) (node : string)
  : completion unit :=
  if negb (isConnected c) || negb (isSome (session c)) then
    Thrown "Not connected to OPC UA server"
  else
    match reads node with
    | Returns => Normal tt
    | Throws err => Thrown err
    end.

End OpcUaClient.

(** ** server/opcua/subscription.ts: class SubscriptionManager *)

Module SubscriptionManager.

(** [interface SubscriptionSettings] *)
Record SubscriptionSettings : Type := {
  publishingInterval : Z;
  samplingInterval : Z;
  queueSize : Z
}.

(** A [ClientMonitoredItem]: its identity, the subscription object it was
    created in, and the parameters it was created with. *)
Record MonitoredItem : Type := {
  mi_handle : nat;
  mi_subscription : nat;
  mi_nodeId : string;
  mi_samplingInterval : Z;
  mi_discardOldest : bool;
  mi_queueSize : Z
}.

Inductive effect : Type :=
| CreateSubscription (subscription : nat) (requestedPublishingInterval : Z)
| TerminateSubscription (subscription : nat)
| CreateMonitoredItem (item : MonitoredItem)
| TerminateMonitoredItem (handle : nat)
| ConsoleLog (text : string)
| ConsoleError (text : string) (err : string).

(** The private fields of the class (the client is a reference to a shared
    object and is passed to each method), then the side of the stack:
    [next_object] names the next object the stack creates, [terminated]
    lists the objects whose [terminate()] returned. *)
Record t : Type := {
  subscription : option nat;
  monitoredItems : gmap string MonitoredItem;
  defaultSettings : SubscriptionSettings;
  next_object : nat;
  terminated : list nat;
  effects : list effect
}.

Definition set_subscription (v : option nat) (m : t) : t :=
  {| subscription := v; monitoredItems := monitoredItems m;
     defaultSettings := defaultSettings m; next_object := next_object m;
     terminated := terminated m; effects := effects m |}.

Definition set_monitoredItems (v : gmap string MonitoredItem) (m : t) : t :=
  {| subscription := subscription m; monitoredItems := v;
     defaultSettings := defaultSettings m; next_object := next_object m;
     terminated := terminated m; effects := effects m |}.

Definition set_defaultSettings (v : SubscriptionSettings) (m : t) : t :=
  {| subscription := subscription m; monitoredItems := monitoredItems m;
     defaultSettings := v; next_object := next_object m;
     terminated := terminated m; effects := effects m |}.

Definition new_object (m : t) : t :=
  {| subscription := subscription m; monitoredItems := monitoredItems m;
     defaultSettings := defaultSettings m; next_object := S (next_object m);
     terminated := terminated m; effects := effects m |}.

Definition mark_terminated (object : nat) (m : t) : t :=
  {| subscription := subscription m; monitoredItems := monitoredItems m;
     defaultSettings := defaultSettings m; next_object := next_object m;
     terminated := object :: terminated m; effects := effects m |}.

Definition emit (e : effect) (m : t) : t :=
  {| subscription := subscription m; monitoredItems := monitoredItems m;
     defaultSettings := defaultSettings m; next_object := next_object m;
     terminated := terminated m; effects := (effects m ++ [e])%list |}.

Definition perform (e : effect) : M (S := t) unit := modify (emit e).

(** What the stack answers to the calls of the manager. *)
Record env : Type := {
  create_subscription : outcome;          (* ClientSubscription.create *)
  create_monitored_item : string -> outcome; (* ClientMonitoredItem.create, by node *)
  terminate : nat -> outcome;             (* object.terminate(), by object *)
  read_attributes : string -> outcome     (* the reads of readNodeAttributes *)
}.

(** The field initialisers of the class. *)
Definition initial_settings : SubscriptionSettings :=
  {| publishingInterval := 1000; samplingInterval := 500; queueSize := 10 |}.

Definition fresh (first_object : nat) : t :=
  {| subscription := None; monitoredItems := ∅;
     defaultSettings := initial_settings; next_object := first_object;
     terminated := []; effects := [] |}.

(** [private async initSubscription(): Promise<void>] *)
Definition initSubscription (e : env) (client : OpcUaClient.t) : M (S := t) unit :=
  if negb (OpcUaClient.isConnected client) then
    throw "OPC UA client not connected"
  else
    match OpcUaClient.getSession client with
    | None => throw "No OPC UA session available"
    | Some _ =>
        try_catch
          (call (create_subscription e) ;;;
           m <- get ;;
           perform (CreateSubscription (next_object m)
                      (publishingInterval (defaultSettings m))) ;;;
           modify (set_subscription (Some (next_object m))) ;;;
           modify new_object)
          (fun err =>
             perform (ConsoleError "Error creating subscription:" err) ;;;
             throw err)
    end.

(** [constructor(client, onValueChange)]: the call of [initSubscription] is
    not awaited. *)
Definition constructor (e : env) (client : OpcUaClient.t) (first_object : nat) : t :=
  final_state (fire_and_forget (initSubscription e client) (fresh first_object)).

(** The listener registered on the subscription for "terminated". *)
Definition on_terminated : M (S := t) unit :=
  perform (ConsoleLog "Subscription terminated") ;;;
  modify (set_subscription None).

(** [setDefaultSettings(settings: SubscriptionSettings): void] *)
Definition setDefaultSettings (e : env) (client : OpcUaClient.t)
    (settings : SubscriptionSettings) : M (S := t) unit :=
  modify (set_defaultSettings settings) ;;;
  m <- get ;;
  match subscription m with
  | Some sub =>
      try_catch
        (perform (TerminateSubscription sub) ;;;
         call (terminate e sub) ;;;
         modify (mark_terminated sub) ;;;
         modify (set_subscription None) ;;;
         fire_and_forget (initSubscription e client))
        (fun err => perform (ConsoleError "Error updating subscription:" err))
  | None => ret tt
  end.

(** [getDefaultSettings(): SubscriptionSettings] *)
Definition getDefaultSettings (m : t) : SubscriptionSettings := defaultSettings m.

Definition lift {A} (r : completion A) : M (S := t) A := fun m => (r, m).

(** [async subscribe(nodeId: string): Promise<void>], in the three steps of
    its body.  First [if (!this.subscription) { await this.initSubscription(); }]. *)
Definition ensure_subscription (e : env) (client : OpcUaClient.t) : M (S := t) unit :=
  m <- get ;;
  if negb (isSome (subscription m)) then initSubscription e client else ret tt.

(** The [ClientMonitoredItem] that state [m] creates for [node] in the
    subscription object [sub]: [discardOldest: true], the intervals of the
    current settings. *)
Definition new_item (m : t) (sub : nat) (node : string) : MonitoredItem :=
  {| mi_handle := next_object m; mi_subscription := sub; mi_nodeId := node;
     mi_samplingInterval := samplingInterval (defaultSettings m);
     mi_discardOldest := true; mi_queueSize := queueSize (defaultSettings m) |}.

(** Then [if (this.monitoredItems.has(nodeId)) { return; }] and the
    [try { ... } catch (err) { ...; throw err; }] that creates the item. *)
Definition monitor (e : env) (client : OpcUaClient.t) (node : string) : M (S := t) unit :=
  m1 <- get ;;
  if isSome (monitoredItems m1 !! node) then ret tt
  else
    try_catch
      (lift (OpcUaClient.readNodeAttributes (read_attributes e) client node) ;;;
       m2 <- get ;;
       match subscription m2 with
       | None => throw "Failed to create subscription"
       | Some sub =>
           call (create_monitored_item e node) ;;;
           m3 <- get ;;
           let monitoredItem := new_item m3 sub node in
           perform (CreateMonitoredItem monitoredItem) ;;;
           modify new_object ;;;
           modify (fun m => set_monitoredItems
                              (<[node := monitoredItem]> (monitoredItems m)) m) ;;;
           perform (ConsoleLog ("Subscribed to " ++ node))
       end)
      (fun err =>
         perform (ConsoleError ("Error subscribing to " ++ node) err) ;;;
         throw err).

(** The whole method, behind [if (!this.client.isConnected()) throw ...]. *)
Definition subscribe (e : env) (client : OpcUaClient.t) (node : string)
  : M (S := t) unit :=
  if negb (OpcUaClient.isConnected client) then
    throw "OPC UA client not connected"
  else
    ensure_subscription e client ;;;
    monitor e client node.

(** [async unsubscribe(nodeId: string): Promise<void>] *)
Definition unsubscribe (e : env) (node : string) : M (S := t) unit :=
  m <- get ;;
  match monitoredItems m !! node with
  | None => ret tt
  | Some monitoredItem =>
      try_catch
        (perform (TerminateMonitoredItem (mi_handle monitoredItem)) ;;;
         call (terminate e (mi_handle monitoredItem)) ;;;
         modify (mark_terminated (mi_handle monitoredItem)) ;;;
         modify (fun m => set_monitoredItems (delete node (monitoredItems m)) m) ;;;
         perform (ConsoleLog ("Unsubscribed from " ++ node)))
        (fun err =>
           perform (ConsoleError ("Error unsubscribing from " ++ node) err) ;;;
           throw err)
  end.

(** The callback of [this.monitoredItems.forEach] in [clear]. *)
Definition terminate_item (e : env) (item : MonitoredItem) : M (S := t) unit :=
  try_catch
    (perform (TerminateMonitoredItem (mi_handle item)) ;;;
     call (terminate e (mi_handle item)) ;;;
     modify (mark_terminated (mi_handle item)))
    (fun err => perform (ConsoleError "Error terminating monitored item:" err)).

Fixpoint forEach {A} (f : A -> M (S := t) unit) (l : list A) : M (S := t) unit :=
  match l with
  | [] => ret tt
  | x :: rest => f x ;;; forEach f rest
  end.

(** The values of the map, for [forEach].  A JavaScript [Map] is visited in
    insertion order, the finite map here in the order of its keys; [clear]
    treats every item alike. *)
Definition items (m : t) : list MonitoredItem := (map_to_list (monitoredItems m)).*2.

(** [clear(): void] *)
Definition clear (e : env) : M (S := t) unit :=
  m <- get ;;
  forEach (terminate_item e) (items m) ;;;
  modify (set_monitoredItems ∅) ;;;
  m1 <- get ;;
  match subscription m1 with
  | Some sub =>
      try_catch
        (perform (TerminateSubscription sub) ;;;
         call (terminate e sub) ;;;
         modify (mark_terminated sub) ;;;
         modify (set_subscription None))
        (fun err => perform (ConsoleError "Error terminating subscription:" err))
  | None => ret tt
  end.

(** A stack that accepts every request of the manager. *)
Definition cooperative (e : env) : Prop :=
  create_subscription e = Returns
  /\ forall node, read_attributes e node = Returns
                  /\ create_monitored_item e node = Returns.

(** Every [ClientMonitoredItem.create] made so far, oldest first. *)
Definition created (m : t) : list MonitoredItem :=
  omap (fun e => match e with CreateMonitoredItem item => Some item | _ => None end)
       (effects m).

(** A monitored item delivers notifications as long as neither it nor the
    subscription it was created in has been terminated. *)
Definition live (m : t) (item : MonitoredItem) : bool :=
  negb (bool_decide (mi_handle item ∈ terminated m))
  && negb (bool_decide (mi_subscription item ∈ terminated m)).

(** The live monitored items of node [node] on the side of the stack. *)
Definition live_for (m : t) (node : string) : list MonitoredItem :=
  List.filter (fun item => String.eqb (mi_nodeId item) node && live m item) (created m).

End SubscriptionManager.

(** ** server/opcua/subscription.ts: class PrismaStorage

    The tables are lists of rows in insertion order; a row gets the next
    value of the table's identifier sequence. *)

Module PrismaStorage.

(** [interface Tag], the columns the core reads. *)
Record Tag : Type := {
  tag_id : Z;
  tag_nodeId : string;
  tag_isSubscribed : bool
}.

(** [interface SubscriptionSetting] *)
Record SubscriptionSetting : Type := {
  id : Z;
  publishingInterval : Z;
  samplingInterval : Z;
  queueSize : Z;
  isDefault : bool
}.

(** [InsertSubscriptionSettings & { isDefault?: boolean }] *)
Record InsertSubscriptionSettings : Type := {
  ins_publishingInterval : Z;
  ins_samplingInterval : Z;
  ins_queueSize : Z;
  ins_isDefault : option bool
}.

(** [Partial<InsertSubscriptionSettings>] *)
Record PartialSubscriptionSettings : Type := {
  upd_publishingInterval : option Z;
  upd_samplingInterval : option Z;
  upd_queueSize : option Z;
  upd_isDefault : option bool
}.

(** The table subscription_settings. *)
Record table : Type := {
  rows : list SubscriptionSetting;
  next_id : Z
}.

Definition empty : table := {| rows := []; next_id := 1 |}.

Definition with_isDefault (v : bool) (r : SubscriptionSetting) : SubscriptionSetting :=
  {| id := id r; publishingInterval := publishingInterval r;
     samplingInterval := samplingInterval r; queueSize := queueSize r;
     isDefault := v |}.

(** [prisma.subscriptionSetting.updateMany({ where: { isDefault: true },
    data: { isDefault: false } })] *)
Definition updateMany_clear_default (db : table) : table :=
  {| rows := List.map (fun r => if isDefault r then with_isDefault false r else r) (rows db);
     next_id := next_id db |}.

(** [prisma.subscriptionSetting.create({ data })]; the column is_default is
    declared NOT NULL DEFAULT false. *)
Definition create (data : InsertSubscriptionSettings) (db : table)
  : SubscriptionSetting * table :=
  let row :=
    {| id := next_id db;
       publishingInterval := ins_publishingInterval data;
       samplingInterval := ins_samplingInterval data;
       queueSize := ins_queueSize data;
       isDefault := default false (ins_isDefault data) |} in
  (row, {| rows := (rows db ++ [row])%list; next_id := (next_id db + 1)%Z |}).

(** [async createSubscriptionSettings(settings)] *)
Definition createSubscriptionSettings (settings : InsertSubscriptionSettings)
    (db : table) : SubscriptionSetting * table :=
  let db1 :=
    if default false (ins_isDefault settings)
    then updateMany_clear_default db else db in
  create settings db1.

Definition apply_update (data : PartialSubscriptionSettings) (r : SubscriptionSetting)
  : SubscriptionSetting :=
  {| id := id r;
     publishingInterval := default (publishingInterval r) (upd_publishingInterval data);
     samplingInterval := default (samplingInterval r) (upd_samplingInterval data);
     queueSize := default (queueSize r) (upd_queueSize data);
     isDefault := default (isDefault r) (upd_isDefault data) |}.

(** [prisma.subscriptionSetting.update({ where: { id }, data })]: throws when
    no row has that identifier. *)
Definition update (key : Z) (data : PartialSubscriptionSettings) (db : table)
  : completion SubscriptionSetting * table :=
  match List.find (fun r => (id r =? key)%Z) (rows db) with
  | None => (Thrown "Record to update not found.", db)
  | Some r =>
      (Normal (apply_update data r),
       {| rows := List.map (fun r => if (id r =? key)%Z then apply_update data r else r)
                           (rows db);
          next_id := next_id db |})
  end.

(** [async updateSubscriptionSettings(id, settings)] *)
Definition updateSubscriptionSettings (key : Z) (settings : PartialSubscriptionSettings)
    (db : table) : option SubscriptionSetting * table :=
  match update key settings db with
  | (Normal r, db') => (Some r, db')
  | (Thrown _, db') => (None, db')
  end.

(** [async getDefaultSubscriptionSettings()] *)
Definition getDefaultSubscriptionSettings (db : table) : option SubscriptionSetting :=
  List.find isDefault (rows db).

(** The rows flagged default. *)
Definition defaults (db : table) : list SubscriptionSetting :=
  List.filter isDefault (rows db).

End PrismaStorage.

(** ** server/opcua/subscription.ts: the "changed" listener of a monitored item *)

Module ChangedListener.

(** [dataValue.value.value]: a JavaScript value, by its [typeof]. *)
Inductive js_value : Type :=
| JsNumber (x : PrimFloat.float)
| JsString (s : string)
| JsBoolean (b : bool)
| JsNull
| JsObject.

(** The notification: [sourceTimestamp] in milliseconds, [None] when the
    server sent none; [dv_dataType] is [value.dataType.toString()]. *)
Record DataValue : Type := {
  statusCode : OpcUaClient.StatusCode;
  dv_value : js_value;
  dv_dataType : string;
  sourceTimestamp : option Z
}.

(** A row of the table readings, as [prisma.reading.create] receives it. *)
Record Reading : Type := {
  tagId : Z;
  value : option PrimFloat.float;
  quality : string;
  timestamp : Z
}.

(** The arguments of one call of [this.onValueChange]. *)
Record ValueChange : Type := {
  vc_nodeId : string;
  vc_value : js_value;
  vc_dataType : string;
  vc_timestamp : Z
}.

Inductive log : Type :=
| ConsoleWarn (text : string)
| ConsoleError (text : string) (err : string).

(** What the listener can change: the table readings, the calls of the
    value-change callback, the console.  The table tags is only read. *)
Record t : Type := {
  tags : list PrismaStorage.Tag;
  readings : list Reading;
  forwarded : list ValueChange;
  console : list log
}.

Definition add_reading (r : Reading) (w : t) : t :=
  {| tags := tags w; readings := (readings w ++ [r])%list;
     forwarded := forwarded w; console := console w |}.

Definition forward (v : ValueChange) (w : t) : t :=
  {| tags := tags w; readings := readings w;
     forwarded := (forwarded w ++ [v])%list; console := console w |}.

Definition console_write (l : log) (w : t) : t :=
  {| tags := tags w; readings := readings w;
     forwarded := forwarded w; console := (console w ++ [l])%list |}.

(** Whether the two calls into the Prisma client come back. *)
Record prisma_env : Type := {
  tag_findFirst : outcome;
  reading_create : outcome
}.

(** [typeof value === 'number' ? value : null] *)
Definition numeric (v : js_value) : option PrimFloat.float :=
  match v with
  | JsNumber x => Some x
  | _ => None
  end.

(** [monitoredItem.on("changed", async (dataValue) => { ... })] for the
    monitored item of node [node]; [now] is what [new Date()] gives when the
    notification arrives. *)
Definition changed (e : prisma_env) (node : string) (now : Z) (dataValue : DataValue)
  : M (S := t) unit :=
  if negb (OpcUaClient.StatusCode_same (statusCode dataValue) OpcUaClient.Good) then
    modify (console_write (ConsoleWarn ("Received value with status code "
                                  ++ OpcUaClient.StatusCode_toString (statusCode dataValue)
                                  ++ " for " ++ node)))
  else
    let value := dv_value dataValue in
    let dataType := dv_dataType dataValue in
    let timestamp := default now (sourceTimestamp dataValue) in
    try_catch
      (call (tag_findFirst e) ;;;
       w <- get ;;
       match List.find (fun tag => String.eqb (PrismaStorage.tag_nodeId tag) node) (tags w) with
       | Some tag =>
           call (reading_create e) ;;;
           modify (add_reading
                     {| tagId := PrismaStorage.tag_id tag;
                        value := numeric value;
                        quality := OpcUaClient.sc_name (statusCode dataValue);
                        timestamp := timestamp |}) ;;;
           modify (forward {| vc_nodeId := node; vc_value := value;
                              vc_dataType := dataType; vc_timestamp := timestamp |})
       | None => ret tt
       end)
      (fun err => modify (console_write (ConsoleError ("Error saving reading for " ++ node) err))).

End ChangedListener.

(** ** server/opcua/subscription.ts: registerRoutes *)

Module Routes.

(** [WebSocket.readyState] *)
Inductive readyState : Type := CONNECTING | OPEN | CLOSING | CLOSED.

(** The events pushed to the browsers. *)
Inductive message : Type :=
| connection_status (connected : bool) (endpoint : option string)
    (reconnecting reconnected : bool)
| value_changes_batch (changes : list ChangedListener.ValueChange).

Inductive effect : Type :=
| Send (client : nat) (data : message)   (* client.send(JSON.stringify(data)) *)
| SetTimeout (timer : nat) (delay : Z).   (* setTimeout(sendBatchedValueChanges, delay) *)

(** The variables the closures of [registerRoutes] share, then the side of
    the runtime: the timers set and not yet fired, oldest first. *)
Record t : Type := {
  clients : list (nat * readyState);
  valueChangeBatch : list ChangedListener.ValueChange;
  batchTimeout : option nat;
  opcUaClient : option OpcUaClient.t;
  subscriptionManager : option SubscriptionManager.t;
  pending_timers : list nat;
  next_timer : nat;
  effects : list effect
}.

Definition set_valueChangeBatch (v : list ChangedListener.ValueChange) (w : t) : t :=
  {| clients := clients w; valueChangeBatch := v; batchTimeout := batchTimeout w;
     opcUaClient := opcUaClient w; subscriptionManager := subscriptionManager w;
     pending_timers := pending_timers w; next_timer := next_timer w;
     effects := effects w |}.

Definition set_batchTimeout (v : option nat) (w : t) : t :=
  {| clients := clients w; valueChangeBatch := valueChangeBatch w; batchTimeout := v;
     opcUaClient := opcUaClient w; subscriptionManager := subscriptionManager w;
     pending_timers := pending_timers w; next_timer := next_timer w;
     effects := effects w |}.

Definition set_opcUaClient (v : option OpcUaClient.t) (w : t) : t :=
  {| clients := clients w; valueChangeBatch := valueChangeBatch w;
     batchTimeout := batchTimeout w;
     opcUaClient := v; subscriptionManager := subscriptionManager w;
     pending_timers := pending_timers w; next_timer := next_timer w;
     effects := effects w |}.

Definition set_pending_timers (v : list nat) (w : t) : t :=
  {| clients := clients w; valueChangeBatch := valueChangeBatch w;
     batchTimeout := batchTimeout w;
     opcUaClient := opcUaClient w; subscriptionManager := subscriptionManager w;
     pending_timers := v; next_timer := next_timer w;
     effects := effects w |}.

Definition emit (es : list effect) (w : t) : t :=
  {| clients := clients w; valueChangeBatch := valueChangeBatch w;
     batchTimeout := batchTimeout w;
     opcUaClient := opcUaClient w; subscriptionManager := subscriptionManager w;
     pending_timers := pending_timers w; next_timer := next_timer w;
     effects := (effects w ++ es)%list |}.

(** [setTimeout(sendBatchedValueChanges, delay)]: the identifier returned. *)
Definition setTimeout (delay : Z) (w : t) : nat * t :=
  (next_timer w,
   {| clients := clients w; valueChangeBatch := valueChangeBatch w;
      batchTimeout := batchTimeout w;
      opcUaClient := opcUaClient w; subscriptionManager := subscriptionManager w;
      pending_timers := (pending_timers w ++ [next_timer w])%list;
      next_timer := S (next_timer w);
      effects := (effects w ++ [SetTimeout (next_timer w) delay])%list |}).

Definition is_open (s : readyState) : bool :=
  match s with OPEN => true | _ => false end.

(** What [broadcast(data)] sends: one message to every open client. *)
Definition deliveries (data : message) (cs : list (nat * readyState)) : list effect :=
  List.map (fun c => Send (fst c) data) (List.filter (fun c => is_open (snd c)) cs).

(** [const broadcast = (data: any) => { ... }] *)
Definition broadcast (data : message) (w : t) : t :=
  emit (deliveries data (clients w)) w.

(** [const sendBatchedValueChanges = () => { ... }] *)
Definition sendBatchedValueChanges (w : t) : t :=
  let w1 :=
    if (0 <? length (valueChangeBatch w))%nat then
      set_valueChangeBatch [] (broadcast (value_changes_batch (valueChangeBatch w)) w)
    else w in
  set_batchTimeout None w1.

(** [const handleValueChange = (nodeId, value, dataType, timestamp) => { ... }] *)
Definition handleValueChange (change : ChangedListener.ValueChange) (w : t) : t :=
  let w1 := set_valueChangeBatch (valueChangeBatch w ++ [change])%list w in
  match batchTimeout w1 with
  | None =>
      let '(timer, w2) := setTimeout 50 w1 in
      set_batchTimeout (Some timer) w2
  | Some _ => w1
  end.

(** What happens to the batching state: the subscription manager calls the
    value-change callback, or the runtime fires the oldest pending timer. *)
Inductive event : Type :=
| ValueChanged (change : ChangedListener.ValueChange)
| TimerFired.

Definition step (w : t) (ev : event) : t :=
  match ev with
  | ValueChanged change => handleValueChange change w
  | TimerFired =>
      match pending_timers w with
      | [] => w
      | _ :: rest => sendBatchedValueChanges (set_pending_timers rest w)
      end
  end.

Definition run (w : t) (evs : list event) : t := fold_left step evs w.

(** No batch is being accumulated and no timer is set. *)
Definition quiescent (w : t) : Prop :=
  valueChangeBatch w = [] /\ batchTimeout w = None /\ pending_timers w = [].

(** The batched events among the effects, per receiving client. *)
Definition batches_sent_to (client : nat) (es : list effect)
  : list (list ChangedListener.ValueChange) :=
  omap (fun e => match e with
                 | Send c (value_changes_batch changes) =>
                     if Nat.eqb c client then Some changes else None
                 | _ => None
                 end) es.

(** The handlers given to [opcUaClient.setEventHandlers] for a lost
    connection and for a reconnection. *)
Definition onConnectionLost (w : t) : t :=
  broadcast (connection_status false None true false) w.

Definition onReconnected (w : t) : t :=
  broadcast (connection_status true
               (Some (from_option OpcUaClient.endpointUrl "" (opcUaClient w)))
               false true) w.

(** The stack reports the two events to the client object, whose listeners
    call the handlers above when they are set. *)
Definition connection_lost (w : t) : t :=
  match opcUaClient w with
  | None => w
  | Some c =>
      let w1 := set_opcUaClient (Some (OpcUaClient.connection_lost c)) w in
      if bool_decide (OpcUaClient.onConnectionLost ∈ OpcUaClient.eventHandlers c)
      then onConnectionLost w1 else w1
  end.

Definition after_reconnection (w : t) : t :=
  match opcUaClient w with
  | None => w
  | Some c =>
      let w1 := set_opcUaClient (Some (OpcUaClient.after_reconnection c)) w in
      if bool_decide (OpcUaClient.onReconnected ∈ OpcUaClient.eventHandlers c)
      then onReconnected w1 else w1
  end.

(** In [app.post('/api/connections/:id/connect')], the loop
    [for (const tag of subscribedTags) { await subscriptionManager
    .subscribe(tag.nodeId).catch(err => console.error(...)) }]. *)
Definition subscribedTags (tags : list PrismaStorage.Tag) : list PrismaStorage.Tag :=
  List.filter PrismaStorage.tag_isSubscribed tags.

(** One turn of the loop: the attempt for one tag, its failure logged. *)
Definition attempt (e : SubscriptionManager.env) (client : OpcUaClient.t)
    (tag : PrismaStorage.Tag) : M (S := SubscriptionManager.t) unit :=
  try_catch
    (SubscriptionManager.subscribe e client (PrismaStorage.tag_nodeId tag))
    (fun err =>
       SubscriptionManager.perform
         (SubscriptionManager.ConsoleError
            ("Error subscribing tag " ++ PrismaStorage.tag_nodeId tag) err)).

Definition resubscribe (e : SubscriptionManager.env) (client : OpcUaClient.t)
    (tags : list PrismaStorage.Tag) : M (S := SubscriptionManager.t) unit :=
  SubscriptionManager.forEach (attempt e client) (subscribedTags tags).

(** The same route from [new SubscriptionManager(...)] to the end of the
    loop: the manager it leaves in [subscriptionManager]. *)
Definition connect_subscriptions (e : SubscriptionManager.env) (client : OpcUaClient.t)
    (settings : option PrismaStorage.SubscriptionSetting)
    (tags : list PrismaStorage.Tag) (first_object : nat) : SubscriptionManager.t :=
  final_state
    ((match settings with
      | Some s =>
          SubscriptionManager.setDefaultSettings e client
            {| SubscriptionManager.publishingInterval := PrismaStorage.publishingInterval s;
               SubscriptionManager.samplingInterval := PrismaStorage.samplingInterval s;
               SubscriptionManager.queueSize := PrismaStorage.queueSize s |}
      | None => ret tt
      end ;;;
      resubscribe e client tags)
       (SubscriptionManager.constructor e client first_object)).

End Routes.

(** ** client/src/contexts/NavigationContext.tsx: OpcUaProvider

    The registry [responseHandlers] and the promises its entries settle.
    State updates are applied at once; the loading indicators and the toasts
    of the component are left out. *)

Module OpcUaProvider.

(** The state of a promise of [browseNodes]; the nodes of a result are
    represented by their identifiers. *)
Inductive settlement : Type :=
| Pending
| Fulfilled (nodes : list string)
| Rejected (message : string).

(** An entry [{ resolve, reject, timestamp }]: [resolve] and [reject] are
    the two functions of the promise [h_promise]. *)
Record handler : Type := {
  h_promise : nat;
  h_timestamp : Z
}.

Record t : Type := {
  responseHandlers : gmap string handler;
  promises : gmap nat settlement;
  next_promise : nat;
  sent : list (string * string)   (* sendJsonMessage('browse', { nodeId, requestId }) *)
}.

Definition initial : t :=
  {| responseHandlers := ∅; promises := ∅; next_promise := 0; sent := [] |}.

Definition set_responseHandlers (v : gmap string handler) (st : t) : t :=
  {| responseHandlers := v; promises := promises st;
     next_promise := next_promise st; sent := sent st |}.

Definition set_promises (v : gmap nat settlement) (st : t) : t :=
  {| responseHandlers := responseHandlers st; promises := v;
     next_promise := next_promise st; sent := sent st |}.

(** Calling [resolve] or [reject] of promise [p]: a promise is settled by
    the first call, later calls do nothing. *)
Definition settle (p : nat) (v : settlement) (st : t) : t :=
  match promises st !! p with
  | Some Pending => set_promises (<[p := v]> (promises st)) st
  | _ => st
  end.

(** [new Promise((resolve, reject) => ...)] *)
Definition new_promise (st : t) : nat * t :=
  (next_promise st,
   {| responseHandlers := responseHandlers st;
      promises := <[next_promise st := Pending]> (promises st);
      next_promise := S (next_promise st); sent := sent st |}).

Definition record_sent (node requestId : string) (st : t) : t :=
  {| responseHandlers := responseHandlers st; promises := promises st;
     next_promise := next_promise st;
     sent := (sent st ++ [(node, requestId)])%list |}.

(** [browseNodes(nodeId)] up to [await resultPromise]: the promise awaited,
    [None] when the function returns [[]] before creating one.
    [requestSent] is what [sendJsonMessage] returns, [now] is [Date.now()]. *)
Definition browseNodes (isConnected wsConnected requestSent : bool) (now : Z)
    (node : string) (st : t) : option nat * t :=
  if negb isConnected then (None, st)
  else if negb wsConnected then (None, st)
  else
    let requestId := "browse_" ++ node in
    let '(p, st1) := new_promise st in
    let st2 :=
      set_responseHandlers
        (<[requestId := {| h_promise := p; h_timestamp := now |}]> (responseHandlers st1))
        st1 in
    let st3 := record_sent node requestId st2 in
    if negb requestSent then
      let st4 := set_responseHandlers (delete requestId (responseHandlers st3)) st3 in
      (Some p, settle p (Rejected "Falha ao enviar a solicitação WebSocket") st4)
    else (Some p, st3).

(** A message from the server, as the effect on [lastMessage] reads it. *)
Inductive inbound : Type :=
| browse_result (node : string) (nodes : option (list string))
| error (requestId : option string) (message : option string)
| other.

Definition truthy (s : string) : bool := negb (String.eqb s "").

(** The effect that processes [lastMessage]. *)
Definition on_message (data : inbound) (st : t) : t :=
  match data with
  | browse_result node nodes =>
      if truthy node then
        let handlerId := "browse_" ++ node in
        match responseHandlers st !! handlerId with
        | Some h =>
            set_responseHandlers (delete handlerId (responseHandlers st))
              (settle (h_promise h) (Fulfilled (default [] nodes)) st)
        | None => st
        end
      else st
  | error (Some requestId) message =>
      if truthy requestId then
        let handlerId := requestId in
        match responseHandlers st !! handlerId with
        | Some h =>
            let text :=
              match message with
              | Some m => if truthy m then m else "Erro na requisição"
              | None => "Erro na requisição"
              end in
            set_responseHandlers (delete handlerId (responseHandlers st))
              (settle (h_promise h) (Rejected text) st)
        | None => st
        end
      else st
  | _ => st
  end.

(** [now - handler.timestamp > 30000] *)
Definition expired (now : Z) (h : handler) : bool := (30000 <? now - h_timestamp h)%Z.

(** The body of [Object.keys(newHandlers).forEach((id) => { ... })]. *)
Definition expire (now : Z) (st : t) (entry : string * handler) : t :=
  let '(id, h) := entry in
  if expired now h then
    let st1 :=
      if startsWith id "browse_"
      then settle (h_promise h) (Fulfilled []) st
      else settle (h_promise h) (Rejected "Tempo limite esgotado") st in
    set_responseHandlers (delete id (responseHandlers st1)) st1
  else st.

(** The callback of [setInterval(..., 5000)]. *)
Definition sweep (now : Z) (st : t) : t :=
  fold_left (expire now) (map_to_list (responseHandlers st)) st.

Definition sweep_period : Z := 5000.

(** What can happen to the registry. *)
Inductive event : Type :=
| Browse (node : string) (now : Z) (requestSent : bool)
| Message (data : inbound)
| Sweep (now : Z).

Definition step (st : t) (ev : event) : t :=
  match ev with
  | Browse node now requestSent => snd (browseNodes true true requestSent now node st)
  | Message data => on_message data st
  | Sweep now => sweep now st
  end.

Definition run (st : t) (evs : list event) : t := fold_left step evs st.

(** No entry of the registry settles promise [p]. *)
Definition unreferenced (p : nat) (st : t) : Prop :=
  forall id h, responseHandlers st !! id = Some h -> h_promise h <> p.

(** Promise [p] was created, is pending, and no entry can settle it. *)
Definition orphaned (p : nat) (st : t) : Prop :=
  promises st !! p = Some Pending /\ unreferenced p st /\ p < next_promise st.

End OpcUaProvider.

(** ** Concrete inputs

    A plant with one level sensor, used to run the definitions above. *)

Module Samples.

(** A client object with a session, all the handlers of the routes set. *)
Definition live_client : OpcUaClient.t :=
  {| OpcUaClient.client := Some 0; OpcUaClient.session := Some 1;
     OpcUaClient.connected := true;
     OpcUaClient.endpointUrl := "opc.tcp://plc:4840";
     OpcUaClient.eventHandlers :=
       [OpcUaClient.onConnected; OpcUaClient.onDisconnected;
        OpcUaClient.onConnectionLost; OpcUaClient.onReconnected];
     OpcUaClient.effects := [] |}.

(** The session closes with an error, the transport closes. *)
Definition session_close_fails : OpcUaClient.disconnect_env :=
  {| OpcUaClient.session_close := Throws "BadSessionClosed";
     OpcUaClient.client_disconnect := Returns |}.

(** The session closes, the transport raises. *)
Definition transport_fails : OpcUaClient.disconnect_env :=
  {| OpcUaClient.session_close := Returns;
     OpcUaClient.client_disconnect := Throws "socket hang up" |}.

(** The object type BaseObjectType, as a server lists it under Types. *)
Definition BaseObjectType : OpcUaClient.ReferenceDescription :=
  {| OpcUaClient.ref_nodeId := "ns=0;i=58";
     OpcUaClient.ref_browseName := "BaseObjectType";
     OpcUaClient.ref_displayName := Some "BaseObjectType";
     OpcUaClient.ref_nodeClass := OpcUaClient.NC_ObjectType;
     OpcUaClient.ref_typeDefinition := None |}.

Definition object_types : OpcUaClient.browse_env :=
  {| OpcUaClient.session_browse :=
       Normal {| OpcUaClient.br_statusCode := OpcUaClient.Good;
                 OpcUaClient.br_references := Some [BaseObjectType] |};
     OpcUaClient.session_browseNext :=
       Normal [{| OpcUaClient.br_statusCode := OpcUaClient.Good;
                  OpcUaClient.br_references := Some [BaseObjectType] |}];
     OpcUaClient.session_read_DataType := fun _ => Thrown "BadAttributeIdInvalid" |}.

Definition level : string := "ns=2;s=Tank1.Level".

(** The stack accepts everything. *)
Definition friendly : SubscriptionManager.env :=
  {| SubscriptionManager.create_subscription := Returns;
     SubscriptionManager.create_monitored_item := fun _ => Returns;
     SubscriptionManager.terminate := fun _ => Returns;
     SubscriptionManager.read_attributes := fun _ => Returns |}.

(** The stack accepts everything but [terminate()], which raises. *)
Definition terminate_fails : SubscriptionManager.env :=
  {| SubscriptionManager.create_subscription := Returns;
     SubscriptionManager.create_monitored_item := fun _ => Returns;
     SubscriptionManager.terminate := fun _ => Throws "BadSubscriptionIdInvalid";
     SubscriptionManager.read_attributes := fun _ => Returns |}.

(** The server does not know the node. *)
Definition unknown_node : SubscriptionManager.env :=
  {| SubscriptionManager.create_subscription := Returns;
     SubscriptionManager.create_monitored_item := fun _ => Returns;
     SubscriptionManager.terminate := fun _ => Returns;
     SubscriptionManager.read_attributes := fun _ => Throws "BadNodeIdUnknown" |}.

(** The manager of a connected client after [subscribe(level)]. *)
Definition monitoring_level : SubscriptionManager.t :=
  final_state
    (SubscriptionManager.subscribe friendly live_client level
       (SubscriptionManager.constructor friendly live_client 0)).

Definition faster : SubscriptionManager.SubscriptionSettings :=
  {| SubscriptionManager.publishingInterval := 500;
     SubscriptionManager.samplingInterval := 100;
     SubscriptionManager.queueSize := 20 |}.

Definition level_tag : PrismaStorage.Tag :=
  {| PrismaStorage.tag_id := 7; PrismaStorage.tag_nodeId := level;
     PrismaStorage.tag_isSubscribed := true |}.

Definition pump_tag : PrismaStorage.Tag :=
  {| PrismaStorage.tag_id := 8; PrismaStorage.tag_nodeId := "ns=2;s=Pump1.Speed";
     PrismaStorage.tag_isSubscribed := false |}.

(** The routes after a connect during which the server did not know the
    node of [level_tag]: the tag is flagged, no monitored item exists. *)
Definition connected_without_level : Routes.t :=
  {| Routes.clients := [(0, Routes.OPEN)];
     Routes.valueChangeBatch := [];
     Routes.batchTimeout := None;
     Routes.opcUaClient := Some live_client;
     Routes.subscriptionManager :=
       Some (Routes.connect_subscriptions unknown_node live_client None
               [level_tag; pump_tag] 0);
     Routes.pending_timers := [];
     Routes.next_timer := 0;
     Routes.effects := [] |}.

(** Two browsers, one of them gone, and nothing being batched. *)
Definition idle_routes : Routes.t :=
  {| Routes.clients := [(0, Routes.OPEN); (1, Routes.CLOSED); (2, Routes.OPEN)];
     Routes.valueChangeBatch := [];
     Routes.batchTimeout := None;
     Routes.opcUaClient := Some live_client;
     Routes.subscriptionManager := Some monitoring_level;
     Routes.pending_timers := [];
     Routes.next_timer := 0;
     Routes.effects := [] |}.

Definition level_at (x : PrimFloat.float) (time : Z) : ChangedListener.ValueChange :=
  {| ChangedListener.vc_nodeId := level; ChangedListener.vc_value := ChangedListener.JsNumber x;
     ChangedListener.vc_dataType := "Double"; ChangedListener.vc_timestamp := time |}.

(** A good sample without source timestamp. *)
Definition good_sample : ChangedListener.DataValue :=
  {| ChangedListener.statusCode := OpcUaClient.Good;
     ChangedListener.dv_value := ChangedListener.JsNumber 1.5%float;
     ChangedListener.dv_dataType := "Double";
     ChangedListener.sourceTimestamp := None |}.

Definition database : ChangedListener.t :=
  {| ChangedListener.tags := [pump_tag; level_tag];
     ChangedListener.readings := [];
     ChangedListener.forwarded := [];
     ChangedListener.console := [] |}.

Definition prisma_up : ChangedListener.prisma_env :=
  {| ChangedListener.tag_findFirst := Returns;
     ChangedListener.reading_create := Returns |}.

Definition plain_settings : PrismaStorage.InsertSubscriptionSettings :=
  {| PrismaStorage.ins_publishingInterval := 1000;
     PrismaStorage.ins_samplingInterval := 500;
     PrismaStorage.ins_queueSize := 10;
     PrismaStorage.ins_isDefault := Some false |}.

Definition default_settings : PrismaStorage.InsertSubscriptionSettings :=
  {| PrismaStorage.ins_publishingInterval := 2000;
     PrismaStorage.ins_samplingInterval := 250;
     PrismaStorage.ins_queueSize := 5;
     PrismaStorage.ins_isDefault := Some true |}.

Definition make_default : PrismaStorage.PartialSubscriptionSettings :=
  {| PrismaStorage.upd_publishingInterval := None;
     PrismaStorage.upd_samplingInterval := None;
     PrismaStorage.upd_queueSize := None;
     PrismaStorage.upd_isDefault := Some true |}.

End Samples.

(** ** server/opcua/subscription.ts: [subscribe], wait by wait

    [subscribe] waits twice: at [await this.initSubscription()], when the
    manager has no subscription, and at [await
    this.client.readNodeAttributes(nodeId)], between the guard
    [this.monitoredItems.has(nodeId)] and [this.monitoredItems.set].
    Whatever else runs in the process runs during these waits. *)

Module Subscribing.
Import SubscriptionManager.

Inductive wait : Type :=
| ForSubscription   (* await this.initSubscription() *)
| ForAttributes.    (* await this.client.readNodeAttributes(nodeId) *)

#[global] Instance wait_eq_dec : EqDecision wait.
Proof. solve_decision. Defined.

(** [subscribe] from the answer of [readNodeAttributes] on: the rest of
    [try { ... } catch (err) { ...; throw err; }]. *)
Definition finish (e : env) (client : OpcUaClient.t) (node : string) : M (S := t) unit :=
  try_catch
    (lift (OpcUaClient.readNodeAttributes (read_attributes e) client node) ;;;
     m2 <- get ;;
     match subscription m2 with
     | None => throw "Failed to create subscription"
     | Some sub =>
         call (create_monitored_item e node) ;;;
         m3 <- get ;;
         let monitoredItem := new_item m3 sub node in
         perform (CreateMonitoredItem monitoredItem) ;;;
         modify new_object ;;;
         modify (fun m => set_monitoredItems
                            (<[node := monitoredItem]> (monitoredItems m)) m) ;;;
         perform (ConsoleLog ("Subscribed to " ++ node))
     end)
    (fun err =>
       perform (ConsoleError ("Error subscribing to " ++ node) err) ;;;
       throw err).

(** The three steps of [subscribe], with [at_subscription] and
    [at_attributes] running during its two waits.  First
    [if (!this.subscription) { await this.initSubscription(); }]. *)
Definition ensure_subscription_during (at_subscription : M (S := t) unit)
    (e : env) (client : OpcUaClient.t) : M (S := t) unit :=
  m <- get ;;
  if negb (isSome (subscription m))
  then initSubscription e client ;;; at_subscription
  else ret tt.

(** Then the guard, the wait for the attributes and the rest. *)
Definition monitor_during (at_attributes : M (S := t) unit)
    (e : env) (client : OpcUaClient.t) (node : string) : M (S := t) unit :=
  m1 <- get ;;
  if isSome (monitoredItems m1 !! node) then ret tt
  else at_attributes ;;; finish e client node.

(** The whole method. *)
Definition subscribe_during (at_subscription at_attributes : M (S := t) unit)
    (e : env) (client : OpcUaClient.t) (node : string) : M (S := t) unit :=
  if negb (OpcUaClient.isConnected client) then
    throw "OPC UA client not connected"
  else
    ensure_subscription_during at_subscription e client ;;;
    monitor_during at_attributes e client node.

End Subscribing.

(** ** server/opcua/subscription.ts: the connect route while events arrive

    A subscription object that was terminated emits "terminated" some time
    after the call of [terminate()], and the listener of [initSubscription]
    then sets [this.subscription = null], whichever object the field holds
    by then.  The route waits at each [await], so the event can arrive
    between two turns of its loop and during the waits of [subscribe]. *)

Module ConnectRoute.
Import SubscriptionManager.

(** For one turn of the loop: whether the event arrives before the turn,
    and whether it arrives during each wait of [subscribe]. *)
Record arrivals : Type := {
  before : bool;
  for_subscription : bool;
  for_attributes : bool
}.

Definition none : arrivals :=
  {| before := false; for_subscription := false; for_attributes := false |}.

(** No event arrives while [subscribe] waits. *)
Definition undisturbed (a : arrivals) : Prop :=
  for_subscription a = false /\ for_attributes a = false.

(** The listener runs when the event arrives. *)
Definition arrive (arrives : bool) : M (S := t) unit :=
  if arrives then on_terminated else ret tt.

(** One turn of [for (const tag of subscribedTags) { await
    subscriptionManager.subscribe(tag.nodeId).catch(err => console.error(...)) }]. *)
Definition attempt (a : arrivals) (e : env) (client : OpcUaClient.t)
    (tag : PrismaStorage.Tag) : M (S := t) unit :=
  arrive (before a) ;;;
  try_catch
    (Subscribing.subscribe_during (arrive (for_subscription a)) (arrive (for_attributes a))
       e client (PrismaStorage.tag_nodeId tag))
    (fun err =>
       perform (ConsoleError ("Error subscribing tag " ++ PrismaStorage.tag_nodeId tag) err)).

(** The route from [new SubscriptionManager(...)] to the end of the loop;
    [when] tells for the turn of each tag which events arrive. *)
Definition subscriptions (e : env) (client : OpcUaClient.t)
    (when : PrismaStorage.Tag -> arrivals)
    (settings : option PrismaStorage.SubscriptionSetting)
    (tags : list PrismaStorage.Tag) (first_object : nat) : completion unit * t :=
  ((match settings with
    | Some s =>
        setDefaultSettings e client
          {| publishingInterval := PrismaStorage.publishingInterval s;
             samplingInterval := PrismaStorage.samplingInterval s;
             queueSize := PrismaStorage.queueSize s |}
    | None => ret tt
    end ;;;
    forEach (fun tag => attempt (when tag) e client tag) (Routes.subscribedTags tags))
     (constructor e client first_object)).

(** The messages the two handlers of a reconnection may send. *)
Definition status_message (ef : Routes.effect) : Prop :=
  exists browser connected endpoint reconnecting reconnected,
    ef = Routes.Send browser
           (Routes.connection_status connected endpoint reconnecting reconnected).

End ConnectRoute.

(** ** Sequences of calls on a SubscriptionManager *)

Module ManagerRuns.
Import SubscriptionManager.

(** The calls the routes make on the manager, and the "terminated" event
    of the stack. *)
Inductive op : Type :=
| Subscribe (node : string)
| Unsubscribe (node : string)
| Clear
| SetDefaultSettings (settings : SubscriptionSettings)
| TerminatedEvent.

(** One call, with the state of the client and the answers of the stack at
    the time of the call. *)
Record invocation : Type := {
  stack : env;
  caller : OpcUaClient.t;
  request : op
}.

(** The manager after one call, whether the call returns or throws. *)
Definition apply (m : t) (c : invocation) : t :=
  final_state
    (match request c with
     | Subscribe node => subscribe (stack c) (caller c) node
     | Unsubscribe node => unsubscribe (stack c) node
     | Clear => clear (stack c)
     | SetDefaultSettings settings => setDefaultSettings (stack c) (caller c) settings
     | TerminatedEvent => on_terminated
     end m).

Definition run (m : t) (calls : list invocation) : t := fold_left apply calls m.

(** Every entry of the map is filed under the node of its item, every item
    of the map was created by the stack, and the stack gave each item it
    created an identity of its own. *)
Definition consistent (m : t) : Prop :=
  (forall node item, monitoredItems m !! node = Some item ->
     mi_nodeId item = node /\ In item (created m))
  /\ (forall item, In item (created m) -> mi_handle item < next_object m)
  /\ NoDup (List.map mi_handle (created m)).

(** No monitored item is lost: an item whose [terminate()] has not returned
    is the one the map holds for its node. *)
Definition accounted (m : t) : Prop :=
  forall item, In item (created m) -> mi_handle item ∉ terminated m ->
    monitoredItems m !! mi_nodeId item = Some item.

(** A step that creates no monitored item and leaves the map alone. *)
Definition quiet (m m' : t) : Prop :=
  monitoredItems m' = monitoredItems m
  /\ created m' = created m
  /\ next_object m <= next_object m'
  /\ (forall object, object ∈ terminated m -> object ∈ terminated m').

(** The handles on which [terminate()] was called for a monitored item. *)
Definition terminations (es : list effect) : list nat :=
  omap (fun e => match e with TerminateMonitoredItem handle => Some handle | _ => None end) es.

(** [terminate()] returns, on whatever object it is called. *)
Definition terminates (e : env) : Prop := forall object, terminate e object = Returns.

End ManagerRuns.

(** ** server/opcua/subscription.ts: calls that overlap

    The routes call the manager from request handlers that run
    concurrently: while one call of [subscribe] waits, other calls begin,
    resume and end. *)

Module Interleaving.
Import SubscriptionManager ManagerRuns Subscribing.

(** The manager, and the calls of [subscribe] that wait, by node and by the
    wait they are at. *)
Record t : Type := {
  manager : SubscriptionManager.t;
  waiting : list (string * wait)
}.

Definition start (m : SubscriptionManager.t) : t := {| manager := m; waiting := [] |}.

Definition suspend (node : string) (at_wait : wait) (s : t) : t :=
  {| manager := manager s; waiting := (waiting s ++ [(node, at_wait)])%list |}.

(** [subscribe] from [if (this.monitoredItems.has(nodeId)) { return; }] to
    the call of [readNodeAttributes]. *)
Definition guard (node : string) (s : t) : t :=
  if isSome (monitoredItems (manager s) !! node) then s
  else suspend node ForAttributes s.

(** [subscribe] from its first line to its first wait. *)
Definition enter (e : env) (client : OpcUaClient.t) (node : string) (s : t) : t :=
  if negb (OpcUaClient.isConnected client) then s
  else if isSome (subscription (manager s)) then guard node s
  else
    match initSubscription e client (manager s) with
    | (Normal _, m) => suspend node ForSubscription {| manager := m; waiting := waiting s |}
    | (Thrown _, m) => {| manager := m; waiting := waiting s |}
    end.

(** The first of the calls that wait at [at_wait] for [node] leaves the
    list. *)
Fixpoint leave (node : string) (at_wait : wait) (l : list (string * wait))
  : list (string * wait) :=
  match l with
  | [] => []
  | x :: rest =>
      if bool_decide (x = (node, at_wait)) then rest else x :: leave node at_wait rest
  end.

(** A call that waits goes on, up to its next wait or to its end; [e] and
    [client] are the stack and the client at that time. *)
Definition resume (e : env) (client : OpcUaClient.t) (node : string) (at_wait : wait)
    (s : t) : t :=
  if bool_decide ((node, at_wait) ∈ waiting s) then
    let s' := {| manager := manager s; waiting := leave node at_wait (waiting s) |} in
    match at_wait with
    | ForSubscription => guard node s'
    | ForAttributes =>
        {| manager := final_state (finish e client node (manager s'));
           waiting := waiting s' |}
    end
  else s.

(** A call begins ([subscribe] runs to its first wait, the other methods
    and the listener of "terminated" never wait), or a call that waits goes
    on. *)
Inductive event : Type :=
| Begin (c : invocation)
| Resume (e : env) (client : OpcUaClient.t) (node : string) (at_wait : wait).

Definition stack_of (ev : event) : env :=
  match ev with
  | Begin c => stack c
  | Resume e _ _ _ => e
  end.

Definition step (s : t) (ev : event) : t :=
  match ev with
  | Begin c =>
      match request c with
      | Subscribe node => enter (stack c) (caller c) node s
      | _ => {| manager := apply (manager s) c; waiting := waiting s |}
      end
  | Resume e client node at_wait => resume e client node at_wait s
  end.

Definition run (s : t) (evs : list event) : t := fold_left step evs s.

(** The nodes for which a call is between the guard and
    [this.monitoredItems.set]. *)
Definition monitoring (s : t) : list string :=
  omap (fun x => match snd x with ForAttributes => Some (fst x) | ForSubscription => None end)
       (waiting s).

(** At no time of the run are two calls for the same node between the
    guard and [this.monitoredItems.set]. *)
Fixpoint exclusive (s : t) (evs : list event) : Prop :=
  NoDup (monitoring s)
  /\ match evs with
     | [] => True
     | ev :: rest => exclusive (step s ev) rest
     end.

(** What holds between the events of a run in which no two calls are
    between the guard and [set] for one node: the map is consistent, no
    live item is lost, and a node for which a call is between its guard and
    [set] has no entry. *)
Definition steady (s : t) : Prop :=
  consistent (manager s)
  /\ accounted (manager s)
  /\ forall node, node ∈ monitoring s ->
       monitoredItems (manager s) !! node = None.

End Interleaving.

(** ** Notifications handled one after the other *)

Module Notifications.
Import ChangedListener.

(** One "changed" event: the monitored item it comes from, the time of its
    arrival, the answers of the Prisma client while it is handled. *)
Record notification : Type := {
  prisma : prisma_env;
  node : string;
  arrival : Z;
  data : DataValue
}.

Definition deliver (w : t) (n : notification) : t :=
  final_state (changed (prisma n) (node n) (arrival n) (data n) w).

Definition run (w : t) (ns : list notification) : t := fold_left deliver ns w.

(** Reading [r] is the stored form of the forwarded value change [v]. *)
Definition stored_as (tags : list PrismaStorage.Tag) (r : Reading) (v : ValueChange) : Prop :=
  timestamp r = vc_timestamp v
  /\ value r = numeric (vc_value v)
  /\ quality r = "Good"
  /\ exists tag, In tag tags /\ PrismaStorage.tag_id tag = tagId r
                 /\ PrismaStorage.tag_nodeId tag = vc_nodeId v.

End Notifications.

(** ** Any number of batching windows *)

Module BatchRuns.
Import Routes.

(** The value changes among the events, in the order of their arrival. *)
Definition arrived (evs : list event) : list ChangedListener.ValueChange :=
  omap (fun ev => match ev with ValueChanged change => Some change | TimerFired => None end)
       evs.

(** The timer is set exactly while a batch is being accumulated, and it is
    the only pending one. *)
Definition armed (w : t) : Prop :=
  match batchTimeout w with
  | None => valueChangeBatch w = [] /\ pending_timers w = []
  | Some timer => valueChangeBatch w <> [] /\ pending_timers w = [timer]
  end.

End BatchRuns.

(** ** server/opcua/subscription.ts: the messages of a browser

    [ws.on('message', async (message) => { ... })], for a message that is
    JSON (any other is dropped), by [parsed.type]; the browser always sends
    [nodeId] with a browse.  The replies are the calls of [ws.send], whose
    own failure is not modelled; the console is left out. *)

Module WebSocketServer.

Inductive request : Type :=
| pong
| browse (nodeId : string) (requestId : option string)
| browseNext (continuationPoint : option string)
| unknown.

Inductive reply : Type :=
| browse_result (nodeId requestId : string) (nodes : list OpcUaClient.OpcUaNode)
| browse_next_result (nodes : list OpcUaClient.OpcUaNode)
| error (requestId : option string) (message : string).

(** [a || b] for a string that may be absent. *)
Definition or_else (a : option string) (b : string) : string :=
  match a with
  | Some text => if String.eqb text "" then b else text
  | None => b
  end.

(** [opcUaClient?.isConnected()] *)
Definition connected (opcUaClient : option OpcUaClient.t) : bool :=
  match opcUaClient with
  | Some c => OpcUaClient.isConnected c
  | None => false
  end.

Definition on_message (env : OpcUaClient.browse_env)
    (opcUaClient : option OpcUaClient.t) (parsed : request) : list reply :=
  match parsed with
  | pong => []
  | browse nodeId requestId =>
      match opcUaClient with
      | Some c =>
          if OpcUaClient.isConnected c then
            match OpcUaClient.browse env c nodeId with
            | Normal nodes =>
                [browse_result nodeId (or_else requestId ("browse_" ++ nodeId)) nodes]
            | Thrown err =>
                [error (Some (or_else requestId ("browse_" ++ nodeId)))
                   ("Error browsing node: " ++ or_else (Some err) "Unknown error")]
            end
          else
            [error None "OPC UA client not connected. Please connect to a server first."]
      | None =>
          [error None "OPC UA client not connected. Please connect to a server first."]
      end
  | browseNext continuationPoint =>
      match opcUaClient with
      | Some c =>
          if OpcUaClient.isConnected c
             && negb (String.eqb (default "" continuationPoint) "") then
            match OpcUaClient.browseNext env c with
            | Normal nodes => [browse_next_result nodes]
            | Thrown err =>
                [error None ("Error in browseNext: " ++ or_else (Some err) "Unknown error")]
            end
          else
            [error None
               "Cannot browseNext: Client not connected or missing continuation point"]
      | None =>
          [error None "Cannot browseNext: Client not connected or missing continuation point"]
      end
  | unknown => []
  end.

(** A reply as the effect on [lastMessage] of the browser reads it after
    [JSON.parse]; the browser keeps the identifiers of the nodes. *)
Definition received (r : reply) : OpcUaProvider.inbound :=
  match r with
  | browse_result nodeId _ nodes =>
      OpcUaProvider.browse_result nodeId (Some (List.map OpcUaClient.nodeId nodes))
  | browse_next_result _ => OpcUaProvider.other
  | error requestId message => OpcUaProvider.error requestId (Some message)
  end.

(** The browser after the replies of the server have arrived. *)
Definition answer (replies : list reply) (st : OpcUaProvider.t) : OpcUaProvider.t :=
  fold_left (fun st r => OpcUaProvider.on_message (received r) st) replies st.

End WebSocketServer.

(** ** client: the effect on [lastMessage], run by run

    [useWebSocket] keeps in [lastMessage] the last message that is neither
    a "ping" nor a "connection_status".  The effect that reads it depends
    on [[lastMessage, responseHandlers]]: it runs when a message arrives,
    and it runs again, on the message [lastMessage] holds by then, whenever
    the registry has changed. *)

Module Browser.
Import OpcUaProvider.

Record t : Type := {
  provider : OpcUaProvider.t;
  lastMessage : option inbound
}.

Definition initial : t := {| provider := OpcUaProvider.initial; lastMessage := None |}.

Definition set_provider (st : OpcUaProvider.t) (b : t) : t :=
  {| provider := st; lastMessage := lastMessage b |}.

(** One run of the effect: [if (!lastMessage) return;], then the body that
    [OpcUaProvider.on_message] gives. *)
Definition effect (b : t) : t :=
  match lastMessage b with
  | None => b
  | Some data => set_provider (on_message data (provider b)) b
  end.

(** [ws.onmessage] for a message that is neither "ping" nor
    "connection_status": [setLastMessage(evt)], then the effect. *)
Definition receive (data : inbound) (b : t) : t :=
  effect {| provider := provider b; lastMessage := Some data |}.

(** [browseNodes(nodeId)] up to [await resultPromise], then the run of the
    effect that the change of the registry causes. *)
Definition browseNodes (isConnected wsConnected requestSent : bool) (now : Z)
    (node : string) (b : t) : option nat * t :=
  match OpcUaProvider.browseNodes isConnected wsConnected requestSent now node (provider b) with
  | (Some p, st) => (Some p, effect (set_provider st b))
  | (None, _) => (None, b)
  end.

(** The browser after the replies of the server have arrived. *)
Definition answer (replies : list WebSocketServer.reply) (b : t) : t :=
  fold_left (fun b r => receive (WebSocketServer.received r) b) replies b.

(** The effect has run on the last message since the registry last
    changed: another run changes nothing. *)
Definition at_rest (b : t) : Prop := effect b = b.

(** Message [data] settles the request filed under [requestId], if there is
    one. *)
Definition answers (requestId : string) (data : inbound) : bool :=
  match data with
  | browse_result node _ => truthy node && String.eqb ("browse_" ++ node) requestId
  | error (Some id) _ => truthy id && String.eqb id requestId
  | _ => false
  end.

(** The last message answers [requestId]. *)
Definition stale (requestId : string) (b : t) : bool :=
  match lastMessage b with
  | Some data => answers requestId data
  | None => false
  end.

End Browser.

(** ** The registry of pending requests in the browser *)

Module Registry.
Import OpcUaProvider.

(** Promises are numbered below [next_promise]; every entry holds a pending
    promise under a key [browse_...]; no two entries hold the same promise. *)
Definition well_formed (st : t) : Prop :=
  (forall p, is_Some (promises st !! p) -> p < next_promise st)
  /\ (forall id h, responseHandlers st !! id = Some h ->
        promises st !! h_promise h = Some Pending /\ startsWith id "browse_" = true)
  /\ (forall id id' h h',
        responseHandlers st !! id = Some h -> responseHandlers st !! id' = Some h' ->
        h_promise h = h_promise h' -> id = id').

End Registry.

(** ** server/opcua/client.ts: connect

    The method body, with the calls it makes on the stack.  The events the
    stack emits while a call is awaited ("connected", "backoff", ...) are
    delivered to the listeners of [initializeClient] and are not part of
    the method. *)

Module Connecting.
Import OpcUaClient.

(** [interface OpcUaConnectionOptions]; [None] is an absent field. *)
Record OpcUaConnectionOptions : Type := {
  opt_endpointUrl : string;
  securityPolicy : option string;
  securityMode : option string;
  username : option string;
  password : option string
}.

Inductive MessageSecurityMode : Type := Mode_None | Mode_Sign | Mode_SignAndEncrypt.

(** The options of [OPCUAClient.create] that [connect] chooses; the policy
    is named by its key in the enumeration [SecurityPolicy]. *)
Record ClientOptions : Type := {
  co_securityMode : MessageSecurityMode;
  co_securityPolicy : string;
  co_endpointMustExist : bool
}.

Inductive stack_call : Type :=
| Create (client : nat) (options : ClientOptions)       (* OPCUAClient.create(options) *)
| Connect (client : nat) (endpointUrl : string)         (* client.connect(endpointUrl) *)
| CreateSession (client : nat) (userIdentity : option (string * string)) (session : nat).

(** The object, the calls made on the stack, the next object of the stack. *)
Record t : Type := {
  object : OpcUaClient.t;
  calls : list stack_call;
  next_id : nat
}.

Definition set_object (c : OpcUaClient.t) (w : t) : t :=
  {| object := c; calls := calls w; next_id := next_id w |}.

Definition record (call : stack_call) (w : t) : t :=
  {| object := object w; calls := (calls w ++ [call])%list; next_id := S (next_id w) |}.

Definition record_connect (call : stack_call) (w : t) : t :=
  {| object := object w; calls := (calls w ++ [call])%list; next_id := next_id w |}.

(** A method of the object, run on the object in [w]. *)
Definition on_object {A} (m : M (S := OpcUaClient.t) A) : M (S := t) A :=
  fun w => let '(r, c) := m (object w) in (r, set_object c w).

Definition set_client (v : option nat) (c : OpcUaClient.t) : OpcUaClient.t :=
  {| client := v; session := session c; connected := connected c;
     endpointUrl := endpointUrl c; eventHandlers := eventHandlers c;
     effects := effects c |}.

Definition set_endpointUrl (v : string) (c : OpcUaClient.t) : OpcUaClient.t :=
  {| client := client c; session := session c; connected := connected c;
     endpointUrl := v; eventHandlers := eventHandlers c;
     effects := effects c |}.

(** What the stack answers.  [known_policy name] is whether
    [SecurityPolicy[name]] is defined; [leaving] answers the [disconnect()]
    of the previous connection. *)
Record env : Type := {
  known_policy : string -> bool;
  leaving : disconnect_env;
  old_client_disconnect : outcome;
  client_create : outcome;
  client_connect : outcome;
  client_createSession : outcome
}.

(** A string option that is truthy. *)
Definition given (o : option string) : bool :=
  match o with
  | Some text => negb (String.eqb text "")
  | None => false
  end.

(** [private initializeClient(options)] *)
Definition initializeClient (e : env) (options : ClientOptions) : M (S := t) unit :=
  try_catch
    (call (client_create e) ;;;
     w <- get ;;
     modify (record (Create (next_id w) options)) ;;;
     on_object (modify (set_client (Some (next_id w)))))
    (fun err =>
       on_object (perform (ConsoleError "Erro ao inicializar cliente OPC UA:" err)) ;;;
       throw err).

(** The block that chooses policy and mode: what is given to
    [initializeClient], [None] when the client is not recreated. *)
Definition security (e : env) (options : OpcUaConnectionOptions)
  : completion (option ClientOptions) :=
  if given (securityPolicy options)
     && negb (String.eqb (default "" (securityPolicy options)) "None") then
    let policy := default "" (securityPolicy options) in
    if negb (known_policy e policy) then
      Thrown ("Política de segurança inválida: " ++ policy)
    else
      let chosen mode :=
        Normal (Some {| co_securityMode := mode; co_securityPolicy := policy;
                        co_endpointMustExist := true |}) in
      if given (securityMode options) then
        let mode := default "" (securityMode options) in
        if String.eqb mode "SignAndEncrypt" then chosen Mode_SignAndEncrypt
        else if String.eqb mode "Sign" then chosen Mode_Sign
        else if negb (String.eqb mode "None") then
          Thrown ("Modo de segurança inválido: " ++ mode)
        else chosen Mode_None
      else chosen Mode_None
  else Normal None.

(** [userIdentity] *)
Definition userIdentity (options : OpcUaConnectionOptions) : option (string * string) :=
  if given (username options) && given (password options)
  then Some (default "" (username options), default "" (password options))
  else None.

(** The steps of the [try] block of [connect], in order.  First
    [if (this.connected) { try { await this.disconnect(); } catch ... }]. *)
Definition leave_previous (e : env) : M (S := t) unit :=
  w <- get ;;
  if connected (object w) then
    on_object (perform (ConsoleLog
                 "Desconectando da sessão anterior antes de reconectar")) ;;;
    try_catch (on_object (disconnect (leaving e)))
      (fun err =>
         on_object (perform (ConsoleWarn "Erro ao desconectar da sessão anterior:" err)))
  else ret tt.

(** Then [if (needToRecreateClient) { ... }]. *)
Definition recreate_client (e : env) (clientOptions : ClientOptions) : M (S := t) unit :=
  on_object (perform (ConsoleLog "Recriando cliente")) ;;;
  w <- get ;;
  (match client (object w) with
   | Some old =>
       try_catch
         (on_object (perform (TransportDisconnect old)) ;;;
          call (old_client_disconnect e))
         (fun _ => ret tt)
   | None => ret tt
   end) ;;;
  initializeClient e clientOptions.

(** Then from [await this.client.connect(options.endpointUrl)] to the end
    of the block.  [Connect] is recorded when the call is made, [Create]
    and [CreateSession] when they return their object. *)
Definition open_session (e : env) (options : OpcUaConnectionOptions) : M (S := t) unit :=
  w <- get ;;
  modify (record_connect
            (Connect (default 0 (client (object w))) (opt_endpointUrl options))) ;;;
  call (client_connect e) ;;;
  (if isSome (userIdentity options) then
     on_object (perform (ConsoleLog
                  ("Autenticando com usuário: " ++ default "" (username options))))
   else ret tt) ;;;
  on_object (perform (ConsoleLog "Criando sessão OPC UA...")) ;;;
  call (client_createSession e) ;;;
  w1 <- get ;;
  modify (record (CreateSession (default 0 (client (object w1)))
                    (userIdentity options) (next_id w1))) ;;;
  on_object (modify (set_session (Some (next_id w1)))) ;;;
  on_object (modify (set_connected true)) ;;;
  on_object (perform (ConsoleLog "Conectado com sucesso ao servidor OPC UA:")) ;;;
  on_object (modify (notify onConnected)).

(** [async connect(options: OpcUaConnectionOptions): Promise<void>].  The
    handler [onConnectionFailed] of the [catch] is none of the handlers the
    routes set. *)
Definition connect (e : env) (options : OpcUaConnectionOptions) : M (S := t) unit :=
  w <- get ;;
  if negb (isSome (client (object w))) then throw "Cliente OPC UA não inicializado"
  else
    try_catch
      (on_object (modify (set_endpointUrl (opt_endpointUrl options))) ;;;
       on_object (perform (ConsoleLog ("Conectando a " ++ opt_endpointUrl options))) ;;;
       leave_previous e ;;;
       recreate <- (fun w => (security e options, w)) ;;
       (match recreate with
        | Some clientOptions => recreate_client e clientOptions
        | None => ret tt
        end) ;;;
       open_session e options)
      (fun err =>
         on_object (perform (ConsoleError "Erro ao conectar ao servidor OPC UA:" err)) ;;;
         on_object (modify (set_connected false)) ;;;
         throw err).

End Connecting.

(** ** The table of subscription settings over time, and its routes *)

Module SettingsRoutes.
Import PrismaStorage.

(** The two writes of the storage on the table. *)
Inductive op : Type :=
| Create (settings : InsertSubscriptionSettings)
| Update (key : Z) (settings : PartialSubscriptionSettings).

Definition apply (db : table) (o : op) : table :=
  match o with
  | Create settings => snd (createSubscriptionSettings settings db)
  | Update key settings => snd (updateSubscriptionSettings key settings db)
  end.

Definition run (db : table) (ops : list op) : table := fold_left apply ops db.


(** The variables of [registerRoutes] the two routes use, and the table. *)
Record t : Type := {
  db : table;
  subscriptionManager : option SubscriptionManager.t
}.

(** [{ publishingInterval: settings.publishingInterval ?? 1000, ... }]: the
    three columns are NOT NULL. *)
Definition manager_settings (settings : SubscriptionSetting)
  : SubscriptionManager.SubscriptionSettings :=
  {| SubscriptionManager.publishingInterval := publishingInterval settings;
     SubscriptionManager.samplingInterval := samplingInterval settings;
     SubscriptionManager.queueSize := queueSize settings |}.

(** [subscriptionSettingsSchema.extend({ isDefault:
    z.boolean().optional().default(false) }).parse(req.body)], for a body
    that passes the schema. *)
Definition parse (body : InsertSubscriptionSettings) : InsertSubscriptionSettings :=
  {| ins_publishingInterval := ins_publishingInterval body;
     ins_samplingInterval := ins_samplingInterval body;
     ins_queueSize := ins_queueSize body;
     ins_isDefault := Some (default false (ins_isDefault body)) |}.

(** [if (flag && subscriptionManager) { subscriptionManager
    .setDefaultSettings({ ... }) }] *)
Definition push (e : SubscriptionManager.env) (client : OpcUaClient.t) (flag : bool)
    (settings : SubscriptionSetting) (manager : option SubscriptionManager.t)
  : option SubscriptionManager.t :=
  match manager with
  | Some m =>
      if flag then
        Some (final_state
                (SubscriptionManager.setDefaultSettings e client
                   (manager_settings settings) m))
      else Some m
  | None => None
  end.

(** [app.post('/api/subscription-settings')]: the row answered with status
    201. *)
Definition post (e : SubscriptionManager.env) (client : OpcUaClient.t)
    (body : InsertSubscriptionSettings) (w : t) : SubscriptionSetting * t :=
  let settingsData := parse body in
  let '(settings, db') := createSubscriptionSettings settingsData (db w) in
  (settings,
   {| db := db';
      subscriptionManager :=
        push e client (default false (ins_isDefault settingsData)) settings
          (subscriptionManager w) |}).

(** [app.put('/api/subscription-settings/:id')]: the row answered, [None]
    for the answer 404. *)
Definition put (e : SubscriptionManager.env) (client : OpcUaClient.t) (key : Z)
    (body : PartialSubscriptionSettings) (w : t) : option SubscriptionSetting * t :=
  match updateSubscriptionSettings key body (db w) with
  | (None, db') => (None, {| db := db'; subscriptionManager := subscriptionManager w |})
  | (Some settings, db') =>
      (Some settings,
       {| db := db';
          subscriptionManager :=
            push e client (isDefault settings) settings (subscriptionManager w) |})
  end.

End SettingsRoutes.

(** ** server/opcua/subscription.ts: POST /api/connections/disconnect *)

Module ConnectionRoutes.
Import Routes.

(** [res.status(status).json({ success, message })] *)
Inductive response : Type :=
| Response (status : Z) (success : bool) (message : string).

Definition set_subscriptionManager (v : option SubscriptionManager.t) (w : t) : t :=
  {| clients := clients w; valueChangeBatch := valueChangeBatch w;
     batchTimeout := batchTimeout w;
     opcUaClient := opcUaClient w; subscriptionManager := v;
     pending_timers := pending_timers w; next_timer := next_timer w;
     effects := effects w |}.

(** What the stack answers to the client and to the manager, and whether
    the bookkeeping in the storage (connection status, activity log)
    returns. *)
Record env : Type := {
  leaving : OpcUaClient.disconnect_env;
  stack : SubscriptionManager.env;
  storage : outcome
}.

(** The handler [onDisconnected] the connect route gives to the client. *)
Definition onDisconnected (w : t) : t :=
  broadcast (connection_status false None false false) w.

(** Whether a call of the client ran the handler [h]: the effects the call
    added to those of [before]. *)
Definition ran (h : OpcUaClient.handler) (before after : OpcUaClient.t) : bool :=
  existsb (fun e => match e with
                    | OpcUaClient.Handler h' => bool_decide (h' = h)
                    | _ => false
                    end)
          (drop (length (OpcUaClient.effects before)) (OpcUaClient.effects after)).

(** The route: its answer, the manager it let go (after [clear()]), and the
    variables afterwards. *)
Definition disconnect (e : env) (w : t)
  : response * option SubscriptionManager.t * t :=
  match opcUaClient w with
  | None => (Response 200 true "Already disconnected", None, w)
  | Some c =>
      let '(r, c') := OpcUaClient.disconnect (leaving e) c in
      let w0 := if ran OpcUaClient.onDisconnected c c' then onDisconnected w else w in
      match r with
      | Thrown err =>
          (Response 500 false ("Disconnection failed: " ++ err), None,
           set_opcUaClient (Some c') w0)
      | Normal _ =>
          let released :=
            option_map (fun m => final_state (SubscriptionManager.clear (stack e) m))
                       (subscriptionManager w0) in
          let w1 := set_subscriptionManager None (set_opcUaClient None w0) in
          match storage e with
          | Throws err =>
              (Response 500 false ("Disconnection failed: " ++ err), released, w1)
          | Returns =>
              (Response 200 true "Disconnected successfully", released,
               broadcast (connection_status false None false false) w1)
          end
      end
  end.

End ConnectionRoutes.

(** ** server/index.ts: gracefulShutdown *)

Module Shutdown.

(** The variables of the module and of [routes] that the function reads,
    and the exit code once [process.exit] was called. *)
Record t : Type := {
  isShuttingDown : bool;
  globalSubscriptionManager : option SubscriptionManager.t;
  globalOpcUaClient : option OpcUaClient.t;
  httpServer : bool;           (* [httpServer] is not null *)
  exited : option Z
}.

(** The answers of the stack, and whether the HTTP server finishes closing
    before the five seconds of [forceExitTimeout] are over. *)
Record env : Type := {
  stack : SubscriptionManager.env;
  leaving : OpcUaClient.disconnect_env;
  closes_in_time : bool
}.

(** [async function gracefulShutdown(signal?: string): Promise<void>]; the
    console is left out. *)
Definition gracefulShutdown (e : env) (w : t) : t :=
  if isShuttingDown w then w
  else
    {| isShuttingDown := true;
       globalSubscriptionManager :=
         option_map (fun m => final_state
                                (try_catch (SubscriptionManager.clear (stack e))
                                   (fun _ => ret tt) m))
                    (globalSubscriptionManager w);
       globalOpcUaClient :=
         option_map (fun c => final_state
                                (try_catch (OpcUaClient.disconnect (leaving e))
                                   (fun _ => ret tt) c))
                    (globalOpcUaClient w);
       httpServer := httpServer w;
       exited :=
         Some (if httpServer w then if closes_in_time e then 0%Z else 1%Z else 0%Z) |}.

End Shutdown.

(** ** server/opcua/subscription.ts: the routes that subscribe, unsubscribe
    and delete a tag *)

Module TagRoutes.
Import PrismaStorage.

(** The table tags and the two variables of [registerRoutes]. *)
Record t : Type := {
  tags : list Tag;
  opcUaClient : option OpcUaClient.t;
  subscriptionManager : option SubscriptionManager.t
}.

(** Whether the calls into the Prisma client return. *)
Record db_env : Type := {
  tag_findUnique : outcome;
  tag_update : outcome;
  tag_delete : outcome;
  activityLog_create : outcome
}.

Inductive response : Type :=
| Response (status : Z) (success : option bool) (message : string)
| NoContent.                               (* res.status(204).send() *)

Definition by_id (key : Z) (tag : Tag) : bool := (tag_id tag =? key)%Z.

(** [storage.getTag(id)] *)
Definition getTag (db : db_env) (key : Z) (table : list Tag) : option Tag :=
  match tag_findUnique db with
  | Returns => List.find (by_id key) table
  | Throws _ => None
  end.

Definition with_isSubscribed (v : bool) (tag : Tag) : Tag :=
  {| tag_id := tag_id tag; tag_nodeId := tag_nodeId tag; tag_isSubscribed := v |}.

(** [storage.setTagSubscription(id, isSubscribed)] *)
Definition setTagSubscription (db : db_env) (key : Z) (v : bool) (table : list Tag)
  : option Tag * list Tag :=
  match tag_update db with
  | Throws _ => (None, table)
  | Returns =>
      match List.find (by_id key) table with
      | None => (None, table)
      | Some tag =>
          (Some (with_isSubscribed v tag),
           List.map (fun tag => if by_id key tag then with_isSubscribed v tag else tag) table)
      end
  end.

(** [storage.deleteTag(id)] *)
Definition deleteTag (db : db_env) (key : Z) (table : list Tag) : bool * list Tag :=
  match tag_delete db with
  | Throws _ => (false, table)
  | Returns =>
      match List.find (by_id key) table with
      | None => (false, table)
      | Some _ => (true, List.filter (fun tag => negb (by_id key tag)) table)
      end
  end.

Definition set_tags (v : list Tag) (w : t) : t :=
  {| tags := v; opcUaClient := opcUaClient w; subscriptionManager := subscriptionManager w |}.

Definition set_subscriptionManager (v : option SubscriptionManager.t) (w : t) : t :=
  {| tags := tags w; opcUaClient := opcUaClient w; subscriptionManager := v |}.

(** The two routes have the same shape: [call] is [subscribe] or
    [unsubscribe] of the manager (whose client is the object in
    [opcUaClient]), [flag] the value written afterwards. *)
Definition change_subscription (flag : bool) (already done failed : string)
    (call : OpcUaClient.t -> string -> M (S := SubscriptionManager.t) unit)
    (db : db_env) (key : Z) (w : t) : response * t :=
  match getTag db key (tags w) with
  | None => (Response 404 None "Tag não encontrada", w)
  | Some tag =>
      if Bool.eqb (tag_isSubscribed tag) flag then (Response 200 (Some true) already, w)
      else
        match opcUaClient w with
        | None => (Response 400 None "Cliente OPC UA não está conectado", w)
        | Some c =>
            if negb (OpcUaClient.isConnected c) then
              (Response 400 None "Cliente OPC UA não está conectado", w)
            else
              match subscriptionManager w with
              | None =>
                  (Response 400 None "Gerenciador de subscrições não foi inicializado", w)
              | Some m =>
                  let '(r, m') := call c (tag_nodeId tag) m in
                  let w1 := set_subscriptionManager (Some m') w in
                  match r with
                  | Thrown err => (Response 500 (Some false) (failed ++ err), w1)
                  | Normal _ =>
                      let w2 := set_tags (snd (setTagSubscription db key flag (tags w1))) w1 in
                      match activityLog_create db with
                      | Throws err => (Response 500 (Some false) (failed ++ err), w2)
                      | Returns => (Response 200 (Some true) done, w2)
                      end
                  end
              end
        end
  end.

(** [app.post('/api/tags/:id/subscribe')] *)
Definition subscribe (e : SubscriptionManager.env) (db : db_env) (key : Z) (w : t)
  : response * t :=
  change_subscription true "Tag já está inscrita" "Subscrito com sucesso"
    "Falha na subscrição: " (SubscriptionManager.subscribe e) db key w.

(** [app.post('/api/tags/:id/unsubscribe')] *)
Definition unsubscribe (e : SubscriptionManager.env) (db : db_env) (key : Z) (w : t)
  : response * t :=
  change_subscription false "Tag já está desinscrita" "Subscrição cancelada com sucesso"
    "Falha ao cancelar subscrição: "
    (fun _ => SubscriptionManager.unsubscribe e) db key w.

(** [app.delete('/api/tags/:id')] *)
Definition delete (e : SubscriptionManager.env) (db : db_env) (key : Z) (w : t)
  : response * t :=
  match getTag db key (tags w) with
  | None => (Response 404 None "Tag not found", w)
  | Some tag =>
      let w1 :=
        match subscriptionManager w with
        | Some m =>
            if tag_isSubscribed tag
               && from_option OpcUaClient.isConnected false (opcUaClient w) then
              set_subscriptionManager
                (Some (final_state
                         (try_catch (SubscriptionManager.unsubscribe e (tag_nodeId tag))
                            (fun _ => ret tt) m))) w
            else w
        | None => w
        end in
      let '(success, table) := deleteTag db key (tags w1) in
      let w2 := set_tags table w1 in
      if success then
        match activityLog_create db with
        | Returns => (NoContent, w2)
        | Throws err => (Response 500 None err, w2)
        end
      else (Response 500 None "Failed to delete tag", w2)
  end.

End TagRoutes.

(** ** server/opcua/subscription.ts: the heartbeat of a browser socket *)

Module Heartbeat.

(** One socket of [wss.clients]: the property [isAlive], whether the server
    has called [terminate()] on it, and the pings sent to it. *)
Record socket : Type := {
  isAlive : bool;
  terminated : bool;
  pings : nat
}.

(** [wss.on('connection', (ws) => { ...; ws.isAlive = true; ... })] *)
Definition connected : socket := {| isAlive := true; terminated := false; pings := 0 |}.

(** What happens to a socket: the callback of [setInterval(..., 30_000)]
    reaches it, a pong of the protocol or a message of type pong arrives,
    any other message arrives. *)
Inductive event : Type := Tick | Pong | Message.

(** A terminated socket is no longer in [wss.clients] and gets no message. *)
Definition step (s : socket) (ev : event) : socket :=
  if terminated s then s
  else
    match ev with
    | Tick =>
        if negb (isAlive s) then
          {| isAlive := isAlive s; terminated := true; pings := pings s |}
        else {| isAlive := false; terminated := false; pings := S (pings s) |}
    | Pong => {| isAlive := true; terminated := terminated s; pings := pings s |}
    | Message => s
    end.

Definition run (s : socket) (evs : list event) : socket := fold_left step evs s.

(** Two ticks with no pong between them. *)
Definition silent_period (evs : list event) : Prop :=
  exists before between after,
    evs = (before ++ Tick :: between ++ Tick :: after)%list /\ ~ In Pong between.

End Heartbeat.

(** ** server/opcua/subscription.ts: PrismaStorage.getLatestReadings *)

Module LatestReadings.
Import ChangedListener.

(** The newer of two readings, the first on a tie. *)
Definition newer (a b : Reading) : Reading :=
  if (timestamp a <? timestamp b)%Z then b else a.

(** [prisma.reading.findFirst({ where: { tagId }, orderBy: { timestamp:
    'desc' } })] on the rows of the table: a reading of the tag with the
    greatest timestamp, [None] when the tag has no reading. *)
Definition findFirst (key : Z) (rows : list Reading) : option Reading :=
  match List.filter (fun r => (tagId r =? key)%Z) rows with
  | [] => None
  | first :: rest => Some (fold_left newer rest first)
  end.

(** The loop [for (const tagId of tagIds) { ... }]; [query] tells for each
    tag whether the call into the Prisma client returns. *)
Fixpoint collect (query : Z -> outcome) (rows : list Reading) (tagIds : list Z)
    (latestReadings : list Reading) : completion (list Reading) :=
  match tagIds with
  | [] => Normal latestReadings
  | key :: rest =>
      match query key with
      | Throws err => Thrown err
      | Returns =>
          collect query rows rest
            (match findFirst key rows with
             | Some reading => (latestReadings ++ [reading])%list
             | None => latestReadings
             end)
      end
  end.

(** [async getLatestReadings(tagIds: number[]): Promise<ReadingWithTag[]>] *)
Definition getLatestReadings (query : Z -> outcome) (rows : list Reading)
    (tagIds : list Z) : list Reading :=
  match collect query rows tagIds [] with
  | Normal latestReadings => latestReadings
  | Thrown _ => []
  end.

End LatestReadings.

(** ** Further concrete inputs *)

Module Scenarios.

(** A stack that knows one security policy and accepts every call. *)
Definition willing : Connecting.env :=
  {| Connecting.known_policy := fun name => String.eqb name "Basic256Sha256";
     Connecting.leaving :=
       {| OpcUaClient.session_close := Returns; OpcUaClient.client_disconnect := Returns |};
     Connecting.old_client_disconnect := Returns;
     Connecting.client_create := Returns;
     Connecting.client_connect := Returns;
     Connecting.client_createSession := Returns |}.

(** The connected client of the samples, objects 0 and 1 being its client
    and its session. *)
Definition running : Connecting.t :=
  {| Connecting.object := Samples.live_client; Connecting.calls := [];
     Connecting.next_id := 2 |}.

Definition plc (policy mode : option string) : Connecting.OpcUaConnectionOptions :=
  {| Connecting.opt_endpointUrl := "opc.tcp://plc2:4840";
     Connecting.securityPolicy := policy;
     Connecting.securityMode := mode;
     Connecting.username := Some "operator";
     Connecting.password := Some "secret" |}.

(** New intervals for a row, its flag left alone. *)
Definition slower : PrismaStorage.PartialSubscriptionSettings :=
  {| PrismaStorage.upd_publishingInterval := Some 5000%Z;
     PrismaStorage.upd_samplingInterval := None;
     PrismaStorage.upd_queueSize := Some 1%Z;
     PrismaStorage.upd_isDefault := None |}.

(** The routes with one default row in the table and the manager of the
    samples. *)
Definition configured : SettingsRoutes.t :=
  snd (SettingsRoutes.post Samples.friendly Samples.live_client Samples.default_settings
         {| SettingsRoutes.db := PrismaStorage.empty;
            SettingsRoutes.subscriptionManager := Some Samples.monitoring_level |}).

(** The server while it runs, and a shutdown in which every call on the
    stack raises and the HTTP server does not close in time. *)
Definition serving : Shutdown.t :=
  {| Shutdown.isShuttingDown := false;
     Shutdown.globalSubscriptionManager := Some Samples.monitoring_level;
     Shutdown.globalOpcUaClient := Some Samples.live_client;
     Shutdown.httpServer := true;
     Shutdown.exited := None |}.

Definition stuck : Shutdown.env :=
  {| Shutdown.stack := Samples.terminate_fails;
     Shutdown.leaving := Samples.transport_fails;
     Shutdown.closes_in_time := false |}.

(** The tag routes with the two tags of the samples, the pump not yet
    subscribed, and a storage that answers. *)
Definition tagged : TagRoutes.t :=
  {| TagRoutes.tags := [Samples.level_tag; Samples.pump_tag];
     TagRoutes.opcUaClient := Some Samples.live_client;
     TagRoutes.subscriptionManager := Some Samples.monitoring_level |}.

Definition storing : TagRoutes.db_env :=
  {| TagRoutes.tag_findUnique := Returns; TagRoutes.tag_update := Returns;
     TagRoutes.tag_delete := Returns; TagRoutes.activityLog_create := Returns |}.

End Scenarios.

(** * Properties

    ** OpcUaClient.disconnect *)

Section Disconnect.
Import OpcUaClient.

Lemma notify_fields h c :
  client (notify h c) = client c /\ session (notify h c) = session c /\
  connected (notify h c) = connected c /\ eventHandlers (notify h c) = eventHandlers c
  /\ endpointUrl (notify h c) = endpointUrl c /\
  protocol_calls (notify h c) = protocol_calls c.
Proof.
  unfold notify. case_bool_decide; [|done].
  unfold protocol_calls; cbn. rewrite List.filter_app. cbn. rewrite app_nil_r. done.
Qed.

Lemma notify_effects h c e : In e (effects c) -> In e (effects (notify h c)).
Proof.
  intros Hin. unfold notify. case_bool_decide; [|done]. cbn. apply in_or_app. by left.
Qed.

Ltac notify_simpl :=
  repeat match goal with
  | |- context [client (notify ?h ?c)] =>
      rewrite (proj1 (notify_fields h c))
  | |- context [session (notify ?h ?c)] =>
      rewrite (proj1 (proj2 (notify_fields h c)))
  | |- context [connected (notify ?h ?c)] =>
      rewrite (proj1 (proj2 (proj2 (notify_fields h c))))
  | |- context [eventHandlers (notify ?h ?c)] =>
      rewrite (proj1 (proj2 (proj2 (proj2 (notify_fields h c)))))
  | |- context [endpointUrl (notify ?h ?c)] =>
      rewrite (proj1 (proj2 (proj2 (proj2 (proj2 (notify_fields h c))))))
  | |- context [protocol_calls (notify ?h ?c)] =>
      rewrite (proj2 (proj2 (proj2 (proj2 (proj2 (notify_fields h c))))))
  end.

Ltac disconnect_cases env c :=
  destruct env as [[|?] [|?]]; destruct c as [[?|] [?|] ? ? ? ?];
  unfold isConnected, fields; cbn; notify_simpl; cbn.

(** [disconnect] changes no field but [session] and [connected]. *)
Lemma disconnect_frame env c :
  let c' := final_state (disconnect env c) in
  client c' = client c /\ session c' = None
  /\ endpointUrl c' = endpointUrl c /\ eventHandlers c' = eventHandlers c.
Proof. disconnect_cases env c; repeat split. Qed.

(** The flag is cleared when the transport step does not raise. *)
Lemma disconnect_flag_cleared env c :
  client_disconnect env = Returns \/ client c = None ->
  isSome (client c) || isSome (session c) = true ->
  connected (final_state (disconnect env c)) = false.
Proof.
  intros Hok Hsome. disconnect_cases env c; cbn in *; try reflexivity;
    try discriminate; destruct Hok; discriminate.
Qed.

(** It is left alone when there is nothing to disconnect, and when the
    transport step raises. *)
Lemma disconnect_flag_kept env c :
  (client c = None /\ session c = None)
  \/ (isSome (client c) = true /\ client_disconnect env <> Returns) ->
  connected (final_state (disconnect env c)) = connected c.
Proof.
  intros Hcase. disconnect_cases env c; cbn in *; try reflexivity;
    destruct Hcase as [[? ?] | [? ?]]; congruence.
Qed.

Lemma disconnect_returns env c :
  client_disconnect env = Returns \/ client c = None ->
  completed (disconnect env c) = Normal tt.
Proof.
  intros Hok. disconnect_cases env c; cbn in *; try reflexivity;
    destruct Hok; discriminate.
Qed.

(** An error of the transport step is written to the console and thrown to
    the caller. *)
Lemma disconnect_rethrows env c err :
  client_disconnect env = Throws err -> isSome (client c) = true ->
  completed (disconnect env c) = Thrown err
  /\ In (ConsoleWarn "error disconnecting OPC UA client" err)
        (effects (final_state (disconnect env c))).
Proof.
  intros Hthrows Hclient. destruct c as [[cl|] se co ep hs ef]; [|discriminate].
  destruct env as [sc cd]; cbn in Hthrows; subst cd.
  destruct sc, se; cbn; (split; [reflexivity|]); rewrite ?in_app_iff; cbn; tauto.
Qed.

(** C5, as the code has it.  [disconnect()] closes the session, then the
    transport.  Whatever the two steps answer, the session handle is null
    afterwards and [isConnected()] is false.  An error while closing the
    session is written to the console and the transport is disconnected all
    the same.  When the transport step does not raise (or there is no client
    object), the call returns, the connected flag is false as soon as there
    was a client object or a session, and calling [disconnect()] again
    leaves every field as it is.  When the transport step raises, the error
    is written to the console and thrown to the caller. *)
Theorem disconnect_leaves_no_session (env : disconnect_env) (c : t) :
  let r := disconnect env c in
  let c' := final_state r in
  session c' = None
  /\ isConnected c' = false
  /\ protocol_calls c' =
       (protocol_calls c ++ option_list (SessionClose <$> session c)
          ++ option_list (TransportDisconnect <$> client c))%list
  /\ (forall err, session_close env = Throws err -> isSome (session c) = true ->
        In (ConsoleWarn "error closing OPC UA session" err) (effects c'))
  /\ (client_disconnect env = Returns \/ client c = None ->
        completed r = Normal tt
        /\ (isSome (client c) || isSome (session c) = true -> connected c' = false)
        /\ forall env2, fields (final_state (disconnect env2 c')) = fields c')
  /\ (forall err, client_disconnect env = Throws err -> isSome (client c) = true ->
        completed r = Thrown err
        /\ In (ConsoleWarn "error disconnecting OPC UA client" err) (effects c')).
Proof.
  cbv zeta.
  destruct (disconnect_frame env c) as (Hclient & Hsession & Hendpoint & Hhandlers).
  split; [exact Hsession|].
  split; [unfold isConnected; rewrite Hsession; apply andb_false_r|].
  split.
  { disconnect_cases env c; unfold protocol_calls; cbn; rewrite ?List.filter_app; cbn;
      rewrite ?app_nil_r, <- ?app_assoc; reflexivity. }
  split.
  { intros err Hclose Hsome. destruct c as [cl [s|] co ep hs ef]; [|discriminate].
    destruct env as [sc cd]; cbn in Hclose; subst sc.
    destruct cl, cd; cbn; try apply notify_effects; cbn;
      rewrite ?in_app_iff; cbn; tauto. }
  split; [|by apply disconnect_rethrows].
  intros Hok.
  split; [by apply disconnect_returns|].
  split; [by apply disconnect_flag_cleared|].
  intros env2. set (c' := final_state (disconnect env c)) in *.
  destruct (disconnect_frame env2 c') as (Hclient2 & Hsession2 & Hendpoint2 & Hhandlers2).
  unfold fields. rewrite Hclient2, Hsession2, Hendpoint2, Hhandlers2, Hsession.
  f_equal; f_equal; f_equal.
  destruct (client c) as [cl|] eqn:Hcl.
  - (* a client object exists: the first call cleared the flag *)
    assert (connected c' = false) as Hflag.
    { apply disconnect_flag_cleared; [by rewrite Hcl | by rewrite Hcl]. }
    rewrite Hflag.
    destruct (client_disconnect env2) eqn:Hcd2.
    + apply disconnect_flag_cleared; [by left | by rewrite Hclient].
    + rewrite disconnect_flag_kept; [exact Hflag|].
      right. rewrite Hclient. split; [done | congruence].
  - (* no client object: nothing is left to disconnect *)
    apply disconnect_flag_kept. left. by rewrite Hclient.
Qed.

(** C5 at a live client whose session closes with an error. *)
Lemma disconnect_leaves_no_session_witness :
  completed (disconnect Samples.session_close_fails Samples.live_client) = Normal tt
  /\ connected (final_state (disconnect Samples.session_close_fails Samples.live_client))
     = false.
Proof.
  pose proof (disconnect_leaves_no_session Samples.session_close_fails Samples.live_client)
    as Hspec.
  cbv zeta in Hspec. destruct Hspec as (_ & _ & _ & _ & Hreturns & _).
  destruct (Hreturns (or_introl eq_refl)) as (Hdone & Hflag & _).
  split; [exact Hdone | apply Hflag; reflexivity].
Defined.

(** C5 as stated fails: when the transport step raises, the error is thrown
    to the caller and the connected flag keeps its value. *)
Lemma disconnect_transport_error_keeps_flag :
  let r := disconnect Samples.transport_fails Samples.live_client in
  completed r = Thrown "socket hang up"
  /\ connected (final_state r) = true
  /\ session (final_state r) = None
  /\ In (ConsoleWarn "error disconnecting OPC UA client" "socket hang up")
        (effects (final_state r)).
Proof. cbv zeta. repeat split. vm_compute. tauto. Qed.

End Disconnect.

(** ** OpcUaClient.browse and browseNext *)

Section Browse.
Import OpcUaClient.

(** The numerals the loop compares against. *)
Lemma NodeClass_toString_1 c : String.eqb (NodeClass_toString c) "1" = true <-> c = NC_Object.
Proof. destruct c; vm_compute; split; congruence. Qed.

Lemma NodeClass_toString_3 c : String.eqb (NodeClass_toString c) "3" = false.
Proof. destruct c; vm_compute; reflexivity. Qed.

(** What the folder flag of the code amounts to. *)
Lemma folder_flag_true (reference : ReferenceDescription) :
  folder_flag reference = true <->
  ref_nodeClass reference = NC_Object
  \/ exists typeDefinition,
       ref_typeDefinition reference = Some typeDefinition
       /\ includes typeDefinition "FolderType" = true.
Proof.
  unfold folder_flag. cbv zeta. rewrite NodeClass_toString_3, orb_false_r.
  destruct (String.eqb (NodeClass_toString (ref_nodeClass reference)) "1") eqn:Hone.
  - apply NodeClass_toString_1 in Hone.
    split; [by left|]. intros _. destruct (ref_typeDefinition reference); [|done].
    by destruct (includes _ _).
  - assert (ref_nodeClass reference <> NC_Object) as Hclass.
    { intros Heq. apply NodeClass_toString_1 in Heq. congruence. }
    destruct (ref_typeDefinition reference) as [td|].
    + destruct (includes td "FolderType") eqn:Htd.
      * split; [|done]. intros _. right. by exists td.
      * split; [done|]. intros [? | (td' & [= <-] & ?)]; congruence.
    + split; [done|]. intros [? | (td' & ? & ?)]; congruence.
Qed.

(** The loop pushes one node per reference, in the order of the references. *)
Lemma normalize_map env references :
  normalize env references = List.map (describe env) references.
Proof.
  unfold normalize.
  enough (forall acc, fold_left (fun nodes reference => (nodes ++ [describe env reference])%list)
                        references acc = (acc ++ List.map (describe env) references)%list)
    as Hgen by apply (Hgen []).
  induction references as [|reference rest IH]; intros acc; cbn.
  - by rewrite app_nil_r.
  - rewrite IH, <- app_assoc. reflexivity.
Qed.

Lemma normalize_order env references :
  List.map nodeId (normalize env references) = List.map ref_nodeId references.
Proof.
  rewrite normalize_map, List.map_map. reflexivity.
Qed.

(** With a session and a good answer, both methods return the nodes of the
    references in the order of the server. *)
Lemma browse_nodes env c node result :
  isConnected c = true -> session_browse env = Normal result ->
  br_statusCode result = Good ->
  browse env c node = Normal (List.map (describe env) (default [] (br_references result))).
Proof.
  intros Hconnected Hbrowse Hgood. unfold browse. rewrite Hconnected, Hbrowse, Hgood.
  apply andb_true_iff in Hconnected as [_ ->]. cbn. by rewrite normalize_map.
Qed.

Lemma browseNext_nodes env c result others :
  isConnected c = true -> session_browseNext env = Normal (result :: others) ->
  br_statusCode result = Good ->
  browseNext env c = Normal (List.map (describe env) (default [] (br_references result))).
Proof.
  intros Hconnected Hbrowse Hgood. unfold browseNext. rewrite Hconnected, Hbrowse, Hgood.
  apply andb_true_iff in Hconnected as [_ ->]. cbn. by rewrite normalize_map.
Qed.

(** C6 fails on the code for object types.  The node class ObjectType has
    the value 8; the loop compares the numeral with "3", so the reference to
    an object type without a folder type definition is not flagged as a
    folder, by [browse] and by [browseNext] alike. *)
Theorem browse_ObjectType_not_folder :
  ref_nodeClass Samples.BaseObjectType = NC_ObjectType
  /\ browse Samples.object_types Samples.live_client "ns=0;i=88"
     = Normal [{| nodeId := "ns=0;i=58"; browseName := "BaseObjectType";
                  displayName := "BaseObjectType"; nodeClass := "8";
                  dataType := None; isFolder := false |}]
  /\ browseNext Samples.object_types Samples.live_client
     = browse Samples.object_types Samples.live_client "ns=0;i=88".
Proof. repeat split; vm_compute; reflexivity. Qed.

End Browse.

(** ** SubscriptionManager *)

Section Manager.
Import SubscriptionManager.

(** *** subscribe *)

Lemma created_emit (e : effect) (m : t) :
  created (emit e m)
  = (created m ++ match e with CreateMonitoredItem item => [item] | _ => [] end)%list.
Proof. unfold created, emit. cbn. rewrite omap_app. by destruct e. Qed.

(** [initSubscription] touches neither the map nor the monitored items of
    the stack. *)
Lemma initSubscription_frame e client m :
  let m' := final_state (initSubscription e client m) in
  monitoredItems m' = monitoredItems m /\ created m' = created m
  /\ terminated m' = terminated m /\ defaultSettings m' = defaultSettings m.
Proof.
  cbv zeta. unfold initSubscription.
  destruct (negb (OpcUaClient.isConnected client)); [done|].
  destruct (OpcUaClient.getSession client); [|done].
  destruct e as [[|err] ? ? ?]; unfold created; cbn; rewrite omap_app; cbn;
    rewrite app_nil_r; done.
Qed.

(** When it returns, a subscription object is in place. *)
Lemma initSubscription_returns e client m :
  completed (initSubscription e client m) = Normal tt ->
  subscription (final_state (initSubscription e client m)) = Some (next_object m)
  /\ next_object (final_state (initSubscription e client m)) = S (next_object m).
Proof.
  unfold initSubscription.
  destruct (negb (OpcUaClient.isConnected client)); [discriminate|].
  destruct (OpcUaClient.getSession client); [|discriminate].
  destruct e as [[|err] ? ? ?]; cbn; [done | discriminate].
Qed.

Lemma initSubscription_succeeds e client m :
  OpcUaClient.isConnected client = true -> create_subscription e = Returns ->
  completed (initSubscription e client m) = Normal tt.
Proof.
  intros Hconnected Hcreate. unfold initSubscription. rewrite Hconnected.
  apply andb_true_iff in Hconnected as [_ Hsession].
  unfold OpcUaClient.getSession. destruct (OpcUaClient.session client); [|discriminate].
  unfold try_catch, bind. by rewrite Hcreate.
Qed.

Lemma ensure_subscription_present e client m :
  is_Some (subscription m) -> ensure_subscription e client m = (Normal tt, m).
Proof. intros [sub Hsub]. unfold ensure_subscription, bind, get. cbn. by rewrite Hsub. Qed.

Lemma ensure_subscription_absent e client m :
  subscription m = None -> ensure_subscription e client m = initSubscription e client m.
Proof. intros Hsub. unfold ensure_subscription, bind, get. cbn. by rewrite Hsub. Qed.

Lemma ensure_subscription_frame e client m :
  let m' := final_state (ensure_subscription e client m) in
  monitoredItems m' = monitoredItems m /\ created m' = created m
  /\ terminated m' = terminated m /\ defaultSettings m' = defaultSettings m.
Proof.
  destruct (subscription m) as [sub|] eqn:Hsub.
  - by rewrite ensure_subscription_present.
  - rewrite ensure_subscription_absent by done. apply initSubscription_frame.
Qed.

Lemma ensure_subscription_returns e client m :
  completed (ensure_subscription e client m) = Normal tt ->
  is_Some (subscription (final_state (ensure_subscription e client m))).
Proof.
  destruct (subscription m) as [sub|] eqn:Hsub.
  - rewrite ensure_subscription_present by done. cbn. by rewrite Hsub.
  - rewrite ensure_subscription_absent by done.
    intros Hdone. apply initSubscription_returns in Hdone as [-> _]. done.
Qed.

(** The guard [if (this.monitoredItems.has(nodeId)) return]. *)
Lemma monitor_existing e client node m :
  is_Some (monitoredItems m !! node) -> monitor e client node m = (Normal tt, m).
Proof. intros [item Hitem]. unfold monitor, bind, get. cbn. by rewrite Hitem. Qed.

(** Without an entry for the node, [monitor] reads the attributes of the
    node, then creates the item, and reports the first failure. *)
Lemma monitor_fresh_eq e client node m :
  monitoredItems m !! node = None ->
  monitor e client node m
  = let failed err :=
      (Thrown err, emit (ConsoleError ("Error subscribing to " ++ node) err) m) in
    match OpcUaClient.readNodeAttributes (read_attributes e) client node with
    | Thrown err => failed err
    | Normal _ =>
        match subscription m with
        | None => failed "Failed to create subscription"
        | Some sub =>
            match create_monitored_item e node with
            | Throws err => failed err
            | Returns =>
                (Normal tt,
                 emit (ConsoleLog ("Subscribed to " ++ node))
                   (set_monitoredItems
                      (<[node := new_item m sub node]> (monitoredItems m))
                      (new_object (emit (CreateMonitoredItem (new_item m sub node)) m))))
            end
        end
    end.
Proof.
  intros Hitem. unfold monitor, try_catch, bind, get, lift, call, perform, modify, throw, ret.
  rewrite Hitem. cbn [isSome].
  destruct (OpcUaClient.readNodeAttributes _ client node) as [[]|err]; [|reflexivity].
  destruct (subscription m) as [sub|]; [|reflexivity].
  destruct (create_monitored_item e node); reflexivity.
Qed.

Lemma monitor_fresh e client node m :
  monitoredItems m !! node = None ->
  completed (monitor e client node m) = Normal tt ->
  exists sub,
    subscription m = Some sub
    /\ subscription (final_state (monitor e client node m)) = Some sub
    /\ monitoredItems (final_state (monitor e client node m))
       = <[node := new_item m sub node]> (monitoredItems m)
    /\ created (final_state (monitor e client node m))
       = (created m ++ [new_item m sub node])%list
    /\ terminated (final_state (monitor e client node m)) = terminated m.
Proof.
  intros Hitem. rewrite (monitor_fresh_eq e client node m Hitem). cbv zeta.
  destruct (OpcUaClient.readNodeAttributes _ client node) as [[]|err]; [|discriminate].
  destruct (subscription m) as [sub|] eqn:Hsub; [|discriminate].
  destruct (create_monitored_item e node); [|discriminate].
  intros _. exists sub. cbn. rewrite Hsub.
  unfold created. cbn. rewrite !omap_app. cbn. rewrite app_nil_r. done.
Qed.

Lemma monitor_succeeds e client node m sub :
  OpcUaClient.isConnected client = true -> subscription m = Some sub ->
  read_attributes e node = Returns -> create_monitored_item e node = Returns ->
  completed (monitor e client node m) = Normal tt.
Proof.
  intros Hconnected Hsub Hread Hcreate.
  destruct (monitoredItems m !! node) as [item|] eqn:Hitem.
  - by rewrite monitor_existing.
  - rewrite (monitor_fresh_eq e client node m Hitem). cbv zeta.
    unfold OpcUaClient.readNodeAttributes.
    rewrite Hconnected. apply andb_true_iff in Hconnected as [_ ->]. cbn [negb orb].
    by rewrite Hread, Hsub, Hcreate.
Qed.

(** Whatever it answers, [monitor] leaves the subscription object and the
    other entries of the map alone. *)
Lemma monitor_frame e client node m :
  let m' := final_state (monitor e client node m) in
  subscription m' = subscription m /\ terminated m' = terminated m
  /\ (forall other, other <> node -> monitoredItems m' !! other = monitoredItems m !! other)
  /\ (is_Some (monitoredItems m !! node) -> is_Some (monitoredItems m' !! node)).
Proof.
  cbv zeta. destruct (monitoredItems m !! node) as [item|] eqn:Hitem.
  - rewrite monitor_existing by done. cbn. by rewrite Hitem.
  - rewrite (monitor_fresh_eq e client node m Hitem). cbv zeta.
    assert (~ is_Some (@None MonitoredItem)) as Hnone by (by intros [? ?]).
    destruct (OpcUaClient.readNodeAttributes _ client node) as [[]|err];
      [|cbn; repeat split; done].
    destruct (subscription m) as [sub|] eqn:Hsub; [|cbn; repeat split; done].
    destruct (create_monitored_item e node); cbn; repeat split; try done.
    intros other Hother. by rewrite lookup_insert_ne.
Qed.

Lemma subscribe_disconnected e client node m :
  OpcUaClient.isConnected client = false ->
  subscribe e client node m = (Thrown "OPC UA client not connected", m).
Proof. intros Hconnected. unfold subscribe. by rewrite Hconnected. Qed.

Lemma subscribe_connected e client node m :
  OpcUaClient.isConnected client = true ->
  subscribe e client node m
  = match ensure_subscription e client m with
    | (Normal _, m') => monitor e client node m'
    | (Thrown err, m') => (Thrown err, m')
    end.
Proof. intros Hconnected. unfold subscribe. by rewrite Hconnected. Qed.

(** A call of [subscribe] that returns went through its three steps. *)
Lemma subscribe_returns e client node m :
  completed (subscribe e client node m) = Normal tt ->
  let m0 := final_state (ensure_subscription e client m) in
  OpcUaClient.isConnected client = true
  /\ is_Some (subscription m0)
  /\ completed (monitor e client node m0) = Normal tt
  /\ final_state (subscribe e client node m) = final_state (monitor e client node m0).
Proof.
  destruct (OpcUaClient.isConnected client) eqn:Hconnected.
  - rewrite subscribe_connected by done.
    pose proof (ensure_subscription_returns e client m) as Hsub.
    destruct (ensure_subscription e client m) as [[[]|err] m0]; [|discriminate].
    cbn in *. auto.
  - by rewrite subscribe_disconnected.
Qed.


(** C3.  When [subscribe(n)] has returned, a second [subscribe(n)] finds
    the entry of [n] in the map and returns at once: it changes nothing, not
    even the console.  After the two calls the map has one entry for [n];
    when [n] had none before, the two calls together created exactly one
    monitored item, the one in the map, and when it had one they created
    none. *)
Theorem subscribe_twice_one_item
    (e1 e2 : env) (client : OpcUaClient.t) (node : string) (m : t) :
  let r1 := subscribe e1 client node m in
  let r2 := subscribe e2 client node (final_state r1) in
  completed r1 = Normal tt ->
  r2 = (Normal tt, final_state r1)
  /\ (monitoredItems m !! node = None ->
      exists item,
        mi_nodeId item = node
        /\ monitoredItems (final_state r2) !! node = Some item
        /\ created (final_state r2) = (created m ++ [item])%list)
  /\ (is_Some (monitoredItems m !! node) ->
      monitoredItems (final_state r2) = monitoredItems m
      /\ created (final_state r2) = created m).
Proof.
  cbv zeta. intros Hdone.
  destruct (subscribe_returns e1 client node m Hdone)
    as (Hconnected & Hsub0 & Hmonitor & Hfinal).
  destruct (ensure_subscription_frame e1 client m) as (Hmap0 & Hcreated0 & _).
  destruct (monitor_frame e1 client node (final_state (ensure_subscription e1 client m)))
    as (Hsub1 & _ & _ & Hkept).
  set (m0 := final_state (ensure_subscription e1 client m)) in *.
  (* the entry the second call finds *)
  assert (is_Some (monitoredItems (final_state (subscribe e1 client node m)) !! node)
          /\ (monitoredItems m !! node = None ->
              exists item, mi_nodeId item = node
                /\ monitoredItems (final_state (subscribe e1 client node m)) !! node = Some item
                /\ created (final_state (subscribe e1 client node m)) = (created m ++ [item])%list)
          /\ (is_Some (monitoredItems m !! node) ->
              monitoredItems (final_state (subscribe e1 client node m)) = monitoredItems m
              /\ created (final_state (subscribe e1 client node m)) = created m))
    as (Hentry & Hfresh & Hold).
  { rewrite Hfinal. destruct (monitoredItems m !! node) as [item|] eqn:Hitem.
    - rewrite monitor_existing by (by rewrite Hmap0, Hitem).
      cbn. rewrite Hmap0, Hitem. repeat split; done.
    - rewrite <- Hmap0 in Hitem.
      destruct (monitor_fresh e1 client node m0 Hitem Hmonitor)
        as (sub & _ & _ & Hmap & Hcreated & _).
      rewrite Hmap, Hcreated, Hcreated0, lookup_insert_eq. split; [done|]. split.
      + intros _. by exists (new_item m0 sub node).
      + by intros [? ?]. }
  assert (subscribe e2 client node (final_state (subscribe e1 client node m))
          = (Normal tt, final_state (subscribe e1 client node m))) as ->.
  { rewrite subscribe_connected by done.
    rewrite ensure_subscription_present by (by rewrite Hfinal, Hsub1).
    by apply monitor_existing. }
  done.
Qed.

(** C3 for the level sensor and a manager that monitors nothing yet. *)
Lemma subscribe_twice_one_item_witness :
  subscribe Samples.friendly Samples.live_client Samples.level
    (final_state (subscribe Samples.friendly Samples.live_client Samples.level
                    (constructor Samples.friendly Samples.live_client 0)))
  = (Normal tt,
     final_state (subscribe Samples.friendly Samples.live_client Samples.level
                    (constructor Samples.friendly Samples.live_client 0))).
Proof.
  assert (completed (subscribe Samples.friendly Samples.live_client Samples.level
                       (constructor Samples.friendly Samples.live_client 0)) = Normal tt)
    as Hfirst by (vm_compute; reflexivity).
  exact (proj1 (subscribe_twice_one_item Samples.friendly Samples.friendly
                  Samples.live_client Samples.level
                  (constructor Samples.friendly Samples.live_client 0) Hfirst)).
Defined.

(** *** clear *)

Lemma terminate_item_eq e item m :
  terminate_item e item m
  = (Normal tt,
     match terminate e (mi_handle item) with
     | Returns =>
         mark_terminated (mi_handle item) (emit (TerminateMonitoredItem (mi_handle item)) m)
     | Throws err =>
         emit (ConsoleError "Error terminating monitored item:" err)
           (emit (TerminateMonitoredItem (mi_handle item)) m)
     end).
Proof.
  unfold terminate_item, try_catch, bind, perform, modify, call.
  by destruct (terminate e (mi_handle item)).
Qed.

(** The loop over the monitored items always runs to its end and leaves
    the reference to the subscription object alone. *)
Lemma forEach_terminate_item e (l : list MonitoredItem) : forall m,
  completed (forEach (terminate_item e) l m) = Normal tt
  /\ subscription (final_state (forEach (terminate_item e) l m)) = subscription m.
Proof.
  induction l as [|item rest IH]; intros m; [done|].
  cbn [forEach]. unfold bind. rewrite terminate_item_eq.
  destruct (terminate e (mi_handle item));
    match goal with |- context [forEach _ rest ?m'] => destruct (IH m') as [-> ->] end;
    done.
Qed.

Lemma clear_eq e m :
  clear e m
  = let m1 := set_monitoredItems ∅ (final_state (forEach (terminate_item e) (items m) m)) in
    (Normal tt,
     match subscription m with
     | None => m1
     | Some sub =>
         match terminate e sub with
         | Returns =>
             set_subscription None
               (mark_terminated sub (emit (TerminateSubscription sub) m1))
         | Throws err =>
             emit (ConsoleError "Error terminating subscription:" err)
               (emit (TerminateSubscription sub) m1)
         end
     end).
Proof.
  unfold clear. unfold bind at 1, get at 1. unfold bind at 1.
  destruct (forEach_terminate_item e (items m) m) as [Hdone Hsub].
  destruct (forEach (terminate_item e) (items m) m) as [[[]|err] m']; [|discriminate].
  cbn in Hsub. cbv zeta. cbn [final_state snd].
  unfold bind, modify, get, try_catch, perform, call. cbn. rewrite Hsub.
  destruct (subscription m) as [sub|]; [|reflexivity].
  by destruct (terminate e sub).
Qed.

(** [clear] always returns and always empties the map; the reference to
    the subscription object is dropped when [terminate()] returns. *)
Lemma clear_empties e m :
  completed (clear e m) = Normal tt
  /\ monitoredItems (final_state (clear e m)) = ∅
  /\ ((forall sub, subscription m = Some sub -> terminate e sub = Returns) ->
      subscription (final_state (clear e m)) = None).
Proof.
  rewrite clear_eq. cbv zeta. cbn [completed final_state fst snd].
  destruct (forEach_terminate_item e (items m) m) as [_ Hsub].
  destruct (subscription m) as [sub|] eqn:Hm.
  - destruct (terminate e sub) eqn:Hterm; cbn; repeat split; try done.
    intros Hok. specialize (Hok sub eq_refl). congruence.
  - cbn. by rewrite Hsub.
Qed.

(** C4 fails on the code when [terminate()] of the subscription object
    raises: [clear()] returns and the map is empty, but the assignment
    [this.subscription = null] sits behind the call in the same [try] and
    is skipped, so the reference to the subscription object stays. *)
Theorem clear_keeps_subscription_when_terminate_throws
    (e : env) (m : t) (sub : nat) (err : string) :
  subscription m = Some sub -> terminate e sub = Throws err ->
  completed (clear e m) = Normal tt
  /\ monitoredItems (final_state (clear e m)) = ∅
  /\ subscription (final_state (clear e m)) = Some sub.
Proof.
  intros Hsub Hterm. destruct (clear_empties e m) as (Hdone & Hmap & _).
  split; [exact Hdone|]. split; [exact Hmap|].
  rewrite clear_eq. cbv zeta. cbn [final_state snd]. rewrite Hsub, Hterm. cbn.
  destruct (forEach_terminate_item e (items m) m) as [_ Hkept]. by rewrite Hkept.
Qed.

(** C4 at the manager that monitors the level sensor. *)
Lemma clear_keeps_subscription_when_terminate_throws_witness :
  subscription Samples.monitoring_level = Some 0
  /\ monitoredItems (final_state (clear Samples.terminate_fails Samples.monitoring_level)) = ∅
  /\ subscription (final_state (clear Samples.terminate_fails Samples.monitoring_level))
     = Some 0.
Proof.
  assert (subscription Samples.monitoring_level = Some 0) as Hsub
    by (vm_compute; reflexivity).
  split; [exact Hsub|].
  exact (proj2 (clear_keeps_subscription_when_terminate_throws
                  Samples.terminate_fails Samples.monitoring_level 0
                  "BadSubscriptionIdInvalid" Hsub eq_refl)).
Defined.

(** *** setDefaultSettings *)

Lemma setDefaultSettings_eq e client settings m :
  setDefaultSettings e client settings m
  = let m0 := set_defaultSettings settings m in
    (Normal tt,
     match subscription m with
     | None => m0
     | Some sub =>
         match terminate e sub with
         | Returns =>
             final_state
               (initSubscription e client
                  (set_subscription None
                     (mark_terminated sub (emit (TerminateSubscription sub) m0))))
         | Throws err =>
             emit (ConsoleError "Error updating subscription:" err)
               (emit (TerminateSubscription sub) m0)
         end
     end).
Proof.
  unfold setDefaultSettings, bind, modify, get, try_catch, perform, call, fire_and_forget,
    try_catch, ret, throw. cbn.
  destruct (subscription m) as [sub|]; [|reflexivity].
  destruct (terminate e sub); [|reflexivity].
  by destruct (initSubscription e client _) as [[[]|?] ?].
Qed.

Lemma setDefaultSettings_completed e client settings m :
  completed (setDefaultSettings e client settings m) = Normal tt.
Proof. by rewrite setDefaultSettings_eq. Qed.

(** [initSubscription] only appends to the effects. *)
Lemma initSubscription_effects e client m :
  exists es, effects (final_state (initSubscription e client m)) = (effects m ++ es)%list.
Proof.
  unfold initSubscription.
  destruct (negb (OpcUaClient.isConnected client)); [by exists []; rewrite app_nil_r|].
  destruct (OpcUaClient.getSession client); [|by exists []; rewrite app_nil_r].
  destruct e as [[|err] ? ? ?]; cbn; eauto.
Qed.

Lemma setDefaultSettings_frame e client settings m :
  let m1 := final_state (setDefaultSettings e client settings m) in
  monitoredItems m1 = monitoredItems m
  /\ created m1 = created m
  /\ defaultSettings m1 = settings
  /\ (forall sub, subscription m = Some sub ->
        In (TerminateSubscription sub) (effects m1)
        /\ (terminate e sub = Returns -> sub ∈ terminated m1)).
Proof.
  rewrite setDefaultSettings_eq. cbv zeta. cbn [final_state snd].
  destruct (subscription m) as [sub|]; [|done].
  destruct (terminate e sub) eqn:Hterm.
  - match goal with |- context [initSubscription e client ?m'] =>
      destruct (initSubscription_frame e client m') as (-> & -> & -> & ->);
      destruct (initSubscription_effects e client m') as [es ->]
    end.
    unfold created. cbn. rewrite omap_app, app_nil_r. do 3 (split; [done|]).
    intros ? [= <-]. split; [|intros _; apply list_elem_of_here].
    rewrite !in_app_iff. cbn. tauto.
  - unfold created. cbn. rewrite !omap_app, !app_nil_r. do 3 (split; [done|]).
    intros ? [= <-]. split; [|congruence]. rewrite !in_app_iff. cbn. tauto.
Qed.



(** The same run, evaluated: one item was created, in the subscription
    object that is now terminated, and the second [subscribe] returns. *)
Example setDefaultSettings_then_subscribe :
  let m1 := final_state (setDefaultSettings Samples.friendly Samples.live_client
                           Samples.faster Samples.monitoring_level) in
  let r := subscribe Samples.friendly Samples.live_client Samples.level m1 in
  subscription m1 = Some 2
  /\ completed r = Normal tt
  /\ List.map mi_subscription (created (final_state r)) = [0]
  /\ live_for (final_state r) Samples.level = [].
Proof. cbv zeta. repeat split; vm_compute; reflexivity. Qed.

End Manager.

(** ** The "changed" listener *)

Section Changed.
Import ChangedListener.
Import PrismaStorage (Tag, tag_id, tag_nodeId).

Lemma StatusCode_same_eq (a b : OpcUaClient.StatusCode) :
  OpcUaClient.StatusCode_same a b = true <-> a = b.
Proof.
  unfold OpcUaClient.StatusCode_same. destruct a as [va na], b as [vb nb]. cbn.
  rewrite andb_true_iff, Z.eqb_eq, String.eqb_eq. split.
  - intros [-> ->]. reflexivity.
  - intros [= -> ->]. done.
Qed.

(** [findFirst] finds a tag as soon as one has the node identifier. *)
Lemma findFirst_tag node (tags : list Tag) :
  (exists tag, In tag tags /\ tag_nodeId tag = node) ->
  exists tag, List.find (fun tag => String.eqb (tag_nodeId tag) node) tags = Some tag
              /\ In tag tags /\ tag_nodeId tag = node.
Proof.
  intros (tag & Hin & Hnode).
  destruct (List.find (fun tag => String.eqb (tag_nodeId tag) node) tags) as [found|] eqn:Hfind.
  - exists found. apply find_some in Hfind as [Hin' Heq]. apply String.eqb_eq in Heq. done.
  - apply (find_none _ _ Hfind) in Hin. apply String.eqb_neq in Hin. done.
Qed.

(** C1.  For a notification whose status code is not [Good] the listener
    stores no reading and forwards no value change.  For a notification with
    status code [Good], when a tag has the node identifier of the monitored
    item and the two calls of the Prisma client return, the listener appends
    exactly one reading: for such a tag, with the sample value when it is a
    number and null otherwise, with the name of the status code as quality,
    and with the source timestamp, or the arrival time when there is none. *)
Theorem changed_persists_good_reading
    (e : prisma_env) (node : string) (now : Z) (dataValue : DataValue) (w : t) :
  let w' := final_state (changed e node now dataValue w) in
  (statusCode dataValue <> OpcUaClient.Good ->
     readings w' = readings w /\ forwarded w' = forwarded w)
  /\ (statusCode dataValue = OpcUaClient.Good ->
      tag_findFirst e = Returns -> reading_create e = Returns ->
      (exists tag, In tag (tags w) /\ tag_nodeId tag = node) ->
      exists tag,
        In tag (tags w) /\ tag_nodeId tag = node
        /\ readings w'
           = (readings w ++
               [{| tagId := tag_id tag;
                   value := match dv_value dataValue with
                            | JsNumber x => Some x
                            | _ => None
                            end;
                   quality := OpcUaClient.sc_name (statusCode dataValue);
                   timestamp := match sourceTimestamp dataValue with
                                | Some source => source
                                | None => now
                                end |}])%list).
Proof.
  cbv zeta. unfold changed. split.
  - intros Hbad.
    destruct (OpcUaClient.StatusCode_same (statusCode dataValue) OpcUaClient.Good) eqn:Hsame.
    + apply StatusCode_same_eq in Hsame. contradiction.
    + cbn. done.
  - intros Hgood Hfind Hcreate Htag.
    apply (proj2 (StatusCode_same_eq _ _)) in Hgood. rewrite Hgood. cbn [negb].
    destruct (findFirst_tag node (tags w) Htag) as (tag & Hfound & Hin & Hnode).
    exists tag. split; [exact Hin|]. split; [exact Hnode|].
    unfold try_catch, bind, call, get, ret, modify. rewrite Hfind, Hcreate. cbn.
    rewrite Hfound. cbn. destruct (dv_value dataValue), (sourceTimestamp dataValue); reflexivity.
Qed.

(** C1 for a good sample of the level sensor without source timestamp. *)
Lemma changed_persists_good_reading_witness :
  readings (final_state (changed Samples.prisma_up Samples.level 1700000000000
                           Samples.good_sample Samples.database))
  = [{| tagId := 7; value := Some 1.5%float; quality := "Good";
        timestamp := 1700000000000 |}].
Proof.
  pose proof (changed_persists_good_reading Samples.prisma_up Samples.level
                1700000000000 Samples.good_sample Samples.database) as Hspec.
  cbv zeta in Hspec. destruct Hspec as [_ Hgood].
  destruct (Hgood eq_refl eq_refl eq_refl) as (tag & Hin & Hnode & Hreadings).
  { exists Samples.level_tag. split; [right; left; reflexivity | reflexivity]. }
  rewrite Hreadings. cbn in Hin.
  destruct Hin as [<- | [<- | []]]; [discriminate Hnode | reflexivity].
Defined.

(** Whatever happens, at most one reading is added, and only with the name
    of the status code [Good]. *)
Lemma changed_readings_good e node now dataValue w :
  let w' := final_state (changed e node now dataValue w) in
  readings w' = readings w
  \/ exists r, readings w' = (readings w ++ [r])%list /\ quality r = "Good".
Proof.
  cbv zeta. unfold changed.
  destruct (OpcUaClient.StatusCode_same (statusCode dataValue) OpcUaClient.Good) eqn:Hsame;
    [|by left].
  apply StatusCode_same_eq in Hsame.
  unfold try_catch, bind, call, get, ret, modify, throw. cbn.
  destruct (tag_findFirst e); [|by left]. cbn.
  destruct (List.find _ (tags w)) as [tag|]; [|by left].
  destruct (reading_create e); [|by left]. cbn.
  right. eexists. split; [reflexivity|]. cbn. by rewrite Hsame.
Qed.

(** When the Prisma client raises, the error is written to the console and
    nothing is stored or forwarded. *)
Lemma changed_persistence_failure e node now dataValue w err :
  statusCode dataValue = OpcUaClient.Good ->
  tag_findFirst e = Throws err
  \/ (tag_findFirst e = Returns /\ reading_create e = Throws err
      /\ exists tag, In tag (tags w) /\ tag_nodeId tag = node) ->
  let r := changed e node now dataValue w in
  completed r = Normal tt
  /\ readings (final_state r) = readings w
  /\ forwarded (final_state r) = forwarded w
  /\ console (final_state r)
     = (console w ++ [ConsoleError ("Error saving reading for " ++ node) err])%list.
Proof.
  intros Hgood Hfail. cbv zeta. unfold changed.
  apply (proj2 (StatusCode_same_eq _ _)) in Hgood. rewrite Hgood. cbn [negb].
  unfold try_catch, bind, call, get, ret, modify, throw.
  destruct Hfail as [Hfind | (Hfind & Hcreate & Htag)]; rewrite Hfind; cbn; [done|].
  destruct (findFirst_tag node (tags w) Htag) as (tag & Hfound & _).
  rewrite Hfound, Hcreate. cbn. done.
Qed.

End Changed.

(** ** The routes: batched broadcast *)

Section Batching.
Import Routes.
Abbreviation ValueChange := ChangedListener.ValueChange.

(** While the timer is set, a value change is only appended. *)
Lemma handleValueChange_armed (change : ValueChange) (w : t) timer :
  batchTimeout w = Some timer ->
  handleValueChange change w
  = set_valueChangeBatch (valueChangeBatch w ++ [change]) w.
Proof. intros Harmed. unfold handleValueChange. cbn. by rewrite Harmed. Qed.

Lemma run_cons (w : t) ev evs : run w (ev :: evs) = run (step w ev) evs.
Proof. reflexivity. Qed.

Lemma run_app (w : t) evs evs' : run w (evs ++ evs') = run (run w evs) evs'.
Proof. apply fold_left_app. Qed.

Lemma accumulate (changes : list ValueChange) : forall (w : t) timer,
  batchTimeout w = Some timer ->
  run w (List.map ValueChanged changes)
  = set_valueChangeBatch (valueChangeBatch w ++ changes) w.
Proof.
  induction changes as [|change rest IH]; intros w timer Harmed.
  - cbn. rewrite app_nil_r. by destruct w.
  - cbn [List.map]. rewrite run_cons. cbn [step].
    rewrite (handleValueChange_armed _ _ timer Harmed).
    rewrite (IH _ timer) by exact Harmed. cbn.
    rewrite <- app_assoc. reflexivity.
Qed.

(** The first value change of a window sets the timer. *)
Lemma handleValueChange_first (change : ValueChange) (w : t) :
  quiescent w ->
  let w1 := handleValueChange change w in
  valueChangeBatch w1 = [change]
  /\ batchTimeout w1 = Some (next_timer w)
  /\ pending_timers w1 = [next_timer w]
  /\ effects w1 = (effects w ++ [SetTimeout (next_timer w) 50])%list
  /\ clients w1 = clients w.
Proof.
  intros (Hbatch & Htimeout & Hpending). unfold handleValueChange. cbn.
  rewrite Htimeout, Hbatch, Hpending. cbn. done.
Qed.

Lemma batches_sent_to_deliveries client changes (cs : list (nat * readyState)) :
  NoDup (List.map fst cs) -> In (client, OPEN) cs ->
  batches_sent_to client (deliveries (value_changes_batch changes) cs) = [changes].
Proof.
  unfold batches_sent_to, deliveries.
  induction cs as [|[c s] cs IH]; intros Hnodup Hin; [destruct Hin|].
  inversion Hnodup as [|? ? Hfresh Hrest]; subst.
  destruct Hin as [[= -> ->] | Hin].
  - cbn. rewrite Nat.eqb_refl. f_equal.
    (* no later client has the same identity *)
    clear IH Hnodup Hrest. induction cs as [|[c' s'] cs IH]; [done|].
    cbn in *. rewrite not_elem_of_cons in Hfresh. destruct Hfresh as [Hne Hfresh].
    destruct (is_open s'); cbn; [|by apply IH].
    destruct (Nat.eqb_spec c' client); [congruence | by apply IH].
  - assert (c <> client) as Hne.
    { intros ->. apply Hfresh. apply list_elem_of_In.
      change client with (fst (client, OPEN)). by apply in_map. }
    cbn. destruct (is_open s); cbn; [|by apply IH].
    destruct (Nat.eqb_spec c client); [congruence | by apply IH].
Qed.

(** C7.  Start with an empty batch and no timer.  While the value changes
    of one window arrive, one timer of 50 ms is set, by the first of them,
    and nothing is sent.  When that timer fires, one message
    [value_changes_batch] goes to every open client, it carries all the
    value changes of the window in the order of their arrival, and the batch
    is empty and the timer cleared afterwards. *)
Theorem one_batch_per_window (w : t) (changes : list ValueChange) :
  quiescent w -> changes <> [] ->
  let during := run w (List.map ValueChanged changes) in
  let after := run w (List.map ValueChanged changes ++ [TimerFired]) in
  effects during = (effects w ++ [SetTimeout (next_timer w) 50])%list
  /\ valueChangeBatch during = changes
  /\ effects after
     = (effects during ++ deliveries (value_changes_batch changes) (clients w))%list
  /\ quiescent after
  /\ forall client,
       NoDup (List.map fst (clients w)) -> In (client, OPEN) (clients w) ->
       batches_sent_to client (deliveries (value_changes_batch changes) (clients w))
       = [changes].
Proof.
  intros Hquiet Hsome. destruct changes as [|change rest]; [done|]. clear Hsome.
  cbv zeta. rewrite run_app. cbn [List.map]. rewrite run_cons. cbn [step].
  destruct (handleValueChange_first change w Hquiet)
    as (Hbatch & Htimeout & Hpending & Heffects & Hclients).
  rewrite (accumulate rest _ _ Htimeout).
  set (w1 := handleValueChange change w) in *.
  cbn. rewrite Hbatch, Hpending, Heffects. cbn. rewrite Heffects, Hclients.
  split; [reflexivity|]. split; [reflexivity|]. split; [reflexivity|].
  split; [by repeat split|].
  intros client. apply batches_sent_to_deliveries.
Qed.

(** C7 for two samples of the level sensor and two open browsers. *)
Lemma one_batch_per_window_witness :
  effects (run Samples.idle_routes
             [ValueChanged (Samples.level_at 1.5 10); ValueChanged (Samples.level_at 1.75 20);
              TimerFired])
  = [SetTimeout 0 50;
     Send 0 (value_changes_batch [Samples.level_at 1.5 10; Samples.level_at 1.75 20]);
     Send 2 (value_changes_batch [Samples.level_at 1.5 10; Samples.level_at 1.75 20])].
Proof.
  pose proof (one_batch_per_window Samples.idle_routes
                [Samples.level_at 1.5 10; Samples.level_at 1.75 20]) as Hspec.
  cbv zeta in Hspec.
  destruct Hspec as (Hduring & _ & Hafter & _); [by repeat split | discriminate |].
  cbn [List.map app] in Hduring, Hafter. rewrite Hafter, Hduring. reflexivity.
Defined.

End Batching.

(** ** The routes: reconnection *)

Section Reconnection.
Import SubscriptionManager.
Import PrismaStorage (Tag, tag_nodeId, tag_isSubscribed).
Import Routes (attempt, resubscribe, subscribedTags, connect_subscriptions).

(** The two events of a reconnection change the flag of the client object
    and push status messages; they reach nothing else. *)
Lemma connection_lost_frame (w : Routes.t) :
  Routes.subscriptionManager (Routes.connection_lost w) = Routes.subscriptionManager w
  /\ Routes.valueChangeBatch (Routes.connection_lost w) = Routes.valueChangeBatch w
  /\ exists status,
       Routes.effects (Routes.connection_lost w) = (Routes.effects w ++ status)%list
       /\ Forall (fun ef => exists c, ef = Routes.Send c (Routes.connection_status false None true false))
            status.
Proof.
  unfold Routes.connection_lost.
  destruct (Routes.opcUaClient w) as [c|]; [|by repeat split; exists []; rewrite app_nil_r].
  case_bool_decide.
  - cbn. repeat split. eexists. split; [reflexivity|].
    unfold Routes.deliveries. apply Forall_forall. intros ef Hin.
    apply list_elem_of_In, in_map_iff in Hin as ([c' s] & <- & _). by exists c'.
  - cbn. repeat split. exists []. by rewrite app_nil_r.
Qed.

Lemma after_reconnection_frame (w : Routes.t) :
  Routes.subscriptionManager (Routes.after_reconnection w) = Routes.subscriptionManager w
  /\ Routes.valueChangeBatch (Routes.after_reconnection w) = Routes.valueChangeBatch w
  /\ exists status endpoint,
       Routes.effects (Routes.after_reconnection w) = (Routes.effects w ++ status)%list
       /\ Forall (fun ef => exists c,
                    ef = Routes.Send c (Routes.connection_status true endpoint false true))
            status.
Proof.
  unfold Routes.after_reconnection.
  destruct (Routes.opcUaClient w) as [c|];
    [|by repeat split; exists [], None; rewrite app_nil_r].
  case_bool_decide.
  - cbn. repeat split. eexists _, _. split; [reflexivity|].
    unfold Routes.deliveries. apply Forall_forall. intros ef Hin.
    apply list_elem_of_In, in_map_iff in Hin as ([c' s] & <- & _). by exists c'.
  - cbn. repeat split. exists [], None. by rewrite app_nil_r.
Qed.

(** *** The loop of the connect route *)

Lemma subscribe_frame e client node m :
  let m' := final_state (subscribe e client node m) in
  (forall other, other <> node -> monitoredItems m' !! other = monitoredItems m !! other)
  /\ (is_Some (monitoredItems m !! node) -> is_Some (monitoredItems m' !! node)).
Proof.
  cbv zeta. destruct (OpcUaClient.isConnected client) eqn:Hconnected;
    [|by rewrite subscribe_disconnected].
  rewrite subscribe_connected by done.
  destruct (ensure_subscription_frame e client m) as (Hmap & _).
  destruct (ensure_subscription e client m) as [[[]|err] m0];
    cbn [final_state snd] in Hmap; [|by cbn; rewrite Hmap].
  destruct (monitor_frame e client node m0) as (_ & _ & Hother & Hkept).
  rewrite Hmap in Hother, Hkept. done.
Qed.

Lemma subscribe_succeeds e client node m :
  OpcUaClient.isConnected client = true -> cooperative e ->
  completed (subscribe e client node m) = Normal tt
  /\ is_Some (monitoredItems (final_state (subscribe e client node m)) !! node).
Proof.
  intros Hconnected (Hsub & Hnode). destruct (Hnode node) as [Hread Hcreate].
  rewrite subscribe_connected by done.
  assert (completed (ensure_subscription e client m) = Normal tt) as Hensure.
  { destruct (subscription m) eqn:Hm.
    - by rewrite ensure_subscription_present.
    - rewrite ensure_subscription_absent by done. by apply initSubscription_succeeds. }
  pose proof (ensure_subscription_returns e client m Hensure) as [sub Hsub0].
  destruct (ensure_subscription e client m) as [[[]|err] m0]; [|discriminate].
  cbn [final_state snd] in Hsub0.
  pose proof (monitor_succeeds e client node m0 sub Hconnected Hsub0 Hread Hcreate) as Hdone.
  split; [exact Hdone|].
  destruct (monitoredItems m0 !! node) as [item|] eqn:Hitem.
  - rewrite monitor_existing by done. cbn. by rewrite Hitem.
  - destruct (monitor_fresh e client node m0 Hitem Hdone) as (? & _ & _ & -> & _).
    by rewrite lookup_insert_eq.
Qed.

Lemma attempt_eq e client tag m :
  completed (attempt e client tag m) = Normal tt
  /\ monitoredItems (final_state (attempt e client tag m))
     = monitoredItems (final_state (subscribe e client (tag_nodeId tag) m)).
Proof.
  unfold attempt, try_catch.
  by destruct (subscribe e client (tag_nodeId tag) m) as [[[]|err] m'].
Qed.

Lemma loop_entries e client (l : list Tag) : forall m,
  let m' := final_state (forEach (attempt e client) l m) in
  (forall node, is_Some (monitoredItems m' !! node) ->
     is_Some (monitoredItems m !! node) \/ exists tag, In tag l /\ tag_nodeId tag = node)
  /\ (forall node, is_Some (monitoredItems m !! node) -> is_Some (monitoredItems m' !! node))
  /\ (OpcUaClient.isConnected client = true -> cooperative e ->
      forall tag, In tag l -> is_Some (monitoredItems m' !! tag_nodeId tag)).
Proof.
  induction l as [|tag rest IH]; intros m; cbv zeta.
  - cbn. split; [by left|]. split; [done|]. by intros _ _ ? [].
  - cbn [forEach]. unfold bind at 1 2 3.
    destruct (attempt_eq e client tag m) as [Hdone Hmap].
    destruct (attempt e client tag m) as [[[]|err] m1]; [|discriminate].
    cbn [final_state snd] in Hmap.
    destruct (subscribe_frame e client (tag_nodeId tag) m) as [Hother Hkept].
    rewrite <- Hmap in Hother, Hkept.
    destruct (IH m1) as (Hfrom & Hmono & Hall). cbv zeta in Hfrom, Hmono, Hall.
    split; [|split].
    + intros node Hnode. destruct (Hfrom node Hnode) as [Hin1 | (t' & Hin & Heq)].
      * destruct (decide (node = tag_nodeId tag)) as [-> | Hne].
        -- right. exists tag. split; [by left | done].
        -- left. by rewrite <- Hother.
      * right. exists t'. split; [by right | done].
    + intros node Hnode. apply Hmono.
      destruct (decide (node = tag_nodeId tag)) as [-> | Hne]; [by apply Hkept|].
      by rewrite Hother.
    + intros Hconnected Hcoop t' [<- | Hin]; [|by apply Hall].
      apply Hmono. rewrite Hmap.
      by apply subscribe_succeeds.
Qed.

Lemma constructor_empty e client first_object :
  monitoredItems (constructor e client first_object) = ∅.
Proof.
  unfold constructor, fire_and_forget, try_catch.
  destruct (initSubscription_frame e client (fresh first_object)) as (Hmap & _).
  destruct (initSubscription e client (fresh first_object)) as [[[]|err] m]; exact Hmap.
Qed.

(** *** The loop while "terminated" events arrive *)

Lemma on_terminated_frame (m : t) :
  on_terminated m
  = (Normal tt, set_subscription None (emit (ConsoleLog "Subscription terminated") m)).
Proof. reflexivity. Qed.

Lemma arrive_frame arrives (m : t) :
  completed (ConnectRoute.arrive arrives m) = Normal tt
  /\ monitoredItems (final_state (ConnectRoute.arrive arrives m)) = monitoredItems m
  /\ (arrives = true -> subscription (final_state (ConnectRoute.arrive arrives m)) = None).
Proof. by destruct arrives. Qed.

(** [finish], written out. *)
Lemma finish_eq e client node m :
  Subscribing.finish e client node m
  = let failed err :=
      (Thrown err, emit (ConsoleError ("Error subscribing to " ++ node) err) m) in
    match OpcUaClient.readNodeAttributes (read_attributes e) client node with
    | Thrown err => failed err
    | Normal _ =>
        match subscription m with
        | None => failed "Failed to create subscription"
        | Some sub =>
            match create_monitored_item e node with
            | Throws err => failed err
            | Returns =>
                (Normal tt,
                 emit (ConsoleLog ("Subscribed to " ++ node))
                   (set_monitoredItems
                      (<[node := new_item m sub node]> (monitoredItems m))
                      (new_object (emit (CreateMonitoredItem (new_item m sub node)) m))))
            end
        end
    end.
Proof.
  unfold Subscribing.finish, try_catch, bind, get, lift, call, perform, modify, throw, ret.
  destruct (OpcUaClient.readNodeAttributes _ client node) as [[]|err]; [|reflexivity].
  destruct (subscription m) as [sub|]; [|reflexivity].
  destruct (create_monitored_item e node); reflexivity.
Qed.

(** Behind its guard, [subscribe] is [finish]. *)
Lemma monitor_finish e client node m :
  monitor e client node m
  = if isSome (monitoredItems m !! node) then (Normal tt, m)
    else Subscribing.finish e client node m.
Proof.
  destruct (monitoredItems m !! node) as [item|] eqn:Hitem.
  - by rewrite monitor_existing.
  - rewrite (monitor_fresh_eq e client node m Hitem), finish_eq. reflexivity.
Qed.

Lemma finish_frame e client node m :
  let m' := final_state (Subscribing.finish e client node m) in
  (forall other, other <> node -> monitoredItems m' !! other = monitoredItems m !! other)
  /\ (is_Some (monitoredItems m !! node) -> is_Some (monitoredItems m' !! node))
  /\ (subscription m = None -> monitoredItems m' = monitoredItems m).
Proof.
  cbv zeta. rewrite finish_eq. cbv zeta.
  destruct (OpcUaClient.readNodeAttributes _ client node) as [[]|err]; [|done].
  destruct (subscription m) as [sub|]; [|done].
  destruct (create_monitored_item e node); [|done].
  cbn. split; [|split]; [|by rewrite lookup_insert_eq|done].
  intros other Hne. by rewrite lookup_insert_ne.
Qed.

Lemma finish_accepts e client node m :
  OpcUaClient.isConnected client = true -> is_Some (subscription m) ->
  read_attributes e node = Returns -> create_monitored_item e node = Returns ->
  completed (Subscribing.finish e client node m) = Normal tt
  /\ is_Some (monitoredItems (final_state (Subscribing.finish e client node m)) !! node).
Proof.
  intros Hconnected [sub Hsub] Hread Hcreate. rewrite finish_eq. cbv zeta.
  unfold OpcUaClient.readNodeAttributes.
  rewrite Hconnected. apply andb_true_iff in Hconnected as [_ ->]. cbn [negb orb].
  rewrite Hread, Hsub, Hcreate. cbn. by rewrite lookup_insert_eq.
Qed.

(** Without an event, the steps are those of [subscribe]. *)
Lemma ensure_subscription_during_quiet e client m :
  Subscribing.ensure_subscription_during (ret tt) e client m = ensure_subscription e client m.
Proof.
  unfold Subscribing.ensure_subscription_during, ensure_subscription, bind, get.
  destruct (negb (isSome (subscription m))); [|reflexivity].
  by destruct (initSubscription e client m) as [[[]|?] ?].
Qed.

Lemma monitor_during_quiet e client node m :
  Subscribing.monitor_during (ret tt) e client node m = monitor e client node m.
Proof.
  reflexivity.
Qed.

Lemma subscribe_during_quiet e client node m :
  Subscribing.subscribe_during (ret tt) (ret tt) e client node m = subscribe e client node m.
Proof.
  unfold Subscribing.subscribe_during, subscribe.
  destruct (negb (OpcUaClient.isConnected client)); [reflexivity|].
  unfold bind at 1. rewrite ensure_subscription_during_quiet. unfold bind.
  destruct (ensure_subscription e client m) as [[[]|?] m0]; [|reflexivity].
  apply monitor_during_quiet.
Qed.

Lemma ensure_subscription_during_frame arrives e client m :
  let r := Subscribing.ensure_subscription_during (ConnectRoute.arrive arrives) e client m in
  monitoredItems (final_state r) = monitoredItems m
  /\ (arrives = false -> r = ensure_subscription e client m).
Proof.
  cbv zeta. split; [|intros ->; apply ensure_subscription_during_quiet].
  unfold Subscribing.ensure_subscription_during, bind, get.
  destruct (negb (isSome (subscription m))); [|done].
  destruct (initSubscription_frame e client m) as (Hmap & _).
  destruct (initSubscription e client m) as [[[]|?] m0]; cbn [final_state snd] in *; [|done].
  destruct (arrive_frame arrives m0) as (_ & -> & _). done.
Qed.

(** When the event arrives while [subscribe] waits for the attributes, the
    map stays as it is: the subscription object is gone when the wait is
    over. *)
Lemma monitor_during_frame arrives e client node m :
  let m' := final_state
              (Subscribing.monitor_during (ConnectRoute.arrive arrives) e client node m) in
  (forall other, other <> node -> monitoredItems m' !! other = monitoredItems m !! other)
  /\ (is_Some (monitoredItems m !! node) -> is_Some (monitoredItems m' !! node))
  /\ (arrives = true -> monitoredItems m' = monitoredItems m).
Proof.
  cbv zeta. unfold Subscribing.monitor_during, bind, get.
  destruct (isSome (monitoredItems m !! node)) eqn:Hhas; [done|].
  destruct (arrive_frame arrives m) as (Hdone & Hmap & Hgone).
  destruct (ConnectRoute.arrive arrives m) as [[[]|?] m0]; [|discriminate].
  cbn [final_state snd] in Hmap, Hgone. rewrite <- Hmap.
  destruct (finish_frame e client node m0) as (Hother & Hkept & Hnone).
  split; [exact Hother|]. split; [exact Hkept|]. intros Harrives. by apply Hnone, Hgone.
Qed.

Lemma subscribe_during_frame a e client node m :
  let m' := final_state
              (Subscribing.subscribe_during
                 (ConnectRoute.arrive (ConnectRoute.for_subscription a))
                 (ConnectRoute.arrive (ConnectRoute.for_attributes a)) e client node m) in
  (forall other, other <> node -> monitoredItems m' !! other = monitoredItems m !! other)
  /\ (is_Some (monitoredItems m !! node) -> is_Some (monitoredItems m' !! node))
  /\ (ConnectRoute.for_attributes a = true -> monitoredItems m' = monitoredItems m).
Proof.
  cbv zeta. unfold Subscribing.subscribe_during.
  destruct (negb (OpcUaClient.isConnected client)); [done|].
  unfold bind.
  destruct (ensure_subscription_during_frame (ConnectRoute.for_subscription a) e client m)
    as (Hmap & _).
  destruct (Subscribing.ensure_subscription_during _ e client m) as [[[]|?] m0];
    cbn [final_state snd] in Hmap; [|cbn [final_state snd]; by rewrite Hmap].
  rewrite <- Hmap. apply monitor_during_frame.
Qed.

(** A call of [subscribe] for a node whose own requests the stack accepts
    returns with an entry for the node. *)
Lemma subscribe_accepts e client node m :
  OpcUaClient.isConnected client = true -> create_subscription e = Returns ->
  read_attributes e node = Returns -> create_monitored_item e node = Returns ->
  completed (subscribe e client node m) = Normal tt
  /\ is_Some (monitoredItems (final_state (subscribe e client node m)) !! node).
Proof.
  intros Hconnected Hsub Hread Hcreate.
  rewrite subscribe_connected by done.
  assert (completed (ensure_subscription e client m) = Normal tt) as Hensure.
  { destruct (subscription m) eqn:Hm.
    - by rewrite ensure_subscription_present.
    - rewrite ensure_subscription_absent by done. by apply initSubscription_succeeds. }
  pose proof (ensure_subscription_returns e client m Hensure) as Hsub0.
  destruct (ensure_subscription e client m) as [[[]|err] m0]; [|discriminate].
  cbn [final_state snd] in Hsub0. rewrite monitor_finish.
  destruct (monitoredItems m0 !! node) as [item|] eqn:Hitem; cbn [isSome].
  - cbn. by rewrite Hitem.
  - by apply finish_accepts.
Qed.

(** One turn of the loop never throws; it touches the entry of its own tag
    only, and never removes it. *)
Lemma attempt_while a e client tag m :
  let r := ConnectRoute.attempt a e client tag m in
  completed r = Normal tt
  /\ (forall other, other <> tag_nodeId tag ->
        monitoredItems (final_state r) !! other = monitoredItems m !! other)
  /\ (is_Some (monitoredItems m !! tag_nodeId tag) ->
        is_Some (monitoredItems (final_state r) !! tag_nodeId tag))
  /\ (ConnectRoute.for_attributes a = true ->
        monitoredItems (final_state r) = monitoredItems m)
  /\ (ConnectRoute.undisturbed a ->
      OpcUaClient.isConnected client = true -> create_subscription e = Returns ->
      read_attributes e (tag_nodeId tag) = Returns ->
      create_monitored_item e (tag_nodeId tag) = Returns ->
        is_Some (monitoredItems (final_state r) !! tag_nodeId tag)).
Proof.
  cbv zeta. unfold ConnectRoute.attempt, bind.
  destruct (arrive_frame (ConnectRoute.before a) m) as (Hdone & Hmap & _).
  destruct (ConnectRoute.arrive (ConnectRoute.before a) m) as [[[]|?] m0]; [|discriminate].
  cbn [final_state snd] in Hmap. rewrite <- Hmap.
  destruct (subscribe_during_frame a e client (tag_nodeId tag) m0)
    as (Hother & Hkept & Hevent).
  assert (ConnectRoute.undisturbed a ->
          OpcUaClient.isConnected client = true -> create_subscription e = Returns ->
          read_attributes e (tag_nodeId tag) = Returns ->
          create_monitored_item e (tag_nodeId tag) = Returns ->
          is_Some (monitoredItems
                     (final_state
                        (Subscribing.subscribe_during
                           (ConnectRoute.arrive (ConnectRoute.for_subscription a))
                           (ConnectRoute.arrive (ConnectRoute.for_attributes a))
                           e client (tag_nodeId tag) m0)) !! tag_nodeId tag))
    as Haccepted.
  { intros [-> ->] Hconnected Hsub Hread Hcreate. cbn [ConnectRoute.arrive].
    rewrite subscribe_during_quiet. by apply subscribe_accepts. }
  unfold try_catch.
  destruct (Subscribing.subscribe_during _ _ e client (tag_nodeId tag) m0)
    as [[[]|err] m1]; cbn [completed final_state fst snd] in *; done.
Qed.

Lemma loop_while e client (when : Tag -> ConnectRoute.arrivals) (l : list Tag) : forall m,
  let r := forEach (fun tag => ConnectRoute.attempt (when tag) e client tag) l m in
  completed r = Normal tt
  /\ (forall node, is_Some (monitoredItems (final_state r) !! node) ->
        is_Some (monitoredItems m !! node) \/ exists tag, In tag l /\ tag_nodeId tag = node)
  /\ (forall node, is_Some (monitoredItems m !! node) ->
        is_Some (monitoredItems (final_state r) !! node))
  /\ (forall tag, In tag l -> ConnectRoute.undisturbed (when tag) ->
        OpcUaClient.isConnected client = true -> create_subscription e = Returns ->
        read_attributes e (tag_nodeId tag) = Returns ->
        create_monitored_item e (tag_nodeId tag) = Returns ->
        is_Some (monitoredItems (final_state r) !! tag_nodeId tag)).
Proof.
  induction l as [|tag rest IH]; intros m; cbv zeta.
  - cbn. split; [done|]. split; [by left|]. split; [done|]. by intros ? [].
  - cbn [forEach]. unfold bind at 1 2 3 4.
    destruct (attempt_while (when tag) e client tag m)
      as (Hdone & Hother & Hkept & _ & Haccepted).
    destruct (ConnectRoute.attempt (when tag) e client tag m) as [[[]|err] m1];
      [|discriminate].
    cbn [final_state snd] in Hother, Hkept, Haccepted.
    destruct (IH m1) as (Hloop & Hfrom & Hmono & Hall). cbv zeta in Hloop, Hfrom, Hmono, Hall.
    split; [exact Hloop|]. split; [|split].
    + intros node Hnode. destruct (Hfrom node Hnode) as [Hin1 | (t' & Hin & Heq)].
      * destruct (decide (node = tag_nodeId tag)) as [-> | Hne].
        -- right. exists tag. split; [by left | done].
        -- left. by rewrite <- Hother.
      * right. exists t'. split; [by right | done].
    + intros node Hnode. apply Hmono.
      destruct (decide (node = tag_nodeId tag)) as [-> | Hne]; [by apply Hkept|].
      by rewrite Hother.
    + intros t' [<- | Hin] Hquiet Hconnected Hsub Hread Hcreate; [|by apply Hall].
      apply Hmono. by apply Haccepted.
Qed.

(** Without events the route leaves the manager of [connect_subscriptions]. *)
Lemma subscriptions_quiet e client settings (tags : list Tag) first_object :
  final_state (ConnectRoute.subscriptions e client (fun _ => ConnectRoute.none) settings tags
                 first_object)
  = connect_subscriptions e client settings tags first_object.
Proof.
  unfold ConnectRoute.subscriptions, connect_subscriptions, resubscribe, bind.
  destruct ((match settings with Some s => _ | None => ret tt end)
              (constructor e client first_object)) as [[[]|?] m1]; [|reflexivity].
  generalize (subscribedTags tags). intros l. revert m1.
  induction l as [|tag rest IH]; intros m1; [reflexivity|].
  cbn [forEach]. unfold bind.
  assert (ConnectRoute.attempt ConnectRoute.none e client tag m1 = attempt e client tag m1)
    as ->.
  { unfold ConnectRoute.attempt, attempt, bind, try_catch. cbn.
    by rewrite subscribe_during_quiet. }
  destruct (attempt e client tag m1) as [[[]|?] m2]; [apply IH | reflexivity].
Qed.

(** C2, as the code has it.  A lost connection followed by a reconnection
    does not reach the subscription manager: the two handlers only send
    status messages to the browsers, and the routes hold the same manager,
    with the same map, as before.  Subscribing the flagged tags is the work
    of the connect route.  Its loop makes one attempt per flagged tag and
    each attempt stands alone: the loop never throws, whatever the stack
    answers and whenever "terminated" events arrive, and a flagged tag whose
    own requests the stack accepts gets its monitored item whatever happened
    to the other tags, provided the client is connected and no "terminated"
    event arrives while its [subscribe] waits (an event that arrives during
    the wait for the attributes of the node leaves the map as it is).  In the end the
    manager has monitored items only for nodes of tags with
    [isSubscribed = true]. *)
Theorem reconnection_keeps_manager_connect_resubscribes
    (w : Routes.t) (e : env) (client : OpcUaClient.t)
    (when : Tag -> ConnectRoute.arrivals)
    (settings : option PrismaStorage.SubscriptionSetting) (tags : list Tag)
    (first_object : nat) :
  (let w' := Routes.after_reconnection (Routes.connection_lost w) in
   Routes.subscriptionManager w' = Routes.subscriptionManager w
   /\ Routes.valueChangeBatch w' = Routes.valueChangeBatch w
   /\ exists status,
        Routes.effects w' = (Routes.effects w ++ status)%list
        /\ Forall ConnectRoute.status_message status)
  /\ let r := ConnectRoute.subscriptions e client when settings tags first_object in
     let m := final_state r in
     completed r = Normal tt
     /\ (forall node, is_Some (monitoredItems m !! node) ->
           exists tag, In tag tags /\ tag_isSubscribed tag = true /\ tag_nodeId tag = node)
     /\ (forall tag, In tag tags -> tag_isSubscribed tag = true ->
           ConnectRoute.undisturbed (when tag) ->
           OpcUaClient.isConnected client = true -> create_subscription e = Returns ->
           read_attributes e (tag_nodeId tag) = Returns ->
           create_monitored_item e (tag_nodeId tag) = Returns ->
           is_Some (monitoredItems m !! tag_nodeId tag))
     /\ (forall a tag m0,
           ConnectRoute.for_attributes a = true ->
           completed (ConnectRoute.attempt a e client tag m0) = Normal tt
           /\ monitoredItems (final_state (ConnectRoute.attempt a e client tag m0))
              = monitoredItems m0).
Proof.
  split.
  - cbv zeta.
    destruct (after_reconnection_frame (Routes.connection_lost w))
      as (-> & -> & restored & endpoint & -> & Hrestored).
    destruct (connection_lost_frame w) as (-> & -> & lost & -> & Hlost).
    do 2 (split; [done|]). exists (lost ++ restored)%list.
    split; [by rewrite app_assoc|]. apply Forall_app. split.
    + eapply Forall_impl; [exact Hlost|]. intros ef [browser ->].
      by exists browser, false, None, true, false.
    + eapply Forall_impl; [exact Hrestored|]. intros ef [browser ->].
      by exists browser, true, endpoint, false, true.
  - cbv zeta. unfold ConnectRoute.subscriptions, bind.
    set (m0 := constructor e client first_object).
    assert (exists m1, (match settings with
                        | Some s => setDefaultSettings e client _
                        | None => ret tt
                        end) m0 = (Normal tt, m1) /\ monitoredItems m1 = ∅)
      as (m1 & -> & Hempty).
    { destruct settings as [s|].
      - match goal with |- context [setDefaultSettings e client ?s' m0] =>
          pose proof (setDefaultSettings_completed e client s' m0) as Hdone;
          destruct (setDefaultSettings_frame e client s' m0) as (Hmap & _);
          destruct (setDefaultSettings e client s' m0) as [c m1]
        end.
        cbn in Hdone, Hmap. subst c. exists m1. split; [done|].
        rewrite Hmap. apply constructor_empty.
      - exists m0. split; [done | apply constructor_empty]. }
    destruct (loop_while e client when (subscribedTags tags) m1)
      as (Hdone & Hfrom & _ & Hall).
    cbv zeta in Hdone, Hfrom, Hall. split; [exact Hdone|]. split; [|split].
    + intros node Hnode. destruct (Hfrom node Hnode) as [Hold | (tag & Hin & Heq)].
      * rewrite Hempty, lookup_empty in Hold. by destruct Hold.
      * apply filter_In in Hin as [Hin Hflag]. by exists tag.
    + intros tag Hin Hflag Hquiet Hconnected Hsub Hread Hcreate. apply Hall; try done.
      apply filter_In. done.
    + intros a tag m2 Hevent.
      destruct (attempt_while a e client tag m2) as (Hturn & _ & _ & Hsame & _).
      split; [exact Hturn | by apply Hsame].
Qed.

(** C2 for the two tags of the sample plant. *)
Lemma reconnection_keeps_manager_connect_resubscribes_witness :
  is_Some (monitoredItems
             (final_state
                (ConnectRoute.subscriptions Samples.friendly Samples.live_client
                   (fun _ => ConnectRoute.none) None
                   [Samples.level_tag; Samples.pump_tag] 0))
           !! Samples.level).
Proof.
  pose proof (reconnection_keeps_manager_connect_resubscribes
                Samples.idle_routes Samples.friendly Samples.live_client
                (fun _ => ConnectRoute.none) None
                [Samples.level_tag; Samples.pump_tag] 0) as Hspec.
  cbv zeta in Hspec. destruct Hspec as (_ & _ & _ & Hall & _).
  apply (Hall Samples.level_tag); try reflexivity; [left; reflexivity | split; reflexivity].
Defined.

(** C2 as stated fails.  The tag of the level sensor is flagged, the server
    did not know its node when the connect route ran, so the manager has no
    monitored item for it.  The connection is lost and restored: the
    handlers push two status messages and nothing else, the manager is the
    same, the flagged tag still has no monitored item. *)
Lemma reconnection_does_not_resubscribe :
  let w := Routes.after_reconnection (Routes.connection_lost Samples.connected_without_level) in
  tag_isSubscribed Samples.level_tag = true
  /\ Routes.subscriptionManager w
     = Routes.subscriptionManager Samples.connected_without_level
  /\ (exists m, Routes.subscriptionManager w = Some m
                /\ monitoredItems m !! tag_nodeId Samples.level_tag = None
                /\ created m = [])
  /\ Routes.effects w
     = [Routes.Send 0 (Routes.connection_status false None true false);
        Routes.Send 0 (Routes.connection_status true (Some "opc.tcp://plc:4840") false true)].
Proof.
  cbv zeta. split; [reflexivity|]. split; [reflexivity|]. split.
  - eexists. split; [reflexivity|]. split; vm_compute; reflexivity.
  - vm_compute. reflexivity.
Qed.

End Reconnection.

(** ** PrismaStorage: subscription settings *)

Section DefaultSettings.
Import PrismaStorage.

Lemma updateMany_clears (db : table) : defaults (updateMany_clear_default db) = [].
Proof.
  unfold defaults, updateMany_clear_default. cbn.
  induction (rows db) as [|r rest IH]; [reflexivity|].
  cbn. destruct (isDefault r) eqn:Hr; cbn; rewrite ?Hr; exact IH.
Qed.

Lemma updateMany_keeps_rows (db : table) :
  List.map id (rows (updateMany_clear_default db)) = List.map id (rows db).
Proof.
  unfold updateMany_clear_default. cbn. rewrite List.map_map.
  apply List.map_ext. intros r. by destruct (isDefault r).
Qed.

(** [create] appends the new row; it is a default row when its flag is set. *)
Lemma create_defaults (data : InsertSubscriptionSettings) (db : table) :
  let row := fst (create data db) in
  rows (snd (create data db)) = (rows db ++ [row])%list
  /\ isDefault row = default false (ins_isDefault data)
  /\ defaults (snd (create data db))
     = (defaults db ++ if isDefault row then [row] else [])%list.
Proof.
  cbv zeta. unfold create, defaults. cbn [fst snd rows isDefault].
  rewrite List.filter_app. cbn [List.filter isDefault]. done.
Qed.

(** [createSubscriptionSettings] never takes the table from at most one
    default row to more than one. *)
Corollary createSubscriptionSettings_at_most_one settings db :
  length (defaults db) <= 1 ->
  length (defaults (snd (createSubscriptionSettings settings db))) <= 1.
Proof.
  intros Hone. unfold createSubscriptionSettings.
  destruct (default false (ins_isDefault settings)) eqn:Hflag.
  - destruct (create_defaults settings (updateMany_clear_default db)) as (_ & _ & ->).
    rewrite updateMany_clears. cbn [app]. destruct (isDefault _); cbn; lia.
  - destruct (create_defaults settings db) as (_ & -> & ->).
    rewrite Hflag, app_nil_r. exact Hone.
Qed.

(** C9, as the code has it.  [createSubscriptionSettings] appends one row.
    Called with [isDefault] true it first clears the flag of every row, so
    that the new row is the only default row afterwards; called without it,
    it leaves the default rows as they were and the new row is not one of
    them. *)
Theorem createSubscriptionSettings_single_default
    (settings : InsertSubscriptionSettings) (db : table) :
  let created := createSubscriptionSettings settings db in
  let row := fst created in
  let db' := snd created in
  List.map id (rows db') = (List.map id (rows db) ++ [id row])%list
  /\ (ins_isDefault settings = Some true ->
        isDefault row = true /\ defaults db' = [row])
  /\ (ins_isDefault settings <> Some true ->
        isDefault row = false /\ defaults db' = defaults db).
Proof.
  cbv zeta. unfold createSubscriptionSettings.
  destruct (ins_isDefault settings) as [[|]|] eqn:Hflag; cbn [default from_option];
    cbv beta iota delta [Datatypes.id];
    match goal with |- context [create settings ?table] =>
      destruct (create_defaults settings table) as (Hrows & Hrow & Hdefaults)
    end;
    rewrite Hrows, Hdefaults, Hrow, Hflag, List.map_app; cbn [default from_option List.map];
    cbv beta iota delta [Datatypes.id].
  - (* the flag is set: every other row has lost it *)
    rewrite updateMany_keeps_rows, updateMany_clears. repeat split; done.
  - rewrite app_nil_r. repeat split; done.
  - rewrite app_nil_r. repeat split; done.
Qed.

(** C9 for a second default row. *)
Lemma createSubscriptionSettings_single_default_witness :
  defaults (snd (createSubscriptionSettings Samples.default_settings
                   (snd (createSubscriptionSettings Samples.default_settings empty))))
  = [{| id := 2; publishingInterval := 2000; samplingInterval := 250;
        queueSize := 5; isDefault := true |}].
Proof.
  destruct (createSubscriptionSettings_single_default Samples.default_settings
              (snd (createSubscriptionSettings Samples.default_settings empty)))
    as (_ & Hyes & _).
  destruct (Hyes eq_refl) as [_ Hdefaults]. exact Hdefaults.
Defined.

(** C9 as stated fails: a first row created without the flag is a row of
    the table, and no row is flagged default. *)
Lemma row_without_default :
  let db := snd (createSubscriptionSettings Samples.plain_settings empty) in
  length (rows db) = 1 /\ defaults db = [] /\ getDefaultSubscriptionSettings db = None.
Proof. cbv zeta. repeat split. Qed.

(** [updateSubscriptionSettings] writes the flag of the row it is given and
    looks at no other row: two rows can end up flagged. *)
Example update_second_default :
  let db1 := snd (createSubscriptionSettings Samples.default_settings empty) in
  let db2 := snd (createSubscriptionSettings Samples.plain_settings db1) in
  let db3 := snd (updateSubscriptionSettings 2 Samples.make_default db2) in
  List.map id (defaults db2) = [1%Z] /\ List.map id (defaults db3) = [1%Z; 2%Z].
Proof. cbv zeta. split; reflexivity. Qed.

End DefaultSettings.

(** ** OpcUaProvider: the registry of response handlers *)

Section Correlation.
Import OpcUaProvider.

Lemma settle_frame q v st :
  responseHandlers (settle q v st) = responseHandlers st
  /\ next_promise (settle q v st) = next_promise st
  /\ forall p, p <> q -> promises (settle q v st) !! p = promises st !! p.
Proof.
  unfold settle. destruct (promises st !! q) as [[| |]|]; try done.
  cbn. repeat split. intros p Hne. by rewrite lookup_insert_ne.
Qed.

(** A promise is settled by the first call only. *)
Lemma settle_once q v v' st :
  promises st !! q = Some Pending ->
  promises (settle q v st) !! q = Some v
  /\ (v <> Pending -> settle q v' (settle q v st) = settle q v st).
Proof.
  intros Hpending. unfold settle at 1 3 4. rewrite Hpending. cbn.
  split; [apply lookup_insert_eq|].
  intros Hsettled. unfold settle. cbn. rewrite lookup_insert_eq. by destruct v.
Qed.

Lemma orphaned_settle p q v st :
  q <> p -> orphaned p st -> orphaned p (settle q v st).
Proof.
  intros Hne (Hpending & Hfree & Hold).
  destruct (settle_frame q v st) as (Hhandlers & Hnext & Hother).
  unfold orphaned, unreferenced. rewrite Hhandlers, Hnext, Hother by done. done.
Qed.

Lemma orphaned_delete p id st :
  orphaned p st -> orphaned p (set_responseHandlers (delete id (responseHandlers st)) st).
Proof.
  intros (Hpending & Hfree & Hold). repeat split; try done.
  intros id' h. cbn. rewrite lookup_delete. case_decide; [done | apply Hfree].
Qed.

Lemma orphaned_expire p now st id h :
  h_promise h <> p -> orphaned p st -> orphaned p (expire now st (id, h)).
Proof.
  intros Hne Horphan. unfold expire. destruct (expired now h); [|done].
  destruct (startsWith id "browse_"); by apply orphaned_delete, orphaned_settle.
Qed.

Lemma orphaned_fold p now (l : list (string * handler)) : forall st,
  Forall (fun entry => h_promise entry.2 <> p) l ->
  orphaned p st -> orphaned p (fold_left (expire now) l st).
Proof.
  induction l as [|[id h] l IH]; intros st Hentries Horphan; [done|].
  inversion Hentries as [|? ? Hne Hrest]; subst. cbn [fold_left].
  apply IH; [exact Hrest|]. by apply orphaned_expire.
Qed.

Lemma orphaned_sweep p now st : orphaned p st -> orphaned p (sweep now st).
Proof.
  intros Horphan. unfold sweep. apply orphaned_fold; [|exact Horphan].
  apply Forall_forall. intros [id h] Hin. apply elem_of_map_to_list in Hin.
  destruct Horphan as (_ & Hfree & _). by apply (Hfree id).
Qed.

Lemma orphaned_on_message p data st : orphaned p st -> orphaned p (on_message data st).
Proof.
  intros Horphan. pose proof Horphan as (_ & Hfree & _).
  destruct data as [node nodes | [requestId|] message |]; cbn; try done.
  - destruct (truthy node); [|done].
    destruct (responseHandlers st !! ("browse_" ++ node)) as [h|] eqn:Hh; [|done].
    rewrite <- (proj1 (settle_frame (h_promise h) (Fulfilled (default [] nodes)) st)).
    apply orphaned_delete, orphaned_settle; [|done].
    by apply (Hfree _ _ Hh).
  - destruct (truthy requestId); [|done].
    destruct (responseHandlers st !! requestId) as [h|] eqn:Hh; [|done].
    match goal with |- context [settle ?q ?v st] =>
      rewrite <- (proj1 (settle_frame q v st))
    end.
    apply orphaned_delete, orphaned_settle; [|done].
    by apply (Hfree _ _ Hh).
Qed.

Lemma orphaned_browseNodes p isConnected wsConnected requestSent now node st :
  orphaned p st ->
  orphaned p (snd (browseNodes isConnected wsConnected requestSent now node st)).
Proof.
  intros (Hpending & Hfree & Hold). unfold browseNodes.
  destruct isConnected; [|done]. destruct wsConnected; [|done]. cbn [negb].
  unfold new_promise. cbv zeta.
  set (st3 := record_sent _ _ _).
  assert (orphaned p st3) as Horphan.
  { subst st3. repeat split; cbn.
    - rewrite lookup_insert_ne; [done | lia].
    - intros id h. cbn. rewrite lookup_insert. case_decide.
      + intros [= <-]. cbn. lia.
      + apply Hfree.
    - lia. }
  destruct requestSent; cbn [negb snd]; [done|].
  apply orphaned_settle; [lia|]. by apply (orphaned_delete p _ st3).
Qed.

Lemma orphaned_run p (evs : list event) : forall st,
  orphaned p st -> orphaned p (run st evs).
Proof.
  induction evs as [|ev evs IH]; intros st Horphan; [done|].
  cbn. apply IH. destruct ev as [node now requestSent | data | now]; cbn [step].
  - by apply orphaned_browseNodes.
  - by apply orphaned_on_message.
  - by apply orphaned_sweep.
Qed.

(** A matching [browse_result] resolves the promise of the entry and
    removes the entry. *)
Lemma on_message_browse_result node nodes h st :
  truthy node = true ->
  responseHandlers st !! ("browse_" ++ node) = Some h ->
  promises st !! h_promise h = Some Pending ->
  let st' := on_message (browse_result node nodes) st in
  promises st' !! h_promise h = Some (Fulfilled (default [] nodes))
  /\ responseHandlers st' !! ("browse_" ++ node) = None.
Proof.
  intros Hnode Hh Hpending. cbv zeta. unfold on_message. rewrite Hnode, Hh.
  cbn [promises responseHandlers set_responseHandlers].
  split; [|apply lookup_delete_eq].
  by destruct (settle_once (h_promise h) (Fulfilled (default [] nodes)) Pending st Hpending).
Qed.

(** A response that finds no entry changes nothing. *)
Lemma on_message_late node nodes st :
  responseHandlers st !! ("browse_" ++ node) = None ->
  on_message (browse_result node nodes) st = st.
Proof. intros Hnone. cbn. rewrite Hnone. by destruct (truthy node). Qed.

(** *** The expiry sweep *)

Lemma expire_shrinks now st entry id h :
  responseHandlers (expire now st entry) !! id = Some h ->
  responseHandlers st !! id = Some h.
Proof.
  destruct entry as [id' h']. unfold expire. destruct (expired now h'); [|done].
  cbn. rewrite lookup_delete. case_decide; [done|].
  by destruct (startsWith id' "browse_");
    match goal with |- context [settle ?q ?v st] =>
      rewrite (proj1 (settle_frame q v st))
    end.
Qed.

Lemma fold_expire_shrinks now (l : list (string * handler)) : forall st id h,
  responseHandlers (fold_left (expire now) l st) !! id = Some h ->
  responseHandlers st !! id = Some h.
Proof.
  induction l as [|entry l IH]; intros st id h; [done|].
  cbn [fold_left]. intros Hlookup. by apply IH, expire_shrinks in Hlookup.
Qed.

(** Every entry older than thirty seconds is gone after the sweep, so a
    response that arrives later finds none. *)
Lemma sweep_removes_expired now st id h :
  responseHandlers st !! id = Some h -> expired now h = true ->
  responseHandlers (sweep now st) !! id = None.
Proof.
  intros Hh Hexpired. unfold sweep.
  assert ((id, h) ∈ map_to_list (responseHandlers st)) as Hin
    by by apply elem_of_map_to_list.
  assert (forall h', responseHandlers st !! id = Some h' -> h' = h) as Hsame
    by (intros h'; rewrite Hh; congruence).
  revert Hin Hsame. generalize (map_to_list (responseHandlers st)) as l. clear Hh.
  intros l. revert st. induction l as [|entry l IH]; intros st Hin Hsame.
  - by apply elem_of_nil in Hin.
  - cbn [fold_left]. apply elem_of_cons in Hin as [<- | Hin].
    + (* the entry is removed now and never comes back *)
      destruct (responseHandlers (fold_left (expire now) l (expire now st (id, h))) !! id)
        as [h'|] eqn:Hlookup; [|done].
      apply fold_expire_shrinks in Hlookup. revert Hlookup.
      unfold expire. rewrite Hexpired. cbn. by rewrite lookup_delete_eq.
    + apply IH; [exact Hin|]. intros h' Hh'. apply Hsame. by apply expire_shrinks in Hh'.
Qed.

(** One request nobody answers: the sweep resolves it with no nodes, and
    the answer that comes after that is ignored. *)
Example unanswered_browse_expires :
  let st1 := run initial [Browse "ns=2;s=Tanks" 1000 true; Sweep 5000; Sweep 30000] in
  let st2 := run st1 [Sweep 35000] in
  let st3 := run st2 [Message (browse_result "ns=2;s=Tanks" (Some ["ns=2;s=Tank1"]))] in
  promises st1 !! 0 = Some Pending
  /\ promises st2 !! 0 = Some (Fulfilled [])
  /\ responseHandlers st2 = ∅
  /\ st3 = st2.
Proof. cbv zeta. repeat split; vm_compute; reflexivity. Qed.

(** C8 fails on the code when a node is browsed again before the first
    request is answered.  The key of an entry is [browse_<nodeId>], so the
    second [browseNodes] replaces the entry of the first.  Whatever happens
    afterwards (responses, errors, sweeps, further requests), the promise
    of the first request stays pending and no entry can settle it: it is
    neither resolved nor rejected. *)
Theorem overwritten_request_never_settled
    (node : string) (now now' : Z) (later : list event) :
  let st := run initial [Browse node now true; Browse node now' true] in
  fst (browseNodes true true true now node initial) = Some 0
  /\ promises (run st later) !! 0 = Some Pending
  /\ unreferenced 0 (run st later).
Proof.
  cbv zeta. split; [reflexivity|].
  assert (orphaned 0 (run initial [Browse node now true; Browse node now' true])) as Horphan.
  { unfold run, orphaned, unreferenced. cbn. split; [|split; [|lia]].
    - rewrite lookup_insert_ne by done. apply lookup_insert_eq.
    - intros id h. rewrite insert_insert_eq, lookup_insert. case_decide; [|done].
      by intros [= <-]. }
  destruct (orphaned_run 0 later _ Horphan) as (Hpending & Hfree & _). done.
Qed.

End Correlation.

(** * Further properties

    ** SubscriptionManager: unsubscribe, failures, sequences of calls *)

Section ManagerCalls.
Import SubscriptionManager ManagerRuns.

Lemma unsubscribe_eq e node m :
  unsubscribe e node m
  = match monitoredItems m !! node with
    | None => (Normal tt, m)
    | Some item =>
        let m1 := emit (TerminateMonitoredItem (mi_handle item)) m in
        match terminate e (mi_handle item) with
        | Returns =>
            (Normal tt,
             emit (ConsoleLog ("Unsubscribed from " ++ node))
               (set_monitoredItems (delete node (monitoredItems m))
                  (mark_terminated (mi_handle item) m1)))
        | Throws err =>
            (Thrown err, emit (ConsoleError ("Error unsubscribing from " ++ node) err) m1)
        end
    end.
Proof.
  unfold unsubscribe, bind, get, try_catch, perform, modify, call, throw, ret.
  destruct (monitoredItems m !! node) as [item|]; [|reflexivity].
  by destruct (terminate e (mi_handle item)).
Qed.

Lemma created_console_log text m : created (emit (ConsoleLog text) m) = created m.
Proof. by rewrite created_emit, app_nil_r. Qed.

Lemma created_console_error text err m : created (emit (ConsoleError text err) m) = created m.
Proof. by rewrite created_emit, app_nil_r. Qed.

(** A call of [subscribe] that throws has stored nothing and has created no
    monitored item; it may have created the subscription object. *)
Theorem subscribe_throws_without_item (e : env) (client : OpcUaClient.t)
    (node : string) (m : t) (err : string) :
  completed (subscribe e client node m) = Thrown err ->
  monitoredItems (final_state (subscribe e client node m)) = monitoredItems m
  /\ created (final_state (subscribe e client node m)) = created m
  /\ terminated (final_state (subscribe e client node m)) = terminated m.
Proof.
  destruct (OpcUaClient.isConnected client) eqn:Hconnected;
    [|by rewrite subscribe_disconnected].
  rewrite subscribe_connected by done.
  destruct (ensure_subscription_frame e client m) as (Hmap & Hcreated & Hterm & _).
  destruct (ensure_subscription e client m) as [[[]|err0] m0];
    cbn [final_state completed fst snd] in *; [|done].
  destruct (monitoredItems m0 !! node) as [item|] eqn:Hitem.
  - by rewrite monitor_existing.
  - rewrite (monitor_fresh_eq e client node m0 Hitem). cbv zeta.
    destruct (OpcUaClient.readNodeAttributes _ client node) as [[]|err1].
    2: { intros _. cbn [final_state snd]. by rewrite created_console_error. }
    destruct (subscription m0) as [sub|].
    2: { intros _. cbn [final_state snd]. by rewrite created_console_error. }
    destruct (create_monitored_item e node); [discriminate|].
    intros _. cbn [final_state snd]. by rewrite created_console_error.
Qed.

Lemma subscribe_throws_without_item_witness :
  completed (subscribe Samples.unknown_node Samples.live_client Samples.level
               (fresh 0))
  = Thrown "BadNodeIdUnknown"
  /\ monitoredItems (final_state (subscribe Samples.unknown_node Samples.live_client
                                    Samples.level (fresh 0))) = ∅.
Proof.
  split; [reflexivity|].
  exact (proj1 (subscribe_throws_without_item Samples.unknown_node Samples.live_client
                  Samples.level (fresh 0) "BadNodeIdUnknown" eq_refl)).
Defined.

(** [subscribe] and [unsubscribe] undo each other on the map.  After a
    [subscribe(n)] that returned for a node without entry, the map holds
    the new item under [n]; an [unsubscribe(n)] whose [terminate()] returns
    puts the map back as it was and the item is no longer live, while one
    whose [terminate()] raises throws that error and keeps the entry. *)
Theorem subscribe_then_unsubscribe (e e' : env) (client : OpcUaClient.t)
    (node : string) (m : t) :
  monitoredItems m !! node = None ->
  completed (subscribe e client node m) = Normal tt ->
  let m1 := final_state (subscribe e client node m) in
  exists item,
    monitoredItems m1 = <[node := item]> (monitoredItems m)
    /\ created m1 = (created m ++ [item])%list
    /\ mi_nodeId item = node
    /\ (terminate e' (mi_handle item) = Returns ->
          completed (unsubscribe e' node m1) = Normal tt
          /\ monitoredItems (final_state (unsubscribe e' node m1)) = monitoredItems m
          /\ live (final_state (unsubscribe e' node m1)) item = false)
    /\ (forall err, terminate e' (mi_handle item) = Throws err ->
          completed (unsubscribe e' node m1) = Thrown err
          /\ monitoredItems (final_state (unsubscribe e' node m1)) = monitoredItems m1).
Proof.
  intros Hnone Hdone. cbv zeta.
  destruct (subscribe_returns e client node m Hdone) as (_ & _ & Hmonitor & ->).
  destruct (ensure_subscription_frame e client m) as (Hmap & Hcreated & _ & _).
  set (m0 := final_state (ensure_subscription e client m)) in *.
  assert (monitoredItems m0 !! node = None) as Hnone0 by (by rewrite Hmap).
  destruct (monitor_fresh e client node m0 Hnone0 Hmonitor)
    as (sub & _ & _ & Hmap1 & Hcreated1 & _).
  set (m1 := final_state (monitor e client node m0)) in *.
  exists (new_item m0 sub node).
  rewrite Hmap1, Hcreated1, Hmap, Hcreated. do 3 (split; [done|]).
  rewrite unsubscribe_eq, Hmap1, Hmap, lookup_insert_eq. cbv zeta. split.
  - intros ->. cbn [completed final_state fst snd]. split; [done|]. split.
    + cbn. by rewrite delete_insert_eq, delete_id.
    + unfold live. cbn. by rewrite bool_decide_eq_true_2 by apply list_elem_of_here.
  - intros err ->. cbn. by rewrite Hmap1, Hmap.
Qed.

Lemma subscribe_then_unsubscribe_witness :
  exists item,
    monitoredItems Samples.monitoring_level
    = <[Samples.level := item]>
        (monitoredItems (constructor Samples.friendly Samples.live_client 0))
    /\ monitoredItems
         (final_state (unsubscribe Samples.friendly Samples.level Samples.monitoring_level))
       = monitoredItems (constructor Samples.friendly Samples.live_client 0).
Proof.
  destruct (subscribe_then_unsubscribe Samples.friendly Samples.friendly
              Samples.live_client Samples.level
              (constructor Samples.friendly Samples.live_client 0) eq_refl eq_refl)
    as (item & Hmap & _ & _ & Hback & _).
  exists item. split; [exact Hmap|]. exact (proj1 (proj2 (Hback eq_refl))).
Defined.

(** *** setDefaultSettings, then subscribe *)

Lemma initSubscription_eq e client m :
  initSubscription e client m
  = if negb (OpcUaClient.isConnected client) then
      (Thrown "OPC UA client not connected", m)
    else
      match OpcUaClient.getSession client with
      | None => (Thrown "No OPC UA session available", m)
      | Some _ =>
          match create_subscription e with
          | Returns =>
              (Normal tt,
               new_object
                 (set_subscription (Some (next_object m))
                    (emit (CreateSubscription (next_object m)
                             (publishingInterval (defaultSettings m))) m)))
          | Throws err =>
              (Thrown err, emit (ConsoleError "Error creating subscription:" err) m)
          end
      end.
Proof.
  unfold initSubscription.
  destruct (negb (OpcUaClient.isConnected client)); [reflexivity|].
  destruct (OpcUaClient.getSession client); [|reflexivity].
  unfold try_catch, bind, call, get, perform, modify, throw.
  by destruct (create_subscription e).
Qed.

(** The subscription object of [m], if any, was requested with the
    publishing interval of the current settings. *)
Lemma initSubscription_announces e client m interval :
  publishingInterval (defaultSettings m) = interval ->
  (forall sub, subscription m = Some sub ->
     In (CreateSubscription sub interval) (effects m)) ->
  let m' := final_state (initSubscription e client m) in
  forall sub, subscription m' = Some sub -> In (CreateSubscription sub interval) (effects m').
Proof.
  intros Hinterval Hm. cbv zeta. rewrite initSubscription_eq.
  destruct (negb (OpcUaClient.isConnected client)); [exact Hm|].
  destruct (OpcUaClient.getSession client); [|exact Hm].
  destruct (create_subscription e); cbn.
  - intros sub [= <-]. rewrite in_app_iff, Hinterval. right. by left.
  - intros sub Hsub. rewrite in_app_iff. left. by apply Hm.
Qed.

(** Monitored items are created with the settings in force at the time of
    the [subscribe]: after [setDefaultSettings(s)], a [subscribe] that
    returns for a node without entry files an item with the sampling
    interval and the queue size of [s] and [discardOldest: true]; when the
    old subscription object could be terminated (or there was none), the
    item sits in a subscription object requested with the publishing
    interval of [s]. *)
Theorem setDefaultSettings_then_new_item (e e' : env) (client client' : OpcUaClient.t)
    (settings : SubscriptionSettings) (node : string) (m : t) :
  monitoredItems m !! node = None ->
  let m1 := final_state (setDefaultSettings e client settings m) in
  let m2 := final_state (subscribe e' client' node m1) in
  completed (subscribe e' client' node m1) = Normal tt ->
  exists item,
    monitoredItems m2 !! node = Some item
    /\ In (CreateMonitoredItem item) (effects m2)
    /\ mi_samplingInterval item = samplingInterval settings
    /\ mi_queueSize item = queueSize settings
    /\ mi_discardOldest item = true
    /\ ((forall sub, subscription m = Some sub -> terminate e sub = Returns) ->
        In (CreateSubscription (mi_subscription item) (publishingInterval settings))
           (effects m2)).
Proof.
  intros Hnone. cbv zeta. intros Hdone.
  destruct (setDefaultSettings_frame e client settings m) as (Hmap1 & _ & Hsettings1 & _).
  set (m1 := final_state (setDefaultSettings e client settings m)) in *.
  destruct (subscribe_returns e' client' node m1 Hdone) as (_ & _ & Hmonitor & ->).
  destruct (ensure_subscription_frame e' client' m1) as (Hmap0 & _ & _ & Hsettings0).
  set (m0 := final_state (ensure_subscription e' client' m1)) in *.
  assert (monitoredItems m0 !! node = None) as Hnone0 by (by rewrite Hmap0, Hmap1).
  assert ((forall sub, subscription m = Some sub -> terminate e sub = Returns) ->
          forall sub, subscription m0 = Some sub ->
            In (CreateSubscription sub (publishingInterval settings)) (effects m0))
    as Hannounced.
  { intros Hterminate.
    assert (forall sub, subscription m1 = Some sub ->
              In (CreateSubscription sub (publishingInterval settings)) (effects m1))
      as Hm1.
    { subst m1. rewrite setDefaultSettings_eq. cbv zeta. cbn [final_state snd].
      destruct (subscription m) as [old|] eqn:Hold; [|cbn; by rewrite Hold].
      rewrite (Hterminate old eq_refl).
      apply initSubscription_announces; [done|]. cbn. discriminate. }
    subst m0. destruct (subscription m1) as [sub1|] eqn:Hsub1.
    - rewrite ensure_subscription_present by done. cbn. by rewrite Hsub1.
    - rewrite ensure_subscription_absent by done.
      apply initSubscription_announces; [by rewrite Hsettings1|]. by rewrite Hsub1. }
  revert Hmonitor. rewrite (monitor_fresh_eq e' client' node m0 Hnone0). cbv zeta.
  destruct (OpcUaClient.readNodeAttributes _ client' node) as [[]|err]; [|discriminate].
  destruct (subscription m0) as [sub|] eqn:Hsub; [|discriminate].
  destruct (create_monitored_item e' node); [|discriminate].
  intros _. exists (new_item m0 sub node). cbn [final_state snd].
  split; [cbn; by rewrite lookup_insert_eq|].
  split; [cbn; rewrite !in_app_iff; cbn; tauto|].
  cbn [new_item mi_samplingInterval mi_queueSize mi_discardOldest mi_subscription].
  rewrite Hsettings0, Hsettings1. do 3 (split; [done|]).
  intros Hterminate. cbn. rewrite !in_app_iff. left. left. by apply Hannounced.
Qed.

Lemma setDefaultSettings_then_new_item_witness :
  exists item,
    monitoredItems
      (final_state
         (subscribe Samples.friendly Samples.live_client Samples.level
            (final_state
               (setDefaultSettings Samples.friendly Samples.live_client Samples.faster
                  (constructor Samples.friendly Samples.live_client 0)))))
      !! Samples.level = Some item
    /\ mi_samplingInterval item = 100%Z.
Proof.
  destruct (setDefaultSettings_then_new_item Samples.friendly Samples.friendly
              Samples.live_client Samples.live_client Samples.faster Samples.level
              (constructor Samples.friendly Samples.live_client 0) eq_refl eq_refl)
    as (item & Hitem & _ & Hsampling & _).
  exists item. split; [exact Hitem | exact Hsampling].
Defined.

(** *** clear *)

Lemma forEach_terminate_item_state e (l : list MonitoredItem) : forall m,
  let m' := final_state (forEach (terminate_item e) l m) in
  quiet m m'
  /\ next_object m' = next_object m
  /\ terminations (effects m') = (terminations (effects m) ++ List.map mi_handle l)%list
  /\ (forall item, In item l -> terminate e (mi_handle item) = Returns ->
        mi_handle item ∈ terminated m').
Proof.
  induction l as [|item rest IH]; intros m; cbv zeta.
  - cbn. rewrite app_nil_r. unfold quiet. repeat split; done.
  - cbn [forEach]. unfold bind. rewrite terminate_item_eq.
    match goal with |- context [forEach _ rest ?m1] =>
      destruct (IH m1) as ((Hmap & Hcreated & Hnext & Hterm) & Hsame & Hcalls & Hdone);
      set (m0 := m1) in *
    end.
    destruct (forEach_terminate_item e rest m0) as [Hcompleted _].
    destruct (forEach (terminate_item e) rest m0) as [[[]|?] m']; [|discriminate].
    cbn [final_state snd] in *.
    assert (monitoredItems m0 = monitoredItems m /\ created m0 = created m
            /\ next_object m0 = next_object m
            /\ (forall object, object ∈ terminated m -> object ∈ terminated m0)
            /\ terminations (effects m0)
               = (terminations (effects m) ++ [mi_handle item])%list
            /\ (terminate e (mi_handle item) = Returns -> mi_handle item ∈ terminated m0))
      as (Hmap0 & Hcreated0 & Hnext0 & Hterm0 & Hcalls0 & Hdone0).
    { subst m0. unfold terminations.
      destruct (terminate e (mi_handle item)); cbn;
        rewrite ?created_emit, ?app_nil_r, ?omap_app; cbn; rewrite ?app_nil_r;
        repeat split; try done.
      - intros object Hin. by apply list_elem_of_further.
      - intros _. apply list_elem_of_here. }
    unfold quiet. rewrite Hmap, Hcreated, Hsame, Hcalls, Hmap0, Hcreated0, Hnext0, Hcalls0.
    rewrite <- app_assoc. cbn [List.map app]. repeat split; try done.
    + intros object Hin. auto.
    + intros item' [<- | Hin] Hreturns; [apply Hterm; auto | by apply Hdone].
Qed.

(** [clear] calls [terminate()] once on each monitored item of the map, also
    after one of these calls has raised, and on nothing else but the
    subscription object; it returns, the map is empty, and every item whose
    [terminate()] returned is no longer live. *)
Theorem clear_terminates_every_item (e : env) (m : t) :
  let m' := final_state (clear e m) in
  completed (clear e m) = Normal tt
  /\ monitoredItems m' = ∅
  /\ terminations (effects m')
     = (terminations (effects m) ++ List.map mi_handle (items m))%list
  /\ (forall node item, monitoredItems m !! node = Some item ->
        terminate e (mi_handle item) = Returns -> live m' item = false).
Proof.
  cbv zeta. rewrite clear_eq. cbv zeta. cbn [completed final_state fst snd].
  destruct (forEach_terminate_item_state e (items m) m) as (_ & _ & Hcalls & Hdone).
  set (m0 := final_state (forEach (terminate_item e) (items m) m)) in *.
  assert (forall node item, monitoredItems m !! node = Some item -> In item (items m))
    as Hitems.
  { intros node item Hitem. unfold items. apply in_map_iff. exists (node, item).
    split; [done|]. apply list_elem_of_In, elem_of_map_to_list. done. }
  assert (forall m', (forall object, object ∈ terminated m0 -> object ∈ terminated m') ->
            forall node item, monitoredItems m !! node = Some item ->
              terminate e (mi_handle item) = Returns -> live m' item = false)
    as Hlive.
  { intros m' Hincl node item Hitem Hreturns. unfold live.
    rewrite bool_decide_eq_true_2; [done|]. eapply Hincl, Hdone; eauto. }
  split; [done|].
  destruct (subscription m) as [sub|]; [destruct (terminate e sub)|]; cbn;
    unfold terminations in *; cbn; rewrite ?omap_app; cbn; rewrite ?app_nil_r;
    (split; [done|]); (split; [exact Hcalls|]); apply Hlive; cbn; auto.
  intros object Hin. by apply list_elem_of_further.
Qed.

(** *** What every sequence of calls keeps *)

Ltac footprint :=
  unfold quiet, created; cbn; rewrite ?omap_app; cbn; rewrite ?app_nil_r.

Lemma quiet_refl m : quiet m m.
Proof. unfold quiet. repeat split; done. Qed.

Lemma quiet_trans m1 m2 m3 : quiet m1 m2 -> quiet m2 m3 -> quiet m1 m3.
Proof.
  intros (Hmap & Hcreated & Hnext & Hterm) (Hmap' & Hcreated' & Hnext' & Hterm').
  unfold quiet. rewrite Hmap', Hcreated', Hmap, Hcreated. repeat split; auto. lia.
Qed.

Lemma quiet_consistent m m' : quiet m m' -> consistent m -> consistent m'.
Proof.
  intros (Hmap & Hcreated & Hnext & _) (Hfiled & Hfresh & Hdistinct).
  unfold consistent. rewrite Hmap, Hcreated. repeat split; try done.
  - by apply Hfiled.
  - by eapply Hfiled.
  - intros item Hin. specialize (Hfresh item Hin). lia.
Qed.

Lemma quiet_accounted m m' : quiet m m' -> accounted m -> accounted m'.
Proof.
  intros (Hmap & Hcreated & _ & Hterm) Haccounted item.
  rewrite Hmap, Hcreated. intros Hin Hlive. apply Haccounted; auto.
Qed.

Lemma initSubscription_quiet e client m :
  quiet m (final_state (initSubscription e client m)).
Proof.
  rewrite initSubscription_eq.
  destruct (negb (OpcUaClient.isConnected client)); [apply quiet_refl|].
  destruct (OpcUaClient.getSession client); [|apply quiet_refl].
  destruct (create_subscription e); footprint; repeat split; auto.
Qed.

Lemma ensure_subscription_quiet e client m :
  quiet m (final_state (ensure_subscription e client m)).
Proof.
  destruct (subscription m) as [sub|] eqn:Hsub.
  - rewrite ensure_subscription_present by done. apply quiet_refl.
  - rewrite ensure_subscription_absent by done. apply initSubscription_quiet.
Qed.

Lemma setDefaultSettings_quiet e client settings m :
  quiet m (final_state (setDefaultSettings e client settings m)).
Proof.
  rewrite setDefaultSettings_eq. cbv zeta. cbn [final_state snd].
  destruct (subscription m) as [sub|]; [|footprint; repeat split; auto].
  destruct (terminate e sub).
  - eapply quiet_trans; [|apply initSubscription_quiet].
    footprint. repeat split; auto.
    intros object Hin. by apply list_elem_of_further.
  - footprint. repeat split; auto.
Qed.

(** [subscribe] either creates nothing or files one new item under its
    node, which had no entry. *)
Lemma subscribe_step e client node m :
  let m' := final_state (subscribe e client node m) in
  quiet m m'
  \/ (monitoredItems m !! node = None
      /\ exists item,
           mi_nodeId item = node
           /\ next_object m <= mi_handle item < next_object m'
           /\ monitoredItems m' = <[node := item]> (monitoredItems m)
           /\ created m' = (created m ++ [item])%list
           /\ terminated m' = terminated m).
Proof.
  cbv zeta. destruct (OpcUaClient.isConnected client) eqn:Hconnected;
    [|rewrite subscribe_disconnected by done; left; apply quiet_refl].
  rewrite subscribe_connected by done.
  pose proof (ensure_subscription_quiet e client m) as Hquiet.
  destruct (ensure_subscription_frame e client m) as (_ & _ & Hterm0 & _).
  destruct (ensure_subscription e client m) as [[[]|err0] m0];
    cbn [final_state snd] in *; [|by left].
  destruct (monitoredItems m0 !! node) as [item|] eqn:Hitem.
  { rewrite monitor_existing by done. by left. }
  rewrite (monitor_fresh_eq e client node m0 Hitem). cbv zeta.
  assert (forall text err,
            quiet m (emit (ConsoleError text err) m0)) as Hfailed.
  { intros text err. eapply quiet_trans; [exact Hquiet|].
    footprint. repeat split; auto. }
  destruct (OpcUaClient.readNodeAttributes _ client node) as [[]|err1];
    [|left; apply Hfailed].
  destruct (subscription m0) as [sub|]; [|left; apply Hfailed].
  destruct (create_monitored_item e node); [|left; apply Hfailed].
  right. destruct Hquiet as (Hmap & Hcreated & Hnext & _).
  split; [by rewrite <- Hmap|]. exists (new_item m0 sub node).
  cbn [final_state snd]. footprint. fold (created m0).
  rewrite Hmap, Hcreated, Hterm0. repeat split; try done. lia.
Qed.

(** [unsubscribe] either changes nothing or removes the entry of the node
    and records the termination of its item. *)
Lemma unsubscribe_step e node m :
  let m' := final_state (unsubscribe e node m) in
  quiet m m'
  \/ exists item,
       monitoredItems m !! node = Some item
       /\ monitoredItems m' = delete node (monitoredItems m)
       /\ created m' = created m
       /\ next_object m' = next_object m
       /\ terminated m' = mi_handle item :: terminated m.
Proof.
  cbv zeta. rewrite unsubscribe_eq.
  destruct (monitoredItems m !! node) as [item|] eqn:Hitem; [|left; apply quiet_refl].
  cbv zeta. destruct (terminate e (mi_handle item)).
  - right. exists item. footprint. done.
  - left. footprint. repeat split; auto.
Qed.

(** [clear] empties the map and creates nothing. *)
Lemma clear_step e m :
  let m' := final_state (clear e m) in
  monitoredItems m' = ∅ /\ created m' = created m /\ next_object m' = next_object m
  /\ (forall object, object ∈ terminated m -> object ∈ terminated m')
  /\ (forall node item, monitoredItems m !! node = Some item ->
        terminate e (mi_handle item) = Returns -> mi_handle item ∈ terminated m').
Proof.
  cbv zeta. rewrite clear_eq. cbv zeta. cbn [final_state snd].
  destruct (forEach_terminate_item_state e (items m) m)
    as ((_ & Hcreated & _ & Hterm) & Hnext & _ & Hdone).
  set (m0 := final_state (forEach (terminate_item e) (items m) m)) in *.
  assert (forall node item, monitoredItems m !! node = Some item ->
            terminate e (mi_handle item) = Returns -> mi_handle item ∈ terminated m0)
    as Hdone'.
  { intros node item Hitem. apply Hdone. unfold items. apply in_map_iff.
    exists (node, item). split; [done|]. by apply list_elem_of_In, elem_of_map_to_list. }
  unfold created in *.
  destruct (subscription m) as [sub|]; [destruct (terminate e sub)|]; cbn;
    rewrite ?omap_app; cbn; rewrite ?app_nil_r; repeat split; eauto;
    intros; apply list_elem_of_further; eauto.
Qed.

Lemma apply_consistent m c : consistent m -> consistent (apply m c).
Proof.
  intros Hm. unfold apply. destruct (request c) as [node|node| |settings|].
  - destruct (subscribe_step (stack c) (caller c) node m)
      as [Hquiet | (Hnone & item & Hnode & Hhandle & Hmap & Hcreated & _)];
      [by eapply quiet_consistent|].
    destruct Hm as (Hfiled & Hfresh & Hdistinct).
    unfold consistent. rewrite Hmap, Hcreated. split; [|split].
    + intros node' item'. rewrite in_app_iff. destruct (decide (node' = node)) as [->|Hne].
      * rewrite lookup_insert_eq. intros [= <-]. split; [done|]. right. by left.
      * rewrite lookup_insert_ne by done. intros Hitem.
        destruct (Hfiled _ _ Hitem). auto.
    + intros item'. rewrite in_app_iff. intros [Hin | [<- | []]]; [|lia].
      specialize (Hfresh item' Hin). lia.
    + rewrite map_app. cbn. apply NoDup_app. split; [done|]. split.
      * intros handle Hin. rewrite list_elem_of_In, in_map_iff in Hin.
        destruct Hin as (item' & <- & Hin). specialize (Hfresh item' Hin).
        rewrite list_elem_of_In. cbn. lia.
      * apply NoDup_singleton.
  - destruct (unsubscribe_step (stack c) node m)
      as [Hquiet | (item & Hitem & Hmap & Hcreated & Hnext & _)];
      [by eapply quiet_consistent|].
    destruct Hm as (Hfiled & Hfresh & Hdistinct).
    unfold consistent. rewrite Hmap, Hcreated, Hnext. split; [|done].
    intros node' item'. rewrite lookup_delete_Some. intros [_ Hitem']. by apply Hfiled.
  - destruct (clear_step (stack c) m) as (Hmap & Hcreated & Hnext & _).
    destruct Hm as (Hfiled & Hfresh & Hdistinct).
    unfold consistent. rewrite Hmap, Hcreated, Hnext. split; [|done].
    intros node item. by rewrite lookup_empty.
  - eapply quiet_consistent; [apply setDefaultSettings_quiet | done].
  - eapply quiet_consistent; [|done]. unfold on_terminated. footprint.
    repeat split; auto.
Qed.

Lemma constructor_quiet e client first_object :
  quiet (fresh first_object) (constructor e client first_object).
Proof.
  unfold constructor, fire_and_forget, try_catch.
  pose proof (initSubscription_quiet e client (fresh first_object)) as Hquiet.
  by destruct (initSubscription e client (fresh first_object)) as [[[]|?] ?].
Qed.

Lemma fresh_consistent first_object : consistent (fresh first_object).
Proof.
  unfold consistent, fresh, created. cbn. repeat split; try done.
  apply NoDup_nil_2.
Qed.

(** Whatever the routes call on a manager, in whatever order, and whatever
    the stack answers: every entry of the map is filed under the node of
    its own item, the item is one the stack created for the manager, and no
    two created items share a handle. *)
Theorem run_consistent (e : env) (client : OpcUaClient.t) (first_object : nat)
    (calls : list invocation) :
  consistent (run (constructor e client first_object) calls).
Proof.
  assert (consistent (constructor e client first_object)) as Hstart.
  { eapply quiet_consistent; [apply constructor_quiet | apply fresh_consistent]. }
  revert Hstart. generalize (constructor e client first_object).
  unfold run. induction calls as [|c rest IH]; intros m Hm; [done|].
  cbn [fold_left]. apply IH. by apply apply_consistent.
Qed.

Lemma apply_accounted m c :
  terminates (stack c) -> consistent m -> accounted m -> accounted (apply m c).
Proof.
  intros Hterminates Hm Haccounted. unfold apply.
  destruct (request c) as [node|node| |settings|].
  - destruct (subscribe_step (stack c) (caller c) node m)
      as [Hquiet | (Hnone & item & Hnode & Hhandle & Hmap & Hcreated & Hterm)];
      [by eapply quiet_accounted|].
    unfold accounted. rewrite Hmap, Hcreated, Hterm. intros item'.
    rewrite in_app_iff. intros [Hin | [<- | []]] Hlive.
    + specialize (Haccounted item' Hin Hlive).
      rewrite lookup_insert_ne; [done|]. intros Heq. congruence.
    + by rewrite Hnode, lookup_insert_eq.
  - destruct (unsubscribe_step (stack c) node m)
      as [Hquiet | (item & Hitem & Hmap & Hcreated & Hnext & Hterm)];
      [by eapply quiet_accounted|].
    unfold accounted. rewrite Hmap, Hcreated, Hterm. intros item' Hin Hlive.
    rewrite not_elem_of_cons in Hlive. destruct Hlive as [Hne Hlive].
    specialize (Haccounted item' Hin Hlive).
    rewrite lookup_delete_ne; [done|]. intros ->. congruence.
  - destruct (clear_step (stack c) m) as (Hmap & Hcreated & _ & Hterm & Hdone).
    unfold accounted. rewrite Hcreated. intros item Hin Hlive. exfalso. apply Hlive.
    destruct (decide (mi_handle item ∈ terminated m)) as [Hold|Hnew]; [by apply Hterm|].
    eapply Hdone; [by apply Haccounted | apply Hterminates].
  - eapply quiet_accounted; [apply setDefaultSettings_quiet | done].
  - eapply quiet_accounted; [|done]. unfold on_terminated. footprint.
    repeat split; auto.
Qed.

(** *** Calls that overlap *)

(** Filing a new item under a node that has no entry keeps the map
    consistent and loses nothing. *)
Lemma filed_consistent m m' node item :
  consistent m -> mi_nodeId item = node ->
  next_object m <= mi_handle item < next_object m' ->
  monitoredItems m' = <[node := item]> (monitoredItems m) ->
  created m' = (created m ++ [item])%list ->
  consistent m'.
Proof.
  intros (Hfiled & Hfresh & Hdistinct) Hnode Hhandle Hmap Hcreated.
  unfold consistent. rewrite Hmap, Hcreated. split; [|split].
  - intros node' item'. rewrite in_app_iff. destruct (decide (node' = node)) as [->|Hne].
    + rewrite lookup_insert_eq. intros [= <-]. split; [done|]. right. by left.
    + rewrite lookup_insert_ne by done. intros Hitem.
      destruct (Hfiled _ _ Hitem). auto.
  - intros item'. rewrite in_app_iff. intros [Hin | [<- | []]]; [|lia].
    specialize (Hfresh item' Hin). lia.
  - rewrite map_app. cbn. apply NoDup_app. split; [done|]. split.
    + intros handle Hin. rewrite list_elem_of_In, in_map_iff in Hin.
      destruct Hin as (item' & <- & Hin). specialize (Hfresh item' Hin).
      rewrite list_elem_of_In. cbn. lia.
    + apply NoDup_singleton.
Qed.

Lemma filed_accounted m m' node item :
  accounted m -> monitoredItems m !! node = None -> mi_nodeId item = node ->
  monitoredItems m' = <[node := item]> (monitoredItems m) ->
  created m' = (created m ++ [item])%list ->
  terminated m' = terminated m ->
  accounted m'.
Proof.
  intros Haccounted Hnone Hnode Hmap Hcreated Hterm.
  unfold accounted. rewrite Hmap, Hcreated, Hterm. intros item'.
  rewrite in_app_iff. intros [Hin | [<- | []]] Hlive.
  - specialize (Haccounted item' Hin Hlive).
    rewrite lookup_insert_ne; [done|]. intros Heq. congruence.
  - by rewrite Hnode, lookup_insert_eq.
Qed.

(** The end of [subscribe] either creates nothing or files one new item
    under its node. *)
Lemma finish_step e client node m :
  let m' := final_state (Subscribing.finish e client node m) in
  quiet m m'
  \/ exists item,
       mi_nodeId item = node
       /\ next_object m <= mi_handle item < next_object m'
       /\ monitoredItems m' = <[node := item]> (monitoredItems m)
       /\ created m' = (created m ++ [item])%list
       /\ terminated m' = terminated m.
Proof.
  cbv zeta. rewrite finish_eq. cbv zeta.
  assert (forall text err, quiet m (emit (ConsoleError text err) m)) as Hfailed.
  { intros text err. footprint. repeat split; auto. }
  destruct (OpcUaClient.readNodeAttributes _ client node) as [[]|err1];
    [|left; apply Hfailed].
  destruct (subscription m) as [sub|]; [|left; apply Hfailed].
  destruct (create_monitored_item e node); [|left; apply Hfailed].
  right. exists (new_item m sub node).
  cbn [final_state snd]. footprint. fold (created m). repeat split; try done. lia.
Qed.

(** A call other than [subscribe] adds no entry to the map. *)
Lemma apply_adds_no_entry m c node :
  (forall node', request c <> Subscribe node') ->
  monitoredItems m !! node = None -> monitoredItems (apply m c) !! node = None.
Proof.
  intros Hother Hnone. unfold apply.
  destruct (request c) as [node'|node'| |settings|] eqn:Hrequest.
  - by destruct (Hother node').
  - destruct (unsubscribe_step (stack c) node' m)
      as [(-> & _) | (item & _ & -> & _)]; [done|].
    rewrite lookup_delete_None. by right.
  - destruct (clear_step (stack c) m) as (-> & _). apply lookup_empty.
  - by destruct (setDefaultSettings_quiet (stack c) (caller c) settings m) as (-> & _).
  - done.
Qed.

Lemma monitoring_suspend node at_wait s :
  Interleaving.monitoring (Interleaving.suspend node at_wait s)
  = (Interleaving.monitoring s
     ++ match at_wait with
        | Subscribing.ForAttributes => [node]
        | Subscribing.ForSubscription => []
        end)%list.
Proof.
  unfold Interleaving.monitoring, Interleaving.suspend. cbn [Interleaving.waiting].
  rewrite omap_app. by destruct at_wait.
Qed.

(** A call that leaves its wait for the subscription was not between the
    guard and [set]. *)
Lemma monitoring_leave_subscription node (l : list (string * Subscribing.wait)) m :
  Interleaving.monitoring
    {| Interleaving.manager := m;
       Interleaving.waiting := Interleaving.leave node Subscribing.ForSubscription l |}
  = Interleaving.monitoring {| Interleaving.manager := m; Interleaving.waiting := l |}.
Proof.
  unfold Interleaving.monitoring. cbn [Interleaving.waiting].
  induction l as [|[node' at_wait] rest IH]; [done|]. cbn [Interleaving.leave].
  case_bool_decide as Heq.
  - injection Heq as -> ->. done.
  - change (omap ?f ((node', at_wait) :: ?r))
      with (match f (node', at_wait) with Some y => y :: omap f r | None => omap f r end).
    by rewrite IH.
Qed.

(** When no two calls are between the guard and [set] for one node, the
    call that leaves was the only one for its node. *)
Lemma monitoring_leave_attributes node (l : list (string * Subscribing.wait)) m :
  let before := Interleaving.monitoring
                  {| Interleaving.manager := m; Interleaving.waiting := l |} in
  let after := Interleaving.monitoring
                 {| Interleaving.manager := m;
                    Interleaving.waiting :=
                      Interleaving.leave node Subscribing.ForAttributes l |} in
  NoDup before -> (node, Subscribing.ForAttributes) ∈ l ->
  node ∈ before /\ (node ∉ after) /\ (forall other, other ∈ after -> other ∈ before).
Proof.
  cbv zeta. unfold Interleaving.monitoring. cbn [Interleaving.waiting].
  induction l as [|[node' at_wait] rest IH]; intros Hdistinct Hin.
  { by apply elem_of_nil in Hin. }
  cbn [Interleaving.leave].
  change (omap ?f ((node', at_wait) :: ?r))
    with (match f (node', at_wait) with Some y => y :: omap f r | None => omap f r end)
    in Hdistinct |- *.
  case_bool_decide as Heq.
  - injection Heq as -> ->. cbn [fst snd] in Hdistinct |- *.
    apply NoDup_cons in Hdistinct as [Hfresh _].
    split; [apply list_elem_of_here|]. split; [done|].
    intros other. apply list_elem_of_further.
  - apply elem_of_cons in Hin as [Hin | Hin]; [congruence|].
    change (omap ?f ((node', at_wait) :: ?r))
      with (match f (node', at_wait) with Some y => y :: omap f r | None => omap f r end).
    destruct at_wait; cbn [fst snd] in Hdistinct |- *.
    + by apply IH.
    + apply NoDup_cons in Hdistinct as [Hfresh Hdistinct].
      destruct (IH Hdistinct Hin) as (Hbefore & Hafter & Hsub).
      split; [by apply list_elem_of_further|]. split.
      * rewrite not_elem_of_cons. split; [|done]. intros ->. done.
      * intros other. rewrite !elem_of_cons. intros [-> | Hother]; [by left|].
        right. by apply Hsub.
Qed.

Lemma guard_steady node s :
  Interleaving.steady s -> Interleaving.steady (Interleaving.guard node s).
Proof.
  intros (Hm & Haccounted & Hnone). unfold Interleaving.guard.
  destruct (monitoredItems (Interleaving.manager s) !! node) as [item|] eqn:Hitem;
    cbn [isSome]; [done|].
  split; [done|]. split; [done|]. intros node'.
  rewrite monitoring_suspend, elem_of_app, list_elem_of_singleton.
  intros [Hin | ->]; [by apply Hnone | done].
Qed.

Lemma step_steady s ev :
  terminates (Interleaving.stack_of ev) -> NoDup (Interleaving.monitoring s) ->
  Interleaving.steady s -> Interleaving.steady (Interleaving.step s ev).
Proof.
  intros Hterminates Hdistinct Hs. pose proof Hs as (Hm & Haccounted & Hnone).
  destruct ev as [c | e client node at_wait]; cbn [Interleaving.step Interleaving.stack_of] in *.
  - destruct (request c) as [node|node| |settings|] eqn:Hrequest.
    + (* subscribe, to its first wait *)
      unfold Interleaving.enter.
      destruct (negb (OpcUaClient.isConnected (caller c))); [done|].
      destruct (isSome (subscription (Interleaving.manager s))); [by apply guard_steady|].
      pose proof (initSubscription_quiet (stack c) (caller c) (Interleaving.manager s))
        as Hquiet.
      destruct (initSubscription (stack c) (caller c) (Interleaving.manager s))
        as [[[]|err] m0]; cbn [final_state snd] in Hquiet.
      * split; [by eapply quiet_consistent|]. split; [by eapply quiet_accounted|].
        intros node'. rewrite monitoring_suspend, app_nil_r.
        destruct Hquiet as (Hmap & _). cbn. rewrite Hmap. apply Hnone.
      * split; [by eapply quiet_consistent|]. split; [by eapply quiet_accounted|].
        destruct Hquiet as (Hmap & _). cbn. rewrite Hmap. apply Hnone.
    + split; [by apply apply_consistent|]. split; [by apply apply_accounted|].
      intros node' Hin. apply apply_adds_no_entry; [by rewrite Hrequest | by apply Hnone].
    + split; [by apply apply_consistent|]. split; [by apply apply_accounted|].
      intros node' Hin. apply apply_adds_no_entry; [by rewrite Hrequest | by apply Hnone].
    + split; [by apply apply_consistent|]. split; [by apply apply_accounted|].
      intros node' Hin. apply apply_adds_no_entry; [by rewrite Hrequest | by apply Hnone].
    + split; [by apply apply_consistent|]. split; [by apply apply_accounted|].
      intros node' Hin. apply apply_adds_no_entry; [by rewrite Hrequest | by apply Hnone].
  - unfold Interleaving.resume. case_bool_decide as Hwaits; [|done].
    destruct s as [m l]. cbn [Interleaving.manager Interleaving.waiting] in *.
    destruct at_wait.
    + apply guard_steady. split; [done|]. split; [done|].
      intros node'. rewrite monitoring_leave_subscription. apply Hnone.
    + destruct (monitoring_leave_attributes node l m Hdistinct Hwaits)
        as (Hbefore & Hafter & Hsub).
      pose proof (Hnone node Hbefore) as Hfree. cbn [Interleaving.manager] in Hfree.
      unfold Interleaving.steady. cbn [Interleaving.manager].
      destruct (finish_step e client node m)
        as [Hquiet | (item & Hnode & Hhandle & Hmap & Hcreated & Hterm)].
      * split; [by eapply quiet_consistent|]. split; [by eapply quiet_accounted|].
        intros node' Hin. destruct Hquiet as (-> & _). by apply (Hnone node'), Hsub.
      * split; [by eapply filed_consistent|]. split; [by eapply filed_accounted|].
        intros node' Hin. rewrite Hmap, lookup_insert_ne; [by apply (Hnone node'), Hsub|].
        intros <-. done.
Qed.

Lemma run_steady (evs : list Interleaving.event) : forall s,
  Forall (fun ev => terminates (Interleaving.stack_of ev)) evs ->
  Interleaving.exclusive s evs -> Interleaving.steady s ->
  Interleaving.steady (Interleaving.run s evs).
Proof.
  induction evs as [|ev rest IH]; intros s Hevs Hexclusive Hs; [done|].
  apply Forall_cons in Hevs as [Hev Hrest]. destruct Hexclusive as [Hdistinct Hexclusive].
  cbn [Interleaving.run fold_left]. apply IH; [done | done |].
  by apply step_steady.
Qed.

(** A call of [subscribe] that nothing interrupts: its three steps, one
    after the other, leave the manager that [subscribe] leaves. *)
Lemma uninterrupted_subscribe e client node (m : t) :
  Interleaving.manager
    (Interleaving.run (Interleaving.start m)
       [Interleaving.Begin {| stack := e; caller := client; request := Subscribe node |};
        Interleaving.Resume e client node Subscribing.ForSubscription;
        Interleaving.Resume e client node Subscribing.ForAttributes])
  = final_state (subscribe e client node m).
Proof.
  unfold Interleaving.run, Interleaving.start.
  cbn [fold_left Interleaving.step request stack caller].
  unfold Interleaving.enter. cbn [Interleaving.manager Interleaving.waiting].
  assert (forall data (s : Interleaving.t),
            Interleaving.waiting s = [] ->
            Interleaving.resume e client node data s = s) as Hidle.
  { intros data s Hs. unfold Interleaving.resume.
    rewrite Hs, bool_decide_eq_false_2; [done | apply not_elem_of_nil]. }
  assert (forall m0 : t,
            Interleaving.manager
              (Interleaving.resume e client node Subscribing.ForAttributes
                 (Interleaving.guard node
                    {| Interleaving.manager := m0; Interleaving.waiting := [] |}))
            = final_state (monitor e client node m0)) as Hrest.
  { intros m0. rewrite monitor_finish. unfold Interleaving.guard.
    cbn [Interleaving.manager].
    destruct (isSome (monitoredItems m0 !! node)); [by rewrite Hidle|].
    unfold Interleaving.resume.
    cbn [Interleaving.suspend Interleaving.waiting Interleaving.manager app].
    rewrite bool_decide_eq_true_2 by apply list_elem_of_here. reflexivity. }
  destruct (OpcUaClient.isConnected client) eqn:Hconnected; cbn [negb];
    [|rewrite subscribe_disconnected by done; by rewrite !Hidle].
  rewrite subscribe_connected by done.
  destruct (subscription m) as [sub|] eqn:Hsub; cbn [isSome].
  - rewrite ensure_subscription_present by done.
    assert (Interleaving.resume e client node Subscribing.ForSubscription
              (Interleaving.guard node
                 {| Interleaving.manager := m; Interleaving.waiting := [] |})
            = Interleaving.guard node
                {| Interleaving.manager := m; Interleaving.waiting := [] |}) as Hskip.
    { unfold Interleaving.guard. cbn [Interleaving.manager].
      destruct (isSome (monitoredItems m !! node)); [by rewrite Hidle|].
      unfold Interleaving.resume.
      cbn [Interleaving.suspend Interleaving.waiting Interleaving.manager app].
      rewrite bool_decide_eq_false_2; [done|].
      rewrite list_elem_of_singleton. congruence. }
    rewrite Hskip. destruct (isSome (monitoredItems m !! node)) eqn:Hhas.
    + unfold Interleaving.guard. cbn [Interleaving.manager]. rewrite Hhas, Hidle by done.
      rewrite monitor_finish, Hhas. reflexivity.
    + apply Hrest.
  - rewrite ensure_subscription_absent by done.
    destruct (initSubscription e client m) as [[[]|err] m0]; cbn [final_state snd].
    + unfold Interleaving.resume at 2.
      cbn [Interleaving.suspend Interleaving.waiting Interleaving.manager app].
      rewrite bool_decide_eq_true_2 by apply list_elem_of_here.
      cbn [Interleaving.leave]. rewrite bool_decide_eq_true_2 by done.
      apply Hrest.
    + by rewrite !Hidle.
Qed.

(** As long as [terminate()] does not raise and no two calls of [subscribe]
    for one node are between the guard and [this.monitoredItems.set] at the
    same time, the manager loses no monitored item, however the calls
    overlap otherwise: a monitored item of the stack that is still live is
    the one the map holds for its node, so that no node has two live
    monitored items. *)
Theorem run_loses_no_item (e : env) (client : OpcUaClient.t) (first_object : nat)
    (evs : list Interleaving.event) (node : string) :
  Forall (fun ev => terminates (Interleaving.stack_of ev)) evs ->
  Interleaving.exclusive (Interleaving.start (constructor e client first_object)) evs ->
  let m := Interleaving.manager
             (Interleaving.run (Interleaving.start (constructor e client first_object))
                evs) in
  (forall item, In item (live_for m node) -> monitoredItems m !! node = Some item)
  /\ length (live_for m node) <= 1.
Proof.
  intros Hevs Hexclusive. cbv zeta.
  assert (Interleaving.steady (Interleaving.start (constructor e client first_object)))
    as Hstart.
  { split; [|split].
    - eapply quiet_consistent; [apply constructor_quiet | apply fresh_consistent].
    - eapply quiet_accounted; [apply constructor_quiet|]. by intros item [].
    - intros node' Hin. by apply elem_of_nil in Hin. }
  destruct (run_steady evs _ Hevs Hexclusive Hstart) as (Hm & Haccounted & _).
  set (m := Interleaving.manager _) in *.
  assert (forall item, In item (live_for m node) ->
            In item (created m) /\ monitoredItems m !! node = Some item) as Hlive.
  { intros item. unfold live_for. rewrite filter_In.
    intros [Hin Hitem]. apply andb_true_iff in Hitem as [Hnode Hlive].
    apply String.eqb_eq in Hnode. split; [done|]. rewrite <- Hnode.
    apply Haccounted; [done|]. unfold live in Hlive.
    apply andb_true_iff in Hlive as [Hlive _]. apply negb_true_iff in Hlive.
    by apply bool_decide_eq_false in Hlive. }
  split; [intros item Hin; by apply Hlive|].
  assert (NoDup (live_for m node)) as Hdistinct.
  { unfold live_for. apply NoDup_ListNoDup, List.NoDup_filter.
    destruct Hm as (_ & _ & Hdistinct). apply NoDup_ListNoDup in Hdistinct.
    by apply List.NoDup_map_inv in Hdistinct. }
  destruct (live_for m node) as [|item1 [|item2 rest]]; cbn; [lia | lia |].
  exfalso. apply NoDup_cons in Hdistinct as [Hnotin _]. apply Hnotin.
  destruct (Hlive item1) as [_ H1]; [by left|].
  destruct (Hlive item2) as [_ H2]; [right; by left|].
  rewrite H1 in H2. injection H2 as <-. apply list_elem_of_here.
Qed.

Lemma run_loses_no_item_witness :
  length
    (live_for
       (Interleaving.manager
          (Interleaving.run
             (Interleaving.start (constructor Samples.friendly Samples.live_client 0))
             [ Interleaving.Begin
                 {| stack := Samples.friendly; caller := Samples.live_client;
                    request := Subscribe Samples.level |};
               Interleaving.Begin
                 {| stack := Samples.friendly; caller := Samples.live_client;
                    request := Unsubscribe Samples.level |};
               Interleaving.Resume Samples.friendly Samples.live_client Samples.level
                 Subscribing.ForAttributes;
               Interleaving.Begin
                 {| stack := Samples.friendly; caller := Samples.live_client;
                    request := Clear |};
               Interleaving.Begin
                 {| stack := Samples.friendly; caller := Samples.live_client;
                    request := Subscribe Samples.level |};
               Interleaving.Resume Samples.friendly Samples.live_client Samples.level
                 Subscribing.ForSubscription;
               Interleaving.Resume Samples.friendly Samples.live_client Samples.level
                 Subscribing.ForAttributes ]))
       Samples.level) <= 1.
Proof.
  refine (proj2 (run_loses_no_item Samples.friendly Samples.live_client 0 _ Samples.level
                   _ _)).
  - repeat constructor.
  - vm_compute. repeat (split || apply NoDup_nil_2 || apply NoDup_singleton).
Defined.

(** Without that condition an item is lost: two calls of [subscribe] for
    the level sensor pass the guard before either files its item; the stack
    then holds two live monitored items for the node, and the map one. *)
Lemma overlapping_subscribes_lose_an_item :
  length
    (live_for
       (Interleaving.manager
          (Interleaving.run
             (Interleaving.start (constructor Samples.friendly Samples.live_client 0))
             [ Interleaving.Begin
                 {| stack := Samples.friendly; caller := Samples.live_client;
                    request := Subscribe Samples.level |};
               Interleaving.Begin
                 {| stack := Samples.friendly; caller := Samples.live_client;
                    request := Subscribe Samples.level |};
               Interleaving.Resume Samples.friendly Samples.live_client Samples.level
                 Subscribing.ForAttributes;
               Interleaving.Resume Samples.friendly Samples.live_client Samples.level
                 Subscribing.ForAttributes ]))
       Samples.level) = 2.
Proof. vm_compute. reflexivity. Qed.

End ManagerCalls.

(** ** The "changed" listener over a stream of notifications *)

Section NotificationRuns.
Import PrismaStorage ChangedListener Notifications.

Lemma changed_eq e node now dataValue w :
  changed e node now dataValue w
  = (Normal tt,
     if negb (OpcUaClient.StatusCode_same (statusCode dataValue) OpcUaClient.Good) then
       console_write (ConsoleWarn ("Received value with status code "
                                     ++ OpcUaClient.StatusCode_toString
                                          (statusCode dataValue)
                                     ++ " for " ++ node)) w
     else
       let failed err :=
         console_write (ConsoleError ("Error saving reading for " ++ node) err) w in
       let timestamp := default now (sourceTimestamp dataValue) in
       match tag_findFirst e with
       | Throws err => failed err
       | Returns =>
           match List.find (fun tag => String.eqb (tag_nodeId tag) node) (tags w) with
           | None => w
           | Some tag =>
               match reading_create e with
               | Throws err => failed err
               | Returns =>
                   forward {| vc_nodeId := node; vc_value := dv_value dataValue;
                              vc_dataType := dv_dataType dataValue;
                              vc_timestamp := timestamp |}
                     (add_reading {| tagId := tag_id tag;
                                     value := numeric (dv_value dataValue);
                                     quality := OpcUaClient.sc_name (statusCode dataValue);
                                     timestamp := timestamp |} w)
               end
           end
       end).
Proof.
  unfold changed.
  destruct (negb (OpcUaClient.StatusCode_same (statusCode dataValue) OpcUaClient.Good));
    [reflexivity|].
  unfold try_catch, bind, call, get, modify, ret. cbv zeta.
  destruct (tag_findFirst e); [|reflexivity].
  destruct (List.find _ (tags w)) as [tag|]; [|reflexivity].
  by destruct (reading_create e).
Qed.

Lemma deliver_step (w : t) (n : notification) :
  tags (deliver w n) = tags w
  /\ ((readings (deliver w n) = readings w /\ forwarded (deliver w n) = forwarded w)
      \/ exists r v,
           readings (deliver w n) = (readings w ++ [r])%list
           /\ forwarded (deliver w n) = (forwarded w ++ [v])%list
           /\ stored_as (tags w) r v
           /\ vc_nodeId v = node n /\ vc_value v = dv_value (data n)
           /\ statusCode (data n) = OpcUaClient.Good).
Proof.
  unfold deliver. rewrite changed_eq. cbn [final_state snd].
  destruct (OpcUaClient.StatusCode_same (statusCode (data n)) OpcUaClient.Good) eqn:Hsame;
    cbn [negb]; [|by split; [|left]].
  apply StatusCode_same_eq in Hsame. cbv zeta.
  destruct (tag_findFirst (prisma n)); [|by split; [|left]].
  destruct (List.find _ (tags w)) as [tag|] eqn:Hfind; [|by split; [|left]].
  destruct (reading_create (prisma n)); [|by split; [|left]].
  split; [done|]. right. eexists _, _. split; [reflexivity|]. split; [reflexivity|].
  apply find_some in Hfind as [Hin Hnode]. apply String.eqb_eq in Hnode.
  unfold stored_as. cbn. rewrite Hsame. repeat split; try done. by exists tag.
Qed.

(** However many notifications arrive, and whichever of them fail to be
    stored: the listener returns for each of them, it never throws; the
    readings stored and the value changes handed to the callback grow in
    step.  Each forwarded value change has its reading, with the same
    timestamp, quality "Good", the tag of its node, and the number it
    carries (null when the value is no number); nothing is forwarded that
    was not stored, and the table of tags is not written. *)
Theorem notifications_store_what_they_forward (w : t) (ns : list notification) :
  let w' := run w ns in
  (forall n before, In n ns ->
     completed (changed (prisma n) (node n) (arrival n) (data n) before) = Normal tt)
  /\ tags w' = tags w
  /\ exists rs vs,
       readings w' = (readings w ++ rs)%list
       /\ forwarded w' = (forwarded w ++ vs)%list
       /\ Forall2 (stored_as (tags w)) rs vs
       /\ Forall (fun v => exists n, In n ns /\ vc_nodeId v = node n
                                     /\ vc_value v = dv_value (data n)
                                     /\ statusCode (data n) = OpcUaClient.Good) vs.
Proof.
  cbv zeta. split; [intros n before _; by rewrite changed_eq|].
  cbv zeta. unfold run. revert w.
  induction ns as [|n rest IH]; intros w.
  - cbn. split; [done|]. exists [], []. rewrite !app_nil_r. by repeat split.
  - cbn [fold_left].
    destruct (IH (deliver w n)) as (Htags & rs & vs & Hreadings & Hforwarded & Hstored & Hfrom).
    destruct (deliver_step w n) as [Htags1 Hstep].
    rewrite Htags, Hreadings, Hforwarded, Htags1. split; [done|].
    assert (Forall (fun v => exists n', In n' (n :: rest) /\ vc_nodeId v = node n'
                                       /\ vc_value v = dv_value (data n')
                                       /\ statusCode (data n') = OpcUaClient.Good) vs)
      as Hfrom'.
    { eapply Forall_impl; [exact Hfrom|]. intros v (n' & Hin & Hrest).
      exists n'. split; [by right | done]. }
    rewrite Htags1 in Hstored.
    destruct Hstep as [[-> ->] | (r & v & -> & -> & Hrv & Hnode & Hvalue & Hgood)].
    + by exists rs, vs.
    + exists (r :: rs), (v :: vs). rewrite <- !app_assoc. cbn [app].
      repeat split; try done; constructor; try done.
      exists n. split; [by left | done].
Qed.

End NotificationRuns.

(** ** Batching over any number of windows *)

Section BatchingRuns.
Import Routes BatchRuns.

Lemma batches_sent_to_app client (es es' : list effect) :
  batches_sent_to client (es ++ es')
  = (batches_sent_to client es ++ batches_sent_to client es')%list.
Proof. apply omap_app. Qed.

Lemma step_armed (w : t) (ev : event) client :
  armed w -> NoDup (List.map fst (clients w)) -> In (client, OPEN) (clients w) ->
  armed (step w ev)
  /\ clients (step w ev) = clients w
  /\ exists batches,
       batches_sent_to client (effects (step w ev))
       = (batches_sent_to client (effects w) ++ batches)%list
       /\ (concat batches ++ valueChangeBatch (step w ev))%list
          = (valueChangeBatch w ++ arrived [ev])%list
       /\ Forall (fun batch => batch <> []) batches.
Proof.
  unfold armed. intros Harmed Hnodup Hopen. destruct ev as [change|]; cbn [step arrived omap].
  - unfold handleValueChange. cbn. destruct (batchTimeout w) as [timer|] eqn:Htimeout; cbn.
    + rewrite Htimeout. destruct Harmed as [Hbatch Hpending].
      split; [split; [by destruct (valueChangeBatch w) | done]|]. split; [done|].
      exists []. by rewrite app_nil_r.
    + destruct Harmed as [Hbatch Hpending]. rewrite Hbatch, Hpending. cbn.
      split; [by split|]. split; [done|]. exists [].
      unfold batches_sent_to. rewrite omap_app. by cbn.
  - destruct (pending_timers w) as [|timer rest] eqn:Hpending.
    { rewrite Hpending. split; [done|]. split; [done|]. exists [].
      by rewrite !app_nil_r. }
    destruct (batchTimeout w) as [timer'|] eqn:Htimeout; [|by destruct Harmed].
    destruct Harmed as [Hbatch [= -> ->]].
    unfold sendBatchedValueChanges. cbn.
    destruct (valueChangeBatch w) as [|change batch] eqn:Hcontent; [done|]. cbn.
    split; [done|]. split; [done|]. exists [change :: batch].
    pose proof (batches_sent_to_deliveries client (change :: batch) (clients w)
                  Hnodup Hopen) as Hsent.
    unfold batches_sent_to, deliveries in Hsent |- *. rewrite omap_app, Hsent. cbn.
    rewrite !app_nil_r. split; [done|]. split; [done|]. by constructor.
Qed.

Lemma run_armed (evs : list event) client : forall w : t,
  armed w -> NoDup (List.map fst (clients w)) -> In (client, OPEN) (clients w) ->
  armed (run w evs)
  /\ exists batches,
       batches_sent_to client (effects (run w evs))
       = (batches_sent_to client (effects w) ++ batches)%list
       /\ (concat batches ++ valueChangeBatch (run w evs))%list
          = (valueChangeBatch w ++ arrived evs)%list
       /\ Forall (fun batch => batch <> []) batches.
Proof.
  induction evs as [|ev rest IH]; intros w Harmed Hnodup Hopen.
  - cbn. split; [done|]. exists []. by rewrite !app_nil_r.
  - rewrite run_cons.
    destruct (step_armed w ev client Harmed Hnodup Hopen)
      as (Harmed1 & Hclients & batches1 & Hsent1 & Hkept1 & Hfull1).
    destruct (IH (step w ev) Harmed1) as (Hrest & batches & Hsent & Hkept & Hfull);
      [by rewrite Hclients | by rewrite Hclients |].
    split; [exact Hrest|]. exists (batches1 ++ batches)%list.
    rewrite Hsent, Hsent1, <- app_assoc. split; [done|].
    rewrite concat_app, <- app_assoc, Hkept.
    change (ev :: rest) with ([ev] ++ rest)%list. unfold arrived in *.
    rewrite omap_app, !app_assoc. rewrite Hkept1. split; [done|].
    by apply Forall_app.
Qed.

(** Batching neither loses, nor repeats, nor reorders a value change.
    Starting with nothing accumulated, after any sequence of value changes
    and timer expiries, the batches sent to an open client, put end to end,
    followed by the batch being accumulated, are exactly the value changes
    in the order of their arrival; no empty batch is sent, and a timer is
    pending exactly while the batch is not empty. *)
Theorem batching_loses_nothing (w : t) (evs : list event) (client : nat) :
  quiescent w -> NoDup (List.map fst (clients w)) -> In (client, OPEN) (clients w) ->
  let w' := run w evs in
  (exists batches,
     batches_sent_to client (effects w')
     = (batches_sent_to client (effects w) ++ batches)%list
     /\ (concat batches ++ valueChangeBatch w')%list = arrived evs
     /\ Forall (fun batch => batch <> []) batches)
  /\ (valueChangeBatch w' = [] <-> batchTimeout w' = None)
  /\ length (pending_timers w') <= 1.
Proof.
  intros (Hbatch & Htimeout & Hpending) Hnodup Hopen. cbv zeta.
  assert (armed w) as Harmed by (unfold armed; by rewrite Htimeout).
  destruct (run_armed evs client w Harmed Hnodup Hopen)
    as (Harmed' & batches & Hsent & Hkept & Hfull).
  rewrite Hbatch in Hkept. split; [by exists batches|].
  unfold armed in Harmed'. destruct (batchTimeout (run w evs)) as [timer|].
  - destruct Harmed' as [Hsome ->]. cbn. split; [split; done | lia].
  - destruct Harmed' as [-> ->]. cbn. split; [done | lia].
Qed.

Lemma batching_loses_nothing_witness :
  exists batches,
    batches_sent_to 2
      (effects (run Samples.idle_routes
                  [ValueChanged (Samples.level_at 1.5 10); TimerFired;
                   ValueChanged (Samples.level_at 1.75 20)]))
    = (batches_sent_to 2 (effects Samples.idle_routes) ++ batches)%list
    /\ (concat batches
        ++ valueChangeBatch
             (run Samples.idle_routes
                [ValueChanged (Samples.level_at 1.5 10); TimerFired;
                 ValueChanged (Samples.level_at 1.75 20)]))%list
       = [Samples.level_at 1.5 10; Samples.level_at 1.75 20].
Proof.
  destruct (batching_loses_nothing Samples.idle_routes
              [ValueChanged (Samples.level_at 1.5 10); TimerFired;
               ValueChanged (Samples.level_at 1.75 20)] 2)
    as [(batches & Hsent & Hkept & _) _].
  - by repeat split.
  - cbn. repeat constructor; rewrite ?elem_of_cons, ?elem_of_nil; lia.
  - cbn. tauto.
  - exists batches. split; [exact Hsent | exact Hkept].
Defined.

End BatchingRuns.

(** ** The registry of pending requests, and a browse from end to end *)

Section RegistryRuns.
Import OpcUaProvider Registry.

Lemma startsWith_browse node : startsWith ("browse_" ++ node) "browse_" = true.
Proof. unfold startsWith. cbn. by destruct node. Qed.

Lemma settle_promises q v st p :
  promises (settle q v st) !! p
  = if decide (p = q) then
      match promises st !! q with
      | Some Pending => Some v
      | current => current
      end
    else promises st !! p.
Proof.
  unfold settle. case_decide as Heq.
  - subst p. destruct (promises st !! q) as [[| |]|] eqn:Hq; cbn; rewrite ?Hq; try done.
    apply lookup_insert_eq.
  - destruct (promises st !! q) as [[| |]|]; cbn; try done. by rewrite lookup_insert_ne.
Qed.

(** Settling the promise of an entry and removing the entry. *)
Lemma settle_delete_well_formed id h v st :
  well_formed st -> responseHandlers st !! id = Some h ->
  well_formed (set_responseHandlers (delete id (responseHandlers (settle (h_promise h) v st)))
                 (settle (h_promise h) v st)).
Proof.
  intros (Hdom & Hentries & Hdistinct) Hh.
  destruct (settle_frame (h_promise h) v st) as (Hhandlers & Hnext & _).
  unfold well_formed. cbn. rewrite Hhandlers, Hnext. split; [|split].
  - intros p. rewrite settle_promises. case_decide as Heq.
    + subst p. intros _. apply Hdom. destruct (Hentries id h Hh) as [-> _]. done.
    + apply Hdom.
  - intros id' h'. rewrite lookup_delete_Some. intros [Hne Hh'].
    destruct (Hentries id' h' Hh') as [Hpending Hprefix]. split; [|done].
    rewrite settle_promises. case_decide as Heq; [|done].
    exfalso. apply Hne. by apply (Hdistinct id id' h h').
  - intros id1 id2 h1 h2. rewrite !lookup_delete_Some. intros [_ H1] [_ H2].
    by apply Hdistinct.
Qed.

Lemma settle_delete_settled id h v st p w :
  promises st !! p = Some w -> w <> Pending ->
  promises (set_responseHandlers (delete id (responseHandlers (settle (h_promise h) v st)))
              (settle (h_promise h) v st)) !! p = Some w.
Proof.
  intros Hp Hw. cbn. rewrite settle_promises. case_decide as Heq; [|done].
  subst p. rewrite Hp. by destruct w.
Qed.

Lemma on_message_well_formed data st :
  well_formed st -> well_formed (on_message data st).
Proof.
  intros Hst. destruct data as [node nodes | [requestId|] message |]; cbn; try done.
  - destruct (truthy node); [|done].
    destruct (responseHandlers st !! ("browse_" ++ node)) as [h|] eqn:Hh; [|done].
    rewrite <- (proj1 (settle_frame (h_promise h) (Fulfilled (default [] nodes)) st)).
    by apply settle_delete_well_formed.
  - destruct (truthy requestId); [|done].
    destruct (responseHandlers st !! requestId) as [h|] eqn:Hh; [|done].
    match goal with |- context [settle ?q ?v st] =>
      rewrite <- (proj1 (settle_frame q v st))
    end.
    by apply settle_delete_well_formed.
Qed.

Lemma on_message_settled data st p w :
  promises st !! p = Some w -> w <> Pending -> promises (on_message data st) !! p = Some w.
Proof.
  intros Hp Hw. destruct data as [node nodes | [requestId|] message |]; cbn; try done.
  - destruct (truthy node); [|done].
    destruct (responseHandlers st !! ("browse_" ++ node)) as [h|] eqn:Hh; [|done].
    rewrite <- (proj1 (settle_frame (h_promise h) (Fulfilled (default [] nodes)) st)).
    by apply settle_delete_settled.
  - destruct (truthy requestId); [|done].
    destruct (responseHandlers st !! requestId) as [h|] eqn:Hh; [|done].
    match goal with |- context [settle ?q ?v st] =>
      rewrite <- (proj1 (settle_frame q v st))
    end.
    by apply settle_delete_settled.
Qed.

Lemma expire_eq now st id h :
  expire now st (id, h)
  = if expired now h then
      let v := if startsWith id "browse_" then Fulfilled []
               else Rejected "Tempo limite esgotado" in
      set_responseHandlers (delete id (responseHandlers (settle (h_promise h) v st)))
        (settle (h_promise h) v st)
    else st.
Proof. unfold expire. destruct (expired now h); [|done]. by destruct (startsWith id _). Qed.

(** The loop of the sweep over entries of the registry. *)
Lemma fold_expire_well_formed now (l : list (string * handler)) : forall st,
  well_formed st -> NoDup l.*1 ->
  (forall id h, (id, h) ∈ l -> responseHandlers st !! id = Some h) ->
  let st' := fold_left (expire now) l st in
  well_formed st'
  /\ (forall p w, promises st !! p = Some w -> w <> Pending -> promises st' !! p = Some w)
  /\ (forall id h, (id, h) ∈ l -> expired now h = true ->
        promises st' !! h_promise h = Some (Fulfilled [])).
Proof.
  induction l as [|[id h] l IH]; intros st Hst Hkeys Hin; cbv zeta.
  - cbn. split; [done|]. split; [done|]. intros id h Hnone. by apply elem_of_nil in Hnone.
  - cbn [fold_left]. cbn in Hkeys. apply NoDup_cons in Hkeys as [Hfresh Hkeys].
    assert (responseHandlers st !! id = Some h) as Hh by (apply Hin, list_elem_of_here).
    assert (well_formed (expire now st (id, h))) as Hst1.
    { rewrite expire_eq. destruct (expired now h); [|done].
      by apply settle_delete_well_formed. }
    assert (forall p w, promises st !! p = Some w -> w <> Pending ->
              promises (expire now st (id, h)) !! p = Some w) as Hkept1.
    { intros p w Hp Hw. rewrite expire_eq. destruct (expired now h); [|done].
      by apply settle_delete_settled. }
    assert (forall id' h', (id', h') ∈ l ->
              responseHandlers (expire now st (id, h)) !! id' = Some h') as Hin1.
    { intros id' h' Hl. assert (id' <> id) as Hne.
      { intros ->. apply Hfresh. apply list_elem_of_fmap. by exists (id, h'). }
      rewrite expire_eq. destruct (expired now h); cbv zeta; cbn.
      - rewrite (proj1 (settle_frame _ _ st)), lookup_delete_ne by done.
        apply Hin. by apply list_elem_of_further.
      - apply Hin. by apply list_elem_of_further. }
    destruct (IH _ Hst1 Hkeys Hin1) as (Hst' & Hkept & Hexpired).
    split; [done|]. split; [intros p w Hp Hw; apply Hkept; [by apply Hkept1 | done]|].
    intros id' h' Hl Hold. apply elem_of_cons in Hl as [[= -> ->] | Hl];
      [|by apply (Hexpired id')].
    apply Hkept; [|done]. rewrite expire_eq, Hold. cbv zeta. cbn.
    destruct Hst as (_ & Hentries & _). destruct (Hentries id h Hh) as [Hpending ->].
    rewrite settle_promises, decide_True by done. by rewrite Hpending.
Qed.

Lemma sweep_well_formed now st :
  well_formed st ->
  well_formed (sweep now st)
  /\ (forall p w, promises st !! p = Some w -> w <> Pending ->
        promises (sweep now st) !! p = Some w)
  /\ (forall id h, responseHandlers st !! id = Some h -> expired now h = true ->
        promises (sweep now st) !! h_promise h = Some (Fulfilled [])).
Proof.
  intros Hst. unfold sweep.
  destruct (fold_expire_well_formed now (map_to_list (responseHandlers st)) st Hst)
    as (Hst' & Hkept & Hexpired).
  - apply NoDup_fst_map_to_list.
  - intros id h. by rewrite elem_of_map_to_list.
  - split; [done|]. split; [done|]. intros id h Hh. apply (Hexpired id).
    by rewrite elem_of_map_to_list.
Qed.

Lemma browseNodes_well_formed isConnected wsConnected requestSent now node st :
  well_formed st ->
  let st' := snd (browseNodes isConnected wsConnected requestSent now node st) in
  well_formed st'
  /\ (forall p w, promises st !! p = Some w -> w <> Pending -> promises st' !! p = Some w).
Proof.
  intros Hst. pose proof Hst as (Hdom & Hentries & Hdistinct). cbv zeta.
  unfold browseNodes.
  destruct isConnected; [|done]. destruct wsConnected; [|done].
  cbn [negb]. unfold new_promise. cbv zeta.
  assert (forall id h, responseHandlers st !! id = Some h -> h_promise h <> next_promise st)
    as Hold.
  { intros id h Hh Heq. destruct (Hentries id h Hh) as [Hpending _].
    rewrite Heq in Hpending. assert (next_promise st < next_promise st); [|lia].
    apply Hdom. by rewrite Hpending. }
  assert (forall p w, promises st !! p = Some w -> p <> next_promise st) as Hbelow.
  { intros p w Hp ->. assert (next_promise st < next_promise st); [|lia].
    apply Hdom. by rewrite Hp. }
  destruct requestSent; cbn [negb snd].
  - unfold well_formed. cbn. split; [split; [|split]|].
    + intros p. rewrite lookup_insert. case_decide; [intros _; lia|].
      intros Hp. specialize (Hdom p Hp). lia.
    + intros id h. rewrite lookup_insert. case_decide as Hid.
      * intros [= <-]. cbn. rewrite lookup_insert_eq. split; [done|].
        subst id. apply startsWith_browse.
      * intros Hh. destruct (Hentries id h Hh) as [Hpending Hprefix].
        rewrite lookup_insert_ne; [done|]. intros Heq. by apply (Hold id h Hh).
    + intros id id' h h'. rewrite !lookup_insert.
      case_decide as Hid; case_decide as Hid'; try congruence.
      * intros [= <-] Hh'. cbn. intros Heq. exfalso. by apply (Hold id' h' Hh').
      * intros Hh [= <-]. cbn. intros Heq. exfalso. by apply (Hold id h Hh).
      * apply Hdistinct.
    + intros p w Hp Hw. rewrite lookup_insert_ne; [done|]. intros Heq.
      by apply (Hbelow p w Hp).
  - unfold settle. cbn. rewrite lookup_insert_eq. cbn.
    rewrite insert_insert_eq, delete_insert_eq.
    unfold well_formed. cbn. split; [split; [|split]|].
    + intros p. rewrite lookup_insert. case_decide; [intros _; lia|].
      intros Hp. specialize (Hdom p Hp). lia.
    + intros id h. rewrite lookup_delete_Some. intros [_ Hh].
      destruct (Hentries id h Hh) as [Hpending Hprefix].
      rewrite lookup_insert_ne; [done|]. intros Heq. by apply (Hold id h Hh).
    + intros id id' h h'. rewrite !lookup_delete_Some. intros [_ Hh] [_ Hh'].
      by apply Hdistinct.
    + intros p w Hp Hw. rewrite lookup_insert_ne; [done|]. intros Heq.
      by apply (Hbelow p w Hp).
Qed.

Lemma step_well_formed st ev :
  well_formed st ->
  well_formed (step st ev)
  /\ (forall p w, promises st !! p = Some w -> w <> Pending ->
        promises (step st ev) !! p = Some w).
Proof.
  intros Hst. destruct ev as [node now requestSent | data | now]; cbn [step].
  - by apply browseNodes_well_formed.
  - split; [by apply on_message_well_formed | intros p w; by apply on_message_settled].
  - destruct (sweep_well_formed now st Hst) as (Hst' & Hkept & _). done.
Qed.

Lemma run_well_formed (evs : list event) : forall st,
  well_formed st ->
  well_formed (run st evs)
  /\ (forall p w, promises st !! p = Some w -> w <> Pending ->
        promises (run st evs) !! p = Some w).
Proof.
  induction evs as [|ev evs IH]; intros st Hst; [done|].
  cbn. destruct (step_well_formed st ev Hst) as [Hst1 Hkept1].
  destruct (IH _ Hst1) as [Hst' Hkept]. split; [done|].
  intros p w Hp Hw. apply Hkept; [by apply Hkept1 | done].
Qed.

Lemma initial_well_formed : well_formed initial.
Proof.
  unfold well_formed, initial. cbn. repeat split.
  - intros p [v Hp]. by rewrite lookup_empty in Hp.
  - by rewrite lookup_empty in H.
  - by rewrite lookup_empty in H.
  - intros id id' h h' Hh. by rewrite lookup_empty in Hh.
Qed.

(** As long as an entry is in the registry, its request gets an answer.
    After any history, the promise of an entry is pending; the
    [browse_result] for the node of the entry fulfils it with the nodes of
    the result, an [error] with its key rejects it, and the first sweep more
    than thirty seconds after its registration fulfils it with the empty
    list; in each case the entry is removed. *)
Theorem registered_request_is_answered (evs : list event) (id : string) (h : handler) :
  let st := run initial evs in
  responseHandlers st !! id = Some h ->
  promises st !! h_promise h = Some Pending
  /\ (forall node nodes, id = "browse_" ++ node -> node <> "" ->
        let st' := on_message (browse_result node nodes) st in
        promises st' !! h_promise h = Some (Fulfilled (default [] nodes))
        /\ responseHandlers st' !! id = None)
  /\ (forall message,
        let st' := on_message (error (Some id) (Some message)) st in
        promises st' !! h_promise h
        = Some (Rejected (if truthy message then message else "Erro na requisição"))
        /\ responseHandlers st' !! id = None)
  /\ (forall now, (30000 < now - h_timestamp h)%Z ->
        promises (sweep now st) !! h_promise h = Some (Fulfilled [])
        /\ responseHandlers (sweep now st) !! id = None).
Proof.
  cbv zeta. intros Hh.
  destruct (run_well_formed evs initial initial_well_formed) as [Hst _].
  set (st := run initial evs) in *.
  pose proof Hst as (_ & Hentries & _). destruct (Hentries id h Hh) as [Hpending Hprefix].
  split; [done|]. split; [|split].
  - intros node nodes -> Hnode. apply on_message_browse_result; try done.
    unfold truthy. apply negb_true_iff. by apply String.eqb_neq.
  - intros message. cbn.
    assert (truthy id = true) as ->.
    { unfold truthy. destruct id; [discriminate | done]. }
    rewrite Hh. cbn. rewrite settle_promises, decide_True, Hpending by done.
    split; [done | apply lookup_delete_eq].
  - intros now Hold. assert (expired now h = true) as Hexpired.
    { unfold expired. by apply Z.ltb_lt. }
    destruct (sweep_well_formed now st Hst) as (_ & _ & Hswept).
    split; [by apply (Hswept id) | by apply (sweep_removes_expired now st id h)].
Qed.

Lemma registered_request_is_answered_witness :
  promises (sweep 32000 (run initial [Browse "ns=2;s=Tanks" 1000 true])) !! 0
  = Some (Fulfilled []).
Proof.
  refine (proj1 (proj2 (proj2 (proj2
            (registered_request_is_answered [Browse "ns=2;s=Tanks" 1000 true]
               "browse_ns=2;s=Tanks" {| h_promise := 0; h_timestamp := 1000 |} _)))
            32000%Z _)); [vm_compute; reflexivity | reflexivity].
Defined.

End RegistryRuns.

Section BrowseRoundTrip.
Import OpcUaProvider WebSocketServer.

(** A run of the effect that finds no entry changes nothing. *)
Lemma on_message_unanswered data st :
  (forall id, Browser.answers id data = true -> responseHandlers st !! id = None) ->
  OpcUaProvider.on_message data st = st.
Proof.
  intros Hnone. destruct data as [node nodes|[id|] message|]; cbn; try done.
  - destruct (truthy node) eqn:Hnode; [|done].
    rewrite (Hnone ("browse_" ++ node)); [done|].
    cbn. by rewrite Hnode, String.eqb_refl.
  - destruct (truthy id) eqn:Hid; [|done].
    rewrite (Hnone id); [done|]. cbn. by rewrite Hid, String.eqb_refl.
Qed.

(** A run of the effect removes the entry it settles: at rest, the last
    message has no entry left. *)
Lemma at_rest_unanswered b data id :
  Browser.at_rest b -> Browser.lastMessage b = Some data ->
  Browser.answers id data = true -> responseHandlers (Browser.provider b) !! id = None.
Proof.
  unfold Browser.at_rest, Browser.effect. intros Hrest Hlast Hanswers.
  rewrite Hlast in Hrest.
  assert (OpcUaProvider.on_message data (Browser.provider b) = Browser.provider b) as Hsame
    by (by rewrite <- Hrest at 2).
  destruct (responseHandlers (Browser.provider b) !! id) as [h|] eqn:Hh; [|done].
  exfalso.
  assert (responseHandlers (OpcUaProvider.on_message data (Browser.provider b)) !! id = None) as Hgone.
  { destruct data as [node nodes|[id'|] message|]; cbn in Hanswers; try done.
    - apply andb_true_iff in Hanswers as [Hnode Heq]. apply String.eqb_eq in Heq. subst id.
      cbn. rewrite Hnode, Hh. cbn. apply lookup_delete_eq.
    - apply andb_true_iff in Hanswers as [Hid Heq]. apply String.eqb_eq in Heq. subst id'.
      cbn. rewrite Hid, Hh. cbn. apply lookup_delete_eq. }
  rewrite Hsame, Hh in Hgone. discriminate.
Qed.

Lemma on_message_sent data st : sent (OpcUaProvider.on_message data st) = sent st.
Proof.
  assert (forall p v, sent (settle p v st) = sent st) as Hsettle.
  { intros p v. unfold settle. by destruct (promises st !! p) as [[]|]. }
  destruct data as [node nodes|[id|] message|]; cbn; try done.
  - destruct (truthy node); [|done].
    destruct (responseHandlers st !! ("browse_" ++ node)); [|done]. cbn. apply Hsettle.
  - destruct (truthy id); [|done].
    destruct (responseHandlers st !! id); [|done]. cbn. apply Hsettle.
Qed.

Lemma effect_sent b : sent (Browser.provider (Browser.effect b)) = sent (Browser.provider b).
Proof.
  unfold Browser.effect. destruct (Browser.lastMessage b); [|done].
  cbn. apply on_message_sent.
Qed.

(** After any message and after any call of [browseNodes] the browser is at
    rest. *)
Lemma effect_at_rest b : Browser.at_rest (Browser.effect b).
Proof.
  unfold Browser.at_rest.
  destruct b as [st [data|]]; [|reflexivity].
  unfold Browser.effect, Browser.set_provider. cbn [Browser.lastMessage Browser.provider].
  f_equal. apply on_message_unanswered. intros id Hanswers.
  destruct data as [node nodes|[id'|] message|]; cbn in Hanswers; try done.
  - apply andb_true_iff in Hanswers as [Hnode Heq]. apply String.eqb_eq in Heq. subst id.
    cbn. rewrite Hnode.
    destruct (responseHandlers st !! ("browse_" ++ node)) eqn:Hh; [|done].
    cbn. apply lookup_delete_eq.
  - apply andb_true_iff in Hanswers as [Hid Heq]. apply String.eqb_eq in Heq. subst id'.
    cbn. rewrite Hid.
    destruct (responseHandlers st !! id) eqn:Hh; [|done].
    cbn. apply lookup_delete_eq.
Qed.

(** A browse from the browser to the server and back.  [browseNodes(n)]
    creates a promise, files it under [browse_n] and sends the request; the
    change of the registry makes the effect run again on the last message.

    When the browser is at rest and the last message does not answer
    [browse_n], the promise waits for the server: when the server is
    connected and its browse returns, the promise is fulfilled with the
    nodes in the order of the server, provided [n] is not the empty string;
    when the browse throws, the promise is rejected with "Error browsing
    node: " and the message thrown; in both cases the entry is removed.
    When the server is not connected, its error message carries no request
    id and the promise stays pending, its entry in place.

    When the last message is an earlier result for [n], or an earlier error
    for [browse_n], it settles the new promise at once, and the answer of
    the server changes nothing. *)
Theorem browse_round_trip (env : OpcUaClient.browse_env)
    (opcUaClient : option OpcUaClient.t) (node : string) (now : Z) (b : Browser.t) :
  let requestId := "browse_" ++ node in
  let r := Browser.browseNodes true true true now node b in
  let st1 := Browser.provider (snd r) in
  let st2 := Browser.provider
               (Browser.answer (WebSocketServer.on_message env opcUaClient
                                  (browse node (Some requestId))) (snd r)) in
  let p := next_promise (Browser.provider b) in
  fst r = Some p
  /\ sent st1 = (sent (Browser.provider b) ++ [(node, requestId)])%list
  /\ (Browser.at_rest b -> Browser.stale requestId b = false ->
        responseHandlers st1 !! requestId = Some {| h_promise := p; h_timestamp := now |}
        /\ promises st1 !! p = Some Pending
        /\ (forall c nodes,
              opcUaClient = Some c -> OpcUaClient.isConnected c = true ->
              OpcUaClient.browse env c node = Normal nodes -> node <> "" ->
              promises st2 !! p = Some (Fulfilled (List.map OpcUaClient.nodeId nodes))
              /\ responseHandlers st2 !! requestId = None)
        /\ (forall c err,
              opcUaClient = Some c -> OpcUaClient.isConnected c = true ->
              OpcUaClient.browse env c node = Thrown err ->
              promises st2 !! p
              = Some (Rejected ("Error browsing node: " ++ or_else (Some err) "Unknown error"))
              /\ responseHandlers st2 !! requestId = None)
        /\ (connected opcUaClient = false -> st2 = st1))
  /\ (forall earlier,
        Browser.lastMessage b = Some (OpcUaProvider.browse_result node earlier) -> node <> "" ->
        promises st1 !! p = Some (Fulfilled (default [] earlier))
        /\ responseHandlers st1 !! requestId = None
        /\ st2 = st1)
  /\ (forall message,
        Browser.lastMessage b = Some (OpcUaProvider.error (Some requestId) (Some message)) ->
        promises st1 !! p
        = Some (Rejected (if truthy message then message else "Erro na requisição"))
        /\ responseHandlers st1 !! requestId = None
        /\ st2 = st1).
Proof.
  cbv zeta. unfold Browser.browseNodes, browseNodes, new_promise. cbn [negb fst snd].
  set (st3 := record_sent _ _ _).
  assert (responseHandlers st3 !! ("browse_" ++ node)
          = Some {| h_promise := next_promise (Browser.provider b); h_timestamp := now |})
    as Hentry by (subst st3; cbn; apply lookup_insert_eq).
  assert (promises st3 !! next_promise (Browser.provider b) = Some Pending) as Hpending
    by (subst st3; cbn; apply lookup_insert_eq).
  assert (truthy ("browse_" ++ node) = true) as Hkey by done.
  (* the replies of the server find no entry once the entry is gone *)
  assert (forall st last,
            responseHandlers st !! ("browse_" ++ node) = None ->
            Browser.provider
              (Browser.answer (WebSocketServer.on_message env opcUaClient
                                 (browse node (Some ("browse_" ++ node))))
                 {| Browser.provider := st; Browser.lastMessage := last |}) = st) as Hlate.
  { intros st last Hgone. cbn [WebSocketServer.on_message].
    assert (forall data, Browser.provider
                           (Browser.receive data
                              {| Browser.provider := st; Browser.lastMessage := last |})
                         = OpcUaProvider.on_message data st) as Hreceive by done.
    assert (or_else (Some ("browse_" ++ node)) ("browse_" ++ node) = "browse_" ++ node)
      as Hid by done.
    destruct opcUaClient as [c|]; [destruct (OpcUaClient.isConnected c);
      [destruct (OpcUaClient.browse env c node) as [nodes|err]|]|];
      cbn [Browser.answer fold_left received]; rewrite Hreceive, ?Hid; cbn;
      rewrite ?Hkey, ?Hgone; try done.
    destruct (truthy node); by rewrite ?Hgone. }
  split; [done|].
  split; [by rewrite effect_sent|].
  split; [|split].
  - intros Hrest Hfresh.
    assert (Browser.effect (Browser.set_provider st3 b) = Browser.set_provider st3 b) as ->.
    { unfold Browser.effect, Browser.set_provider. cbn [Browser.lastMessage Browser.provider].
      destruct (Browser.lastMessage b) as [data|] eqn:Hlast; [|done].
      f_equal. apply on_message_unanswered. intros id Hanswers.
      assert (id <> "browse_" ++ node) as Hne.
      { intros ->. unfold Browser.stale in Hfresh. rewrite Hlast in Hfresh. congruence. }
      pose proof (at_rest_unanswered b data id Hrest Hlast Hanswers) as Hnone.
      subst st3. cbn. by rewrite lookup_insert_ne. }
    cbn [Browser.set_provider Browser.provider].
    do 2 (split; [done|]). split; [|split].
    + intros c nodes -> Hconnected Hbrowse Hnode. cbn [WebSocketServer.on_message].
      rewrite Hconnected, Hbrowse. cbn [Browser.answer fold_left received].
      assert (truthy node = true) as Htruthy.
      { unfold truthy. apply negb_true_iff. by apply String.eqb_neq. }
      exact (on_message_browse_result node (Some (List.map OpcUaClient.nodeId nodes)) _ st3
               Htruthy Hentry Hpending).
    + intros c err -> Hconnected Hbrowse. cbn [WebSocketServer.on_message].
      rewrite Hconnected, Hbrowse. cbn [Browser.answer fold_left received or_else].
      assert (("browse_" ++ node =? "")%string = false) as -> by done.
      unfold Browser.receive, Browser.effect, Browser.set_provider.
      cbn [Browser.lastMessage Browser.provider OpcUaProvider.on_message].
      rewrite Hkey, Hentry. cbn [h_promise].
      assert (truthy ("Error browsing node: " ++ (if (err =? "")%string
                                                   then "Unknown error" else err)) = true)
        as -> by done.
      cbn [promises responseHandlers set_responseHandlers].
      split; [|apply lookup_delete_eq].
      by destruct (settle_once (next_promise (Browser.provider b))
                     (Rejected ("Error browsing node: "
                                ++ (if (err =? "")%string then "Unknown error" else err)))
                     Pending st3 Hpending).
    + intros Hdown. destruct opcUaClient as [c|]; cbn in Hdown |- *; [rewrite Hdown|];
        reflexivity.
  - intros earlier Hlast Hnode.
    assert (truthy node = true) as Htruthy.
    { unfold truthy. apply negb_true_iff. by apply String.eqb_neq. }
    assert (Browser.effect (Browser.set_provider st3 b)
            = {| Browser.provider :=
                   OpcUaProvider.on_message (OpcUaProvider.browse_result node earlier) st3;
                 Browser.lastMessage := Browser.lastMessage b |}) as ->.
    { unfold Browser.effect, Browser.set_provider. cbn [Browser.lastMessage Browser.provider].
      by rewrite Hlast. }
    cbn [Browser.provider].
    destruct (on_message_browse_result node earlier _ st3 Htruthy Hentry Hpending)
      as [Hsettled Hgone].
    cbv zeta in Hsettled, Hgone. cbn [h_promise] in Hsettled.
    do 2 (split; [done|]). by apply Hlate.
  - intros message Hlast.
    assert (Browser.effect (Browser.set_provider st3 b)
            = {| Browser.provider :=
                   OpcUaProvider.on_message
                     (OpcUaProvider.error (Some ("browse_" ++ node)) (Some message)) st3;
                 Browser.lastMessage := Browser.lastMessage b |}) as ->.
    { unfold Browser.effect, Browser.set_provider. cbn [Browser.lastMessage Browser.provider].
      by rewrite Hlast. }
    cbn [Browser.provider].
    assert (promises (OpcUaProvider.on_message (OpcUaProvider.error (Some ("browse_" ++ node)) (Some message)) st3)
              !! next_promise (Browser.provider b)
            = Some (Rejected (if truthy message then message else "Erro na requisição"))
            /\ responseHandlers
                 (OpcUaProvider.on_message (OpcUaProvider.error (Some ("browse_" ++ node)) (Some message)) st3)
                 !! ("browse_" ++ node) = None) as [Hsettled Hgone].
    { cbn [OpcUaProvider.on_message]. rewrite Hkey, Hentry. cbn [h_promise].
      cbn [promises responseHandlers set_responseHandlers].
      split; [|apply lookup_delete_eq].
      by destruct (settle_once (next_promise (Browser.provider b))
                     (Rejected (if truthy message then message else "Erro na requisição"))
                     Pending st3 Hpending). }
    do 2 (split; [done|]). by apply Hlate.
Qed.

(** A second browse of a node, made after the answer to the first, is
    settled by that answer. *)
Lemma browse_round_trip_witness :
  promises
    (Browser.provider
       (snd (Browser.browseNodes true true true 2000 "ns=2;s=Tanks"
               (Browser.receive
                  (OpcUaProvider.browse_result "ns=2;s=Tanks" (Some ["ns=2;s=Tank1"]))
                  (snd (Browser.browseNodes true true true 1000 "ns=2;s=Tanks"
                          Browser.initial)))))) !! 1
  = Some (Fulfilled ["ns=2;s=Tank1"]).
Proof.
  pose proof (browse_round_trip Samples.object_types None "ns=2;s=Tanks" 2000
                (Browser.receive
                   (OpcUaProvider.browse_result "ns=2;s=Tanks" (Some ["ns=2;s=Tank1"]))
                   (snd (Browser.browseNodes true true true 1000 "ns=2;s=Tanks"
                           Browser.initial)))) as Hspec.
  cbv zeta in Hspec. destruct Hspec as (_ & _ & _ & Hstale & _).
  destruct (Hstale (Some ["ns=2;s=Tank1"])) as (Hsettled & _).
  - vm_compute. reflexivity.
  - discriminate.
  - exact Hsettled.
Defined.

End BrowseRoundTrip.

(** ** OpcUaClient.connect *)

Section Connect.
Import OpcUaClient Connecting.

Lemma on_object_eq {A} (m : M (S := OpcUaClient.t) A) (w : Connecting.t) :
  on_object m w = (completed (m (object w)), set_object (final_state (m (object w))) w).
Proof. unfold on_object. by destruct (m (object w)). Qed.

(** Leaving the previous connection never fails and keeps the client
    object, the address and the calls made on the stack. *)
Lemma leave_previous_frame e (w : Connecting.t) :
  let r := leave_previous e w in
  completed r = Normal tt
  /\ client (object (final_state r)) = client (object w)
  /\ endpointUrl (object (final_state r)) = endpointUrl (object w)
  /\ calls (final_state r) = calls w
  /\ next_id (final_state r) = next_id w
  /\ (connected (object w) = true -> session (object (final_state r)) = None).
Proof.
  cbv zeta. unfold leave_previous, bind, get.
  destruct (connected (object w)) eqn:Hconnected; [|done].
  rewrite on_object_eq. cbn [completed fst final_state snd perform modify].
  unfold try_catch. rewrite on_object_eq. cbn [completed fst final_state snd object].
  match goal with |- context [disconnect ?env ?c] =>
    destruct (disconnect_frame env c) as (Hclient & Hsession & Hurl & _);
    destruct (disconnect env c) as [[[]|err] c']
  end; cbn in *; rewrite ?on_object_eq; cbn; rewrite Hclient, Hurl, Hsession; done.
Qed.

Lemma initializeClient_eq e options (w : Connecting.t) :
  initializeClient e options w
  = match client_create e with
    | Returns =>
        (Normal tt,
         set_object (set_client (Some (next_id w)) (object w))
           (record (Create (next_id w) options) w))
    | Throws err =>
        (Thrown err,
         set_object (emit (ConsoleError "Erro ao inicializar cliente OPC UA:" err) (object w))
           w)
    end.
Proof.
  unfold initializeClient, try_catch, bind, call, get, modify, throw, on_object, perform.
  by destruct (client_create e).
Qed.

(** Recreating the client touches neither session, flag nor address. *)
Lemma recreate_client_frame e options (w : Connecting.t) :
  let r := recreate_client e options w in
  session (object (final_state r)) = session (object w)
  /\ connected (object (final_state r)) = connected (object w)
  /\ endpointUrl (object (final_state r)) = endpointUrl (object w)
  /\ (isSome (client (object w)) = true -> isSome (client (object (final_state r))) = true)
  /\ (forall err, completed r = Thrown err -> calls (final_state r) = calls w).
Proof.
  cbv zeta. unfold recreate_client, bind, get, on_object, perform, modify, try_catch, call,
    ret.
  cbn. destruct (client (object w)) as [old|] eqn:Hclient; cbn.
  - destruct (old_client_disconnect e); cbn; rewrite initializeClient_eq;
      destruct (client_create e); cbn; rewrite ?Hclient; done.
  - rewrite initializeClient_eq. destruct (client_create e); cbn; rewrite ?Hclient; done.
Qed.

Lemma open_session_eq e options (w : Connecting.t) :
  open_session e options w
  = let cl := default 0 (client (object w)) in
    let w1 := record_connect (Connect cl (opt_endpointUrl options)) w in
    match client_connect e with
    | Throws err => (Thrown err, w1)
    | Returns =>
        let announced c :=
          if isSome (userIdentity options) then
            emit (ConsoleLog ("Autenticando com usuário: " ++ default "" (username options)))
              c
          else c in
        let c2 := emit (ConsoleLog "Criando sessão OPC UA...") (announced (object w1)) in
        match client_createSession e with
        | Throws err => (Thrown err, set_object c2 w1)
        | Returns =>
            (Normal tt,
             set_object
               (notify onConnected
                  (emit (ConsoleLog "Conectado com sucesso ao servidor OPC UA:")
                     (set_connected true (set_session (Some (next_id w)) c2))))
               (record (CreateSession cl (userIdentity options) (next_id w)) w1))
        end
    end.
Proof.
  unfold open_session, bind, get, modify, call, on_object, perform, ret. cbv zeta.
  destruct (client_connect e); [|reflexivity].
  destruct (isSome (userIdentity options)); cbn;
    destruct (client_createSession e); reflexivity.
Qed.

(** What the [try] block of [connect] leaves behind. *)
Lemma connect_eq e options (w : Connecting.t) :
  isSome (client (object w)) = true ->
  connect e options w
  = let failed err w' :=
      (Thrown err,
       set_object
         (set_connected false
            (emit (ConsoleError "Erro ao conectar ao servidor OPC UA:" err) (object w')))
         w') in
    let w0 :=
      set_object
        (emit (ConsoleLog ("Conectando a " ++ opt_endpointUrl options))
           (set_endpointUrl (opt_endpointUrl options) (object w))) w in
    let w1 := final_state (leave_previous e w0) in
    match security e options with
    | Thrown err => failed err w1
    | Normal recreate =>
        let r2 := match recreate with
                  | Some clientOptions => recreate_client e clientOptions w1
                  | None => (Normal tt, w1)
                  end in
        match completed r2 with
        | Thrown err => failed err (final_state r2)
        | Normal _ =>
            match open_session e options (final_state r2) with
            | (Normal _, w3) => (Normal tt, w3)
            | (Thrown err, w3) => failed err w3
            end
        end
    end.
Proof.
  intros Hclient. unfold connect. unfold bind at 1, get at 1. rewrite Hclient. cbn [negb].
  cbv zeta. unfold try_catch at 1. unfold bind at 1. rewrite on_object_eq.
  cbn [completed fst final_state snd modify]. unfold bind at 1. rewrite on_object_eq.
  cbn [completed fst final_state snd perform modify object set_object].
  unfold bind at 1.
  match goal with |- context [set_object ?c (set_object ?c' w)] =>
    change (set_object c (set_object c' w)) with (set_object c w)
  end.
  match goal with |- context [leave_previous e ?w0] =>
    destruct (leave_previous_frame e w0) as (Hleft & _);
    destruct (leave_previous e w0) as [[[]|?] w1]; [|discriminate]
  end.
  cbn [final_state snd]. unfold bind at 1.
  destruct (security e options) as [[clientOptions|]|err].
  - unfold bind at 1.
    destruct (recreate_client e clientOptions w1) as [[[]|err] w2];
      cbn [completed fst final_state snd].
    + destruct (open_session e options w2) as [[[]|err] w3]; [reflexivity|].
      unfold bind, throw, modify, perform. by rewrite !on_object_eq.
    + unfold bind, throw, modify, perform. by rewrite !on_object_eq.
  - unfold bind at 1, ret at 1. cbn [completed fst final_state snd].
    destruct (open_session e options w1) as [[[]|err] w3]; [reflexivity|].
    unfold bind, throw, modify, perform. by rewrite !on_object_eq.
  - unfold bind, throw, modify, perform. by rewrite !on_object_eq.
Qed.

(** [connect] on an object that has its client: the object is connected
    afterwards exactly when the call returned.  When it returns, the last
    two calls on the stack are the connect to the address of the options
    and the creation of the session, with a user identity exactly when a
    user name and a password are both given; when it throws, the flag
    [connected] is false.  The address of the object is the one of the
    options in both cases. *)
Theorem connect_connected_iff_returns (e : env) (options : OpcUaConnectionOptions)
    (w : Connecting.t) :
  isSome (client (object w)) = true ->
  let r := connect e options w in
  let c' := object (final_state r) in
  endpointUrl c' = opt_endpointUrl options
  /\ (completed r = Normal tt <-> isConnected c' = true)
  /\ (completed r = Normal tt ->
      exists cl s before,
        client c' = Some cl /\ session c' = Some s
        /\ calls (final_state r)
           = (before ++ [Connect cl (opt_endpointUrl options);
                         CreateSession cl (userIdentity options) s])%list)
  /\ (forall err, completed r = Thrown err ->
        connected c' = false
        /\ In (ConsoleError "Erro ao conectar ao servidor OPC UA:" err) (effects c')).
Proof.
  intros Hclient. cbv zeta. rewrite (connect_eq e options w Hclient). cbv zeta.
  match goal with |- context [leave_previous e ?w0] =>
    destruct (leave_previous_frame e w0) as (_ & Hclient1 & Hurl1 & _);
    set (w1 := final_state (leave_previous e w0)) in *
  end.
  cbn in Hclient1, Hurl1.
  assert (forall err (w' : Connecting.t),
            endpointUrl (object w') = opt_endpointUrl options ->
            let r := (Thrown err : completion unit,
                      set_object
                        (set_connected false
                           (emit (ConsoleError "Erro ao conectar ao servidor OPC UA:" err)
                              (object w'))) w') in
            endpointUrl (object (final_state r)) = opt_endpointUrl options
            /\ (completed r = Normal tt <-> isConnected (object (final_state r)) = true)
            /\ (completed r = Normal tt ->
                exists cl s before,
                  client (object (final_state r)) = Some cl
                  /\ session (object (final_state r)) = Some s
                  /\ calls (final_state r)
                     = (before ++ [Connect cl (opt_endpointUrl options);
                                   CreateSession cl (userIdentity options) s])%list)
            /\ (forall err', completed r = Thrown err' ->
                  connected (object (final_state r)) = false
                  /\ In (ConsoleError "Erro ao conectar ao servidor OPC UA:" err')
                       (effects (object (final_state r))))) as Hfailed.
  { intros err w' Hurl. cbn. unfold isConnected. cbn. split; [done|].
    split; [split; discriminate|]. split; [discriminate|].
    intros err' [= <-]. split; [done|]. rewrite in_app_iff. right. by left. }
  destruct (security e options) as [recreate|err]; [|by apply Hfailed].
  assert (exists r2 : completion unit * Connecting.t,
            r2 = match recreate with
                 | Some clientOptions => recreate_client e clientOptions w1
                 | None => (Normal tt, w1)
                 end
            /\ endpointUrl (object (final_state r2)) = opt_endpointUrl options
            /\ isSome (client (object (final_state r2))) = true) as (r2 & <- & Hurl2 & Hclient2).
  { eexists. split; [reflexivity|]. destruct recreate as [clientOptions|].
    - destruct (recreate_client_frame e clientOptions w1) as (_ & _ & -> & Hsome & _).
      split; [done|]. apply Hsome. by rewrite Hclient1.
    - cbn. by rewrite Hclient1. }
  destruct r2 as [[[]|err] w2]; cbn [completed fst final_state snd] in *;
    [|by apply Hfailed].
  rewrite open_session_eq. cbv zeta.
  destruct (client (object w2)) as [cl|] eqn:Hcl; [|discriminate]. cbn [default].
  destruct (client_connect e); [|by apply Hfailed].
  destruct (client_createSession e).
  2: { apply Hfailed. cbn. by destruct (isSome (userIdentity options)). }
  cbn [completed fst final_state snd object set_object]. unfold isConnected.
  match goal with |- context [notify onConnected ?c] =>
    destruct (notify_fields onConnected c) as (-> & -> & -> & _ & -> & _)
  end.
  cbn.
  split; [by destruct (isSome (userIdentity options))|]. split; [done|].
  split; [|discriminate]. intros _. exists cl, (next_id w2), (calls w2).
  split; [by destruct (isSome (userIdentity options)); cbn|]. split; [done|].
  by rewrite <- app_assoc.
Qed.

Lemma connect_connected_iff_returns_witness :
  isConnected
    (object (final_state (connect Scenarios.willing
                            (Scenarios.plc (Some "Basic256Sha256") (Some "Sign"))
                            Scenarios.running))) = true.
Proof.
  destruct (connect_connected_iff_returns Scenarios.willing
              (Scenarios.plc (Some "Basic256Sha256") (Some "Sign")) Scenarios.running
              eq_refl) as (_ & Hreturned & _).
  apply Hreturned. vm_compute. reflexivity.
Defined.

(** The options are validated after the previous connection has been left
    and before any call for the new one.  A security policy the stack does
    not know, or, with a known policy, a security mode other than
    SignAndEncrypt, Sign and None, makes [connect] throw; no client is
    created and no connect is attempted, the object is not connected, and
    the session of an object that was connected is gone. *)
Theorem connect_invalid_security (e : env) (options : OpcUaConnectionOptions)
    (w : Connecting.t) (policy : string) :
  isSome (client (object w)) = true ->
  securityPolicy options = Some policy -> policy <> "" -> policy <> "None" ->
  let r := connect e options w in
  let rejected err :=
    completed r = Thrown err
    /\ calls (final_state r) = calls w
    /\ client (object (final_state r)) = client (object w)
    /\ isConnected (object (final_state r)) = false
    /\ (connected (object w) = true -> session (object (final_state r)) = None) in
  (known_policy e policy = false ->
     rejected ("Política de segurança inválida: " ++ policy))
  /\ (forall mode,
        known_policy e policy = true -> securityMode options = Some mode ->
        mode <> "" -> mode <> "SignAndEncrypt" -> mode <> "Sign" -> mode <> "None" ->
        rejected ("Modo de segurança inválido: " ++ mode)).
Proof.
  intros Hclient Hpolicy Hsome Hnot. cbv zeta.
  rewrite (connect_eq e options w Hclient). cbv zeta.
  match goal with |- context [leave_previous e ?w0] =>
    destruct (leave_previous_frame e w0) as (_ & Hclient1 & _ & Hcalls1 & _ & Hsession1);
    set (w1 := final_state (leave_previous e w0)) in *
  end.
  cbn in Hclient1, Hcalls1, Hsession1.
  assert (forall err, security e options = Thrown err ->
            let r := match security e options with
                     | Thrown err => 
                         (Thrown err : completion unit,
                          set_object
                            (set_connected false
                               (emit (ConsoleError "Erro ao conectar ao servidor OPC UA:" err)
                                  (object w1))) w1)
                     | Normal recreate => (Normal tt, w1)
                     end in
            completed r = Thrown err
            /\ calls (final_state r) = calls w
            /\ client (object (final_state r)) = client (object w)
            /\ isConnected (object (final_state r)) = false
            /\ (connected (object w) = true -> session (object (final_state r)) = None))
    as Hrejected.
  { intros err ->. cbn. by rewrite Hcalls1, Hclient1. }
  apply String.eqb_neq in Hsome, Hnot.
  split.
  - intros Hunknown.
    assert (security e options = Thrown ("Política de segurança inválida: " ++ policy))
      as Hsecurity.
    { unfold security, given. rewrite Hpolicy. cbn [default from_option].
      cbv beta iota delta [Datatypes.id]. by rewrite Hsome, Hnot, Hunknown. }
    specialize (Hrejected _ Hsecurity). rewrite Hsecurity in *. exact Hrejected.
  - intros mode Hknown Hmode Hgiven Hencrypt Hsign Hnone.
    apply String.eqb_neq in Hgiven, Hencrypt, Hsign, Hnone.
    assert (security e options = Thrown ("Modo de segurança inválido: " ++ mode))
      as Hsecurity.
    { unfold security, given. rewrite Hpolicy, Hmode. cbn [default from_option].
      cbv beta iota delta [Datatypes.id].
      by rewrite Hsome, Hnot, Hknown, Hgiven, Hencrypt, Hsign, Hnone. }
    specialize (Hrejected _ Hsecurity). rewrite Hsecurity in *. exact Hrejected.
Qed.

Lemma connect_invalid_security_witness :
  completed (connect Scenarios.willing (Scenarios.plc (Some "Basic128") None)
               Scenarios.running)
  = Thrown "Política de segurança inválida: Basic128"
  /\ session (object (final_state
                        (connect Scenarios.willing (Scenarios.plc (Some "Basic128") None)
                           Scenarios.running))) = None.
Proof.
  destruct (connect_invalid_security Scenarios.willing (Scenarios.plc (Some "Basic128") None)
              Scenarios.running "Basic128") as [Hunknown _]; try (reflexivity || discriminate).
  destruct (Hunknown eq_refl) as (Hthrown & _ & _ & _ & Hsession).
  split; [exact Hthrown | exact (Hsession eq_refl)].
Defined.

(** Without a security policy, or with the policy None, the client is not
    recreated and the security mode of the options is not looked at: any
    two modes give the same run, and an unknown mode raises no error. *)
Theorem connect_ignores_mode_without_policy (e : env) (w : Connecting.t)
    (url : string) (policy mode mode' user pass : option string) :
  given policy = false \/ policy = Some "None" ->
  let options m :=
    {| opt_endpointUrl := url; securityPolicy := policy; securityMode := m;
       username := user; password := pass |} in
  connect e (options mode) w = connect e (options mode') w
  /\ security e (options mode) = Normal None
  /\ Forall (fun call => match call with Create _ _ => False | _ => True end)
       (drop (length (calls w)) (calls (final_state (connect e (options mode) w)))).
Proof.
  intros Hpolicy. cbv zeta.
  assert (forall m, security e {| opt_endpointUrl := url; securityPolicy := policy;
                                  securityMode := m; username := user; password := pass |}
                    = Normal None) as Hsecurity.
  { intros m. unfold security. cbn [securityPolicy].
    destruct Hpolicy as [-> | ->]; reflexivity. }
  split; [|split; [apply Hsecurity|]].
  - destruct (isSome (client (object w))) eqn:Hclient.
    + rewrite !(connect_eq e _ w Hclient). cbv zeta. rewrite !Hsecurity.
      rewrite !open_session_eq. reflexivity.
    + unfold connect, bind, get, throw. rewrite Hclient. reflexivity.
  - destruct (isSome (client (object w))) eqn:Hclient.
    + rewrite (connect_eq e _ w Hclient). cbv zeta. rewrite Hsecurity.
      cbn [completed fst final_state snd opt_endpointUrl].
      match goal with |- context [leave_previous e ?w0] =>
        destruct (leave_previous_frame e w0) as (_ & _ & _ & Hcalls1 & _);
        set (w1 := final_state (leave_previous e w0)) in *
      end.
      cbn in Hcalls1. rewrite open_session_eq. cbv zeta.
      destruct (client_connect e); [destruct (client_createSession e)|];
        cbn; rewrite Hcalls1, ?drop_app_length; rewrite <- ?app_assoc, ?drop_app_length;
        repeat constructor.
    + unfold connect, bind, get, throw. rewrite Hclient. cbn.
      rewrite drop_all. constructor.
Qed.

Lemma connect_ignores_mode_without_policy_witness :
  connect Scenarios.willing (Scenarios.plc (Some "None") (Some "Scrambled")) Scenarios.running
  = connect Scenarios.willing (Scenarios.plc (Some "None") None) Scenarios.running.
Proof.
  exact (proj1 (connect_ignores_mode_without_policy Scenarios.willing Scenarios.running
                  "opc.tcp://plc2:4840" (Some "None") (Some "Scrambled") None
                  (Some "operator") (Some "secret") (or_intror eq_refl))).
Defined.

End Connect.

(** ** OpcUaClient.browse: what a node says about its reference *)

Section BrowseNodes.
Import OpcUaClient.

Lemma NodeClass_toString_2 c : String.eqb (NodeClass_toString c) "2" = true <-> c = NC_Variable.
Proof. destruct c; vm_compute; split; congruence. Qed.

Lemma describe_dataType env reference dt :
  dataType (describe env reference) = Some dt <->
  ref_nodeClass reference = NC_Variable
  /\ exists answer,
       session_read_DataType env (ref_nodeId reference) = Normal answer
       /\ dv_statusCode answer = Good /\ dv_value answer = Some dt.
Proof.
  unfold describe. cbn.
  destruct (String.eqb (NodeClass_toString (ref_nodeClass reference)) "2") eqn:Hclass.
  - apply NodeClass_toString_2 in Hclass.
    destruct (session_read_DataType env (ref_nodeId reference)) as [answer|err] eqn:Hread.
    + destruct (StatusCode_same (dv_statusCode answer) Good) eqn:Hsame.
      * apply StatusCode_same_eq in Hsame. split.
        -- intros Hdt. split; [done|]. by exists answer.
        -- intros (_ & answer' & [= <-] & _ & Hdt). done.
      * split; [done|]. intros (_ & answer' & [= <-] & Hgood & _).
        apply StatusCode_same_eq in Hgood. congruence.
    + split; [done|]. intros (_ & answer' & [=] & _).
  - split; [done|]. intros [Hvariable _]. apply NodeClass_toString_2 in Hvariable.
    congruence.
Qed.

(** A browse that returns gives one node per reference of the answer, in
    the order of the server, whatever the reads of the data types did: a
    node carries the identifier and the browse name of its reference, its
    display name is empty only when the browse name is, and it has a data
    type exactly when the reference is a Variable whose DataType attribute
    was read with status Good and a value. *)
Theorem browse_nodes_follow_references (env : browse_env) (c : t) (node : string)
    (nodes : list OpcUaNode) :
  browse env c node = Normal nodes ->
  exists result,
    session_browse env = Normal result
    /\ br_statusCode result = Good
    /\ Forall2
         (fun reference n =>
            nodeId n = ref_nodeId reference
            /\ browseName n = ref_browseName reference
            /\ (displayName n = "" -> browseName n = "")
            /\ forall dt,
                 dataType n = Some dt <->
                 ref_nodeClass reference = NC_Variable
                 /\ exists answer,
                      session_read_DataType env (ref_nodeId reference) = Normal answer
                      /\ dv_statusCode answer = Good /\ dv_value answer = Some dt)
         (default [] (br_references result)) nodes.
Proof.
  unfold browse.
  destruct (negb (isConnected c) || negb (isSome (session c))); [discriminate|].
  destruct (session_browse env) as [result|err]; [|discriminate].
  destruct (StatusCode_same (br_statusCode result) Good) eqn:Hsame; [|discriminate].
  apply StatusCode_same_eq in Hsame. cbn [negb]. intros [= <-].
  exists result. split; [done|]. split; [done|]. rewrite normalize_map.
  induction (default [] (br_references result)) as [|reference rest IH]; cbn [List.map];
    constructor; [|exact IH].
  split; [done|]. split; [done|]. split; [|intros dt; apply describe_dataType].
  unfold describe. cbn. destruct (ref_displayName reference) as [text|]; [|done].
  destruct (String.eqb text "") eqn:Htext; [done|].
  intros ->. discriminate.
Qed.

Lemma browse_nodes_follow_references_witness :
  exists result,
    session_browse Samples.object_types = Normal result /\ br_statusCode result = Good.
Proof.
  destruct (browse_nodes_follow_references Samples.object_types Samples.live_client
              "ns=0;i=88" _ eq_refl) as (result & Hresult & Hgood & _).
  by exists result.
Defined.

End BrowseNodes.

(** ** Subscription settings: the table over time, and the routes *)

Section SettingsOverTime.
Import PrismaStorage SettingsRoutes.






End SettingsOverTime.

Section SettingsToManager.
Import PrismaStorage SettingsRoutes.

Lemma subscribe_defaultSettings e client node (m : SubscriptionManager.t) :
  SubscriptionManager.defaultSettings
    (final_state (SubscriptionManager.subscribe e client node m))
  = SubscriptionManager.defaultSettings m.
Proof.
  destruct (OpcUaClient.isConnected client) eqn:Hconnected;
    [|by rewrite subscribe_disconnected].
  rewrite subscribe_connected by done.
  destruct (ensure_subscription_frame e client m) as (_ & _ & _ & Hsettings).
  destruct (SubscriptionManager.ensure_subscription e client m) as [[[]|err] m0];
    cbn [final_state snd] in *; [|done].
  rewrite <- Hsettings.
  destruct (SubscriptionManager.monitoredItems m0 !! node) as [item|] eqn:Hitem.
  - by rewrite monitor_existing.
  - rewrite (monitor_fresh_eq e client node m0 Hitem). cbv zeta.
    destruct (OpcUaClient.readNodeAttributes _ client node) as [[]|?]; [|done].
    destruct (SubscriptionManager.subscription m0); [|done].
    by destruct (SubscriptionManager.create_monitored_item e node).
Qed.

Lemma resubscribe_defaultSettings e client (l : list Tag) : forall m,
  SubscriptionManager.defaultSettings
    (final_state (SubscriptionManager.forEach (Routes.attempt e client) l m))
  = SubscriptionManager.defaultSettings m.
Proof.
  induction l as [|tag rest IH]; intros m; [done|].
  cbn [SubscriptionManager.forEach]. unfold bind.
  pose proof (subscribe_defaultSettings e client (tag_nodeId tag) m) as Hstep.
  destruct (attempt_eq e client tag m) as [Hdone _].
  unfold Routes.attempt, try_catch in *.
  destruct (SubscriptionManager.subscribe e client (tag_nodeId tag) m) as [[[]|err] m1];
    cbn in *; rewrite IH; done.
Qed.

(** A row posted as default reaches the manager and the next connection
    alike.  After [POST /api/subscription-settings] with [isDefault: true],
    the new row is the one default row of the table; the manager, if there
    is one, has the three intervals of the row as its settings and keeps its
    monitored items; and the manager the connect route builds afterwards
    from the table starts with the same settings. *)
Theorem posted_default_reaches_manager (e e' : SubscriptionManager.env)
    (client client' : OpcUaClient.t) (body : InsertSubscriptionSettings) (w : t)
    (tags : list Tag) (first_object : nat) :
  ins_isDefault body = Some true ->
  let settings := fst (post e client body w) in
  let w' := snd (post e client body w) in
  defaults (db w') = [settings]
  /\ getDefaultSubscriptionSettings (db w') = Some settings
  /\ (forall m, subscriptionManager w = Some m ->
        exists m', subscriptionManager w' = Some m'
                   /\ SubscriptionManager.defaultSettings m' = manager_settings settings
                   /\ SubscriptionManager.monitoredItems m'
                      = SubscriptionManager.monitoredItems m)
  /\ (subscriptionManager w = None -> subscriptionManager w' = None)
  /\ SubscriptionManager.defaultSettings
       (Routes.connect_subscriptions e' client'
          (getDefaultSubscriptionSettings (db w')) tags first_object)
     = manager_settings settings.
Proof.
  intros Hflag. cbv zeta. unfold post, parse. rewrite Hflag. cbn [default ins_isDefault].
  set (data := {| ins_publishingInterval := _ |}).
  assert (defaults (snd (createSubscriptionSettings data (db w)))
          = [fst (createSubscriptionSettings data (db w))]) as Hone.
  { unfold createSubscriptionSettings.
    change (default false (ins_isDefault data)) with true. cbv iota.
    destruct (create_defaults data (updateMany_clear_default (db w))) as (_ & Hrow & ->).
    rewrite updateMany_clears, Hrow. done. }
  assert (getDefaultSubscriptionSettings (snd (createSubscriptionSettings data (db w)))
          = Some (fst (createSubscriptionSettings data (db w)))) as Hfound.
  { revert Hone. unfold defaults, getDefaultSubscriptionSettings.
    generalize (rows (snd (createSubscriptionSettings data (db w)))). intros l.
    induction l as [|r rest IH]; [done|]. cbn. destruct (isDefault r); [|exact IH].
    by intros [= -> _]. }
  destruct (createSubscriptionSettings data (db w)) as [settings db'] eqn:Hcreated.
  cbn [fst snd db subscriptionManager] in *.
  split; [done|]. split; [done|]. split; [|split].
  - intros m ->. cbn [push]. eexists. split; [reflexivity|].
    destruct (setDefaultSettings_frame e client (manager_settings settings) m)
      as (Hmap & _ & Hsettings & _). done.
  - by intros ->.
  - rewrite Hfound. unfold Routes.connect_subscriptions, Routes.resubscribe, bind.
    pose proof (setDefaultSettings_completed e' client' (manager_settings settings)
                  (SubscriptionManager.constructor e' client' first_object)) as Hdone.
    destruct (setDefaultSettings_frame e' client' (manager_settings settings)
                (SubscriptionManager.constructor e' client' first_object))
      as (_ & _ & Hsettings & _).
    fold (manager_settings settings).
    destruct (SubscriptionManager.setDefaultSettings e' client' (manager_settings settings)
                (SubscriptionManager.constructor e' client' first_object))
      as [[[]|err] m1]; [|discriminate].
    cbn [final_state snd] in *. by rewrite resubscribe_defaultSettings.
Qed.

Lemma posted_default_reaches_manager_witness :
  getDefaultSubscriptionSettings
    (db (snd (post Samples.friendly Samples.live_client Samples.default_settings
                {| db := empty; subscriptionManager := Some Samples.monitoring_level |})))
  = Some (fst (post Samples.friendly Samples.live_client Samples.default_settings
                 {| db := empty; subscriptionManager := Some Samples.monitoring_level |})).
Proof.
  exact (proj1 (proj2 (posted_default_reaches_manager Samples.friendly Samples.friendly
                         Samples.live_client Samples.live_client Samples.default_settings
                         {| db := empty; subscriptionManager := Some Samples.monitoring_level |}
                         [] 0 eq_refl))).
Defined.

Lemma find_unique_row (key : Z) (r : SubscriptionSetting) (l : list SubscriptionSetting) :
  NoDup (List.map id l) -> In r l -> id r = key ->
  List.find (fun r0 => (id r0 =? key)%Z) l = Some r.
Proof.
  intros Hdistinct Hin Hkey. induction l as [|r0 rest IH]; [done|].
  cbn in Hdistinct. apply NoDup_cons in Hdistinct as [Hfresh Hdistinct]. cbn.
  destruct (Z.eqb_spec (id r0) key) as [Heq | Hne].
  - destruct Hin as [-> | Hin]; [done|]. exfalso. apply Hfresh.
    apply list_elem_of_In, in_map_iff. exists r. split; [congruence | done].
  - destruct Hin as [-> | Hin]; [congruence|]. by apply IH.
Qed.

Lemma defaults_updated (key : Z) (data : PartialSubscriptionSettings)
    (r : SubscriptionSetting) (l : list SubscriptionSetting) :
  NoDup (List.map id l) -> List.filter isDefault l = [r] -> id r = key ->
  upd_isDefault data <> Some false ->
  List.filter isDefault
    (List.map (fun r0 => if (id r0 =? key)%Z then apply_update data r0 else r0) l)
  = [apply_update data r].
Proof.
  intros Hdistinct Hone Hkey Hflag. induction l as [|r0 rest IH]; [done|].
  cbn in Hdistinct. apply NoDup_cons in Hdistinct as [Hfresh Hdistinct].
  cbn in Hone |- *. destruct (isDefault r0) eqn:Hr0.
  - injection Hone as -> Hrest. rewrite Hkey, Z.eqb_refl.
    assert (isDefault (apply_update data r) = true) as ->.
    { unfold apply_update. cbn. rewrite Hr0. by destruct (upd_isDefault data) as [[|]|]. }
    f_equal. clear IH. induction rest as [|r1 rest IH]; [done|].
    cbn in Hrest, Hfresh |- *. rewrite not_elem_of_cons in Hfresh.
    destruct Hfresh as [Hne Hfresh]. apply NoDup_cons in Hdistinct as [_ Hdistinct].
    destruct (isDefault r1) eqn:Hr1; [done|].
    destruct (Z.eqb_spec (id r1) key) as [Heq | _]; [congruence|].
    rewrite Hr1. by apply IH.
  - assert (In r rest) as Hin.
    { assert (In r (List.filter isDefault rest)) as Hin by (rewrite Hone; by left).
      by apply filter_In in Hin as [Hin _]. }
    destruct (Z.eqb_spec (id r0) key) as [Heq | _].
    + exfalso. apply Hfresh. apply list_elem_of_In, in_map_iff. exists r.
      split; [congruence | done].
    + rewrite Hr0. by apply IH.
Qed.

(** New intervals for the default row reach the manager.  When the table
    has one default row and [PUT /api/subscription-settings/:id] updates
    that row without clearing its flag, the answer is the updated row, it is
    still the one default row of the table, and the manager, if there is
    one, has its three intervals and keeps its monitored items. *)
Theorem updated_default_reaches_manager (e : SubscriptionManager.env)
    (client : OpcUaClient.t) (key : Z) (body : PartialSubscriptionSettings) (w : t)
    (row : SubscriptionSetting) :
  NoDup (List.map id (rows (db w))) -> defaults (db w) = [row] -> id row = key ->
  upd_isDefault body <> Some false ->
  let answer := fst (put e client key body w) in
  let w' := snd (put e client key body w) in
  answer = Some (apply_update body row)
  /\ defaults (db w') = [apply_update body row]
  /\ List.map id (rows (db w')) = List.map id (rows (db w))
  /\ (forall m, subscriptionManager w = Some m ->
        exists m', subscriptionManager w' = Some m'
                   /\ SubscriptionManager.defaultSettings m'
                      = manager_settings (apply_update body row)
                   /\ SubscriptionManager.monitoredItems m'
                      = SubscriptionManager.monitoredItems m).
Proof.
  intros Hdistinct Hone Hkey Hflag. cbv zeta.
  assert (In row (rows (db w))) as Hin.
  { assert (In row (defaults (db w))) as Hin by (rewrite Hone; by left).
    by apply filter_In in Hin as [Hin _]. }
  assert (isDefault row = true) as Hrow.
  { assert (In row (defaults (db w))) as Hin' by (rewrite Hone; by left).
    by apply filter_In in Hin' as [_ Hrow]. }
  unfold put, updateSubscriptionSettings, update.
  rewrite (find_unique_row key row (rows (db w)) Hdistinct Hin Hkey).
  cbn [fst snd db subscriptionManager].
  split; [done|]. split; [|split].
  - unfold defaults. cbn [rows]. by apply defaults_updated.
  - cbn [rows]. rewrite List.map_map. apply List.map_ext. intros r.
    by destruct (id r =? key)%Z.
  - intros m ->. cbn [push].
    assert (isDefault (apply_update body row) = true) as ->.
    { unfold apply_update. cbn. rewrite Hrow. by destruct (upd_isDefault body) as [[|]|]. }
    eexists. split; [reflexivity|].
    destruct (setDefaultSettings_frame e client (manager_settings (apply_update body row)) m)
      as (Hmap & _ & Hsettings & _). done.
Qed.

Lemma updated_default_reaches_manager_witness :
  exists m',
    subscriptionManager
      (snd (put Samples.friendly Samples.live_client 1 Scenarios.slower Scenarios.configured))
    = Some m'
    /\ SubscriptionManager.publishingInterval (SubscriptionManager.defaultSettings m')
       = 5000%Z.
Proof.
  destruct (updated_default_reaches_manager Samples.friendly Samples.live_client 1
              Scenarios.slower Scenarios.configured
              {| id := 1; publishingInterval := 2000; samplingInterval := 250;
                 queueSize := 5; isDefault := true |}) as (_ & _ & _ & Hmanager).
  - cbn. apply NoDup_singleton.
  - reflexivity.
  - reflexivity.
  - discriminate.
  - destruct (Hmanager _ eq_refl) as (m' & Hm' & Hsettings & _).
    exists m'. split; [exact Hm'|]. by rewrite Hsettings.
Defined.

End SettingsToManager.

(** ** Leaving a connection: the disconnect route and the shutdown *)

Section Leaving.
Import Routes ConnectionRoutes.

(** What [disconnect] adds to the effects of the object, and whether the
    handler [onDisconnected] is among it. *)
Lemma disconnect_added env (c : OpcUaClient.t) :
  exists added,
    OpcUaClient.effects (final_state (OpcUaClient.disconnect env c))
    = (OpcUaClient.effects c ++ added)%list
    /\ (existsb (fun e => match e with
                          | OpcUaClient.Handler h' => bool_decide (h' = OpcUaClient.onDisconnected)
                          | _ => false
                          end) added = true ->
        completed (OpcUaClient.disconnect env c) = Normal tt).
Proof.
  destruct env as [[|?] [|?]]; destruct c as [[?|] [?|] ? ? hs ef];
    cbn; unfold OpcUaClient.notify; cbn;
    try (destruct (bool_decide (OpcUaClient.onDisconnected ∈ hs)); cbn);
    rewrite <- ?app_assoc; cbn; eexists; (split; [reflexivity|]); cbn; congruence.
Qed.

Lemma ran_onDisconnected env (c : OpcUaClient.t) err :
  completed (OpcUaClient.disconnect env c) = Thrown err ->
  ran OpcUaClient.onDisconnected c (final_state (OpcUaClient.disconnect env c)) = false.
Proof.
  intros Hthrown. unfold ran. destruct (disconnect_added env c) as (added & -> & Hran).
  rewrite drop_app_length. destruct (existsb _ added); [|done].
  rewrite Hran in Hthrown; done.
Qed.

Lemma broadcast_frame data (w : t) :
  opcUaClient (broadcast data w) = opcUaClient w
  /\ subscriptionManager (broadcast data w) = subscriptionManager w
  /\ clients (broadcast data w) = clients w.
Proof. done. Qed.

Lemma deliveries_open data client (cs : list (nat * readyState)) :
  In (client, OPEN) cs -> In (Send client data) (deliveries data cs).
Proof.
  intros Hin. unfold deliveries. apply in_map_iff. exists (client, OPEN).
  split; [done|]. apply filter_In. done.
Qed.

(** [POST /api/connections/disconnect] with a client object.  When the
    transport can be closed, the route lets go of client and manager, the
    manager having been cleared, and, the storage permitting, answers
    success after telling every open browser that the connection is down.
    When closing the transport raises, the route answers 500 and keeps both
    objects: the client without its session, the manager with every entry
    of its map, and no browser is told. *)
Theorem disconnect_route_releases_or_keeps (e : env) (w : t) (c : OpcUaClient.t) :
  opcUaClient w = Some c ->
  let answer := fst (fst (disconnect e w)) in
  let released := snd (fst (disconnect e w)) in
  let w' := snd (disconnect e w) in
  (OpcUaClient.client_disconnect (leaving e) = Returns \/ OpcUaClient.client c = None ->
     opcUaClient w' = None /\ subscriptionManager w' = None
     /\ (forall m, subscriptionManager w = Some m ->
           exists m', released = Some m' /\ SubscriptionManager.monitoredItems m' = ∅)
     /\ (storage e = Returns ->
           answer = Response 200 true "Disconnected successfully"
           /\ forall browser, In (browser, OPEN) (clients w) ->
                In (Send browser (connection_status false None false false)) (effects w'))
     /\ (forall err, storage e = Throws err ->
           answer = Response 500 false ("Disconnection failed: " ++ err)))
  /\ (forall err,
        OpcUaClient.client_disconnect (leaving e) = Throws err ->
        isSome (OpcUaClient.client c) = true ->
        answer = Response 500 false ("Disconnection failed: " ++ err)
        /\ released = None
        /\ subscriptionManager w' = subscriptionManager w
        /\ effects w' = effects w
        /\ exists c', opcUaClient w' = Some c' /\ OpcUaClient.session c' = None
                      /\ OpcUaClient.connected c' = OpcUaClient.connected c).
Proof.
  intros Hc. cbv zeta. unfold disconnect. rewrite Hc. split.
  - intros Hok. pose proof (disconnect_returns (leaving e) c Hok) as Hdone.
    destruct (OpcUaClient.disconnect (leaving e) c) as [[[]|?] c'] eqn:Hrun; [|discriminate].
    set (w0 := if ran OpcUaClient.onDisconnected c c' then onDisconnected w else w).
    assert (subscriptionManager w0 = subscriptionManager w /\ clients w0 = clients w)
      as [Hmanager Hclients] by (subst w0; by destruct (ran _ c c')).
    destruct (storage e) as [|err] eqn:Hstorage; cbn [fst snd].
    + split; [done|]. split; [done|]. split; [|split; [|discriminate]].
      * intros m Hm. rewrite Hmanager, Hm. cbn. eexists. split; [reflexivity|].
        exact (proj1 (proj2 (clear_empties (stack e) m))).
      * intros _. split; [done|]. intros browser Hopen. unfold broadcast at 1. cbn.
        apply in_app_iff. right. apply deliveries_open. by rewrite Hclients.
    + split; [done|]. split; [done|]. split; [|split; [discriminate|]].
      * intros m Hm. rewrite Hmanager, Hm. cbn. eexists. split; [reflexivity|].
        exact (proj1 (proj2 (clear_empties (stack e) m))).
      * by intros ? [= <-].
  - intros err Hthrows Hclient.
    destruct (disconnect_rethrows (leaving e) c err Hthrows Hclient) as [Hthrown _].
    pose proof (ran_onDisconnected (leaving e) c err Hthrown) as Hran.
    destruct (disconnect_frame (leaving e) c) as (_ & Hsession & _).
    assert (OpcUaClient.connected (final_state (OpcUaClient.disconnect (leaving e) c))
            = OpcUaClient.connected c) as Hflag.
    { apply disconnect_flag_kept. right. split; [done|]. by rewrite Hthrows. }
    destruct (OpcUaClient.disconnect (leaving e) c) as [[[]|?] c']; [discriminate|].
    cbn [completed final_state fst snd] in *. injection Hthrown as ->. rewrite Hran.
    cbn [fst snd]. do 4 (split; [done|]). by exists c'.
Qed.

Lemma disconnect_route_releases_or_keeps_witness :
  fst (fst (disconnect
              {| leaving := Samples.transport_fails; stack := Samples.friendly;
                 storage := Returns |}
              Samples.connected_without_level))
  = Response 500 false "Disconnection failed: socket hang up".
Proof.
  destruct (disconnect_route_releases_or_keeps
              {| leaving := Samples.transport_fails; stack := Samples.friendly;
                 storage := Returns |}
              Samples.connected_without_level Samples.live_client eq_refl) as [_ Hkeeps].
  destruct (Hkeeps "socket hang up" eq_refl eq_refl) as [Hanswer _]. exact Hanswer.
Defined.

End Leaving.

Section GracefulShutdown.
Import Shutdown.

(** [gracefulShutdown] runs once.  The first call clears the manager and
    disconnects the client, whatever the stack answers: afterwards the map
    of the manager is empty and the client has no session, so is not
    connected.  The process exits with code 1 exactly when there is an HTTP
    server that does not finish closing in time, with code 0 otherwise.  A
    further call changes nothing. *)
Theorem gracefulShutdown_once (e e' : env) (w : t) :
  isShuttingDown w = false ->
  let w' := gracefulShutdown e w in
  isShuttingDown w' = true
  /\ (forall m, globalSubscriptionManager w = Some m ->
        exists m', globalSubscriptionManager w' = Some m'
                   /\ SubscriptionManager.monitoredItems m' = ∅
                   /\ SubscriptionManager.created m' = SubscriptionManager.created m)
  /\ (forall c, globalOpcUaClient w = Some c ->
        exists c', globalOpcUaClient w' = Some c'
                   /\ OpcUaClient.session c' = None
                   /\ OpcUaClient.isConnected c' = false)
  /\ (exited w' = Some 1%Z <-> httpServer w = true /\ closes_in_time e = false)
  /\ (exited w' = Some 0%Z <-> httpServer w = false \/ closes_in_time e = true)
  /\ gracefulShutdown e' w' = w'.
Proof.
  intros Hfirst. cbv zeta. unfold gracefulShutdown at 1 2 3 4 5. rewrite Hfirst.
  cbn [isShuttingDown globalSubscriptionManager globalOpcUaClient httpServer exited].
  split; [done|]. split; [|split; [|split; [|split]]].
  - intros m ->. cbn. eexists. split; [reflexivity|]. unfold try_catch.
    destruct (clear_empties (stack e) m) as (Hdone & Hmap & _).
    destruct (clear_step (stack e) m) as (_ & Hcreated & _).
    destruct (SubscriptionManager.clear (stack e) m) as [[[]|?] m']; [|discriminate].
    done.
  - intros c ->. cbn. eexists. split; [reflexivity|]. unfold try_catch.
    destruct (disconnect_frame (leaving e) c) as (_ & Hsession & _).
    destruct (OpcUaClient.disconnect (leaving e) c) as [[[]|?] c'];
      cbn in *; unfold OpcUaClient.isConnected; rewrite Hsession;
      (split; [done|]); apply andb_false_r.
  - destruct (httpServer w), (closes_in_time e); split; (intros [=] || intros [? ?]);
      done.
  - destruct (httpServer w), (closes_in_time e); split; try (intros [=]); try done;
      try (by left); try (by right); intros [|]; done.
  - unfold gracefulShutdown. cbn. by rewrite Hfirst.
Qed.

Lemma gracefulShutdown_once_witness :
  exited (gracefulShutdown Scenarios.stuck Scenarios.serving) = Some 1%Z
  /\ gracefulShutdown Scenarios.stuck (gracefulShutdown Scenarios.stuck Scenarios.serving)
     = gracefulShutdown Scenarios.stuck Scenarios.serving.
Proof.
  destruct (gracefulShutdown_once Scenarios.stuck Scenarios.stuck Scenarios.serving eq_refl)
    as (_ & _ & _ & Hforced & _ & Hagain).
  split; [apply Hforced; split; reflexivity | exact Hagain].
Defined.

End GracefulShutdown.

(** ** The routes that subscribe and unsubscribe a tag *)

Section TagSubscriptions.
Import PrismaStorage TagRoutes.

Lemma subscribe_returns_entry e client node (m : SubscriptionManager.t) :
  completed (SubscriptionManager.subscribe e client node m) = Normal tt ->
  is_Some (SubscriptionManager.monitoredItems
             (final_state (SubscriptionManager.subscribe e client node m)) !! node).
Proof.
  intros Hdone. destruct (subscribe_returns e client node m Hdone) as (_ & _ & Hmonitor & ->).
  set (m0 := final_state (SubscriptionManager.ensure_subscription e client m)) in *.
  destruct (SubscriptionManager.monitoredItems m0 !! node) as [item|] eqn:Hitem.
  - rewrite monitor_existing by done. cbn. by rewrite Hitem.
  - destruct (monitor_fresh e client node m0 Hitem Hmonitor) as (sub & _ & _ & -> & _).
    by rewrite lookup_insert_eq.
Qed.

Lemma unsubscribe_returns_no_entry e node (m : SubscriptionManager.t) :
  completed (SubscriptionManager.unsubscribe e node m) = Normal tt ->
  SubscriptionManager.monitoredItems
    (final_state (SubscriptionManager.unsubscribe e node m)) !! node = None.
Proof.
  rewrite unsubscribe_eq.
  destruct (SubscriptionManager.monitoredItems m !! node) as [item|] eqn:Hitem; [|done].
  cbv zeta. destruct (SubscriptionManager.terminate e _); [|discriminate].
  intros _. cbn. apply lookup_delete_eq.
Qed.

Lemma setTagSubscription_tags db key flag (table : list Tag) (tag' : Tag) :
  In tag' (snd (setTagSubscription db key flag table)) ->
  In tag' table
  \/ exists tag, In tag table /\ tag_id tag = key /\ tag' = with_isSubscribed flag tag.
Proof.
  unfold setTagSubscription. destruct (tag_update db); [|by left].
  destruct (List.find (by_id key) table) as [found|]; [|by left].
  cbn [snd]. intros Hin. apply in_map_iff in Hin as (tag & <- & Hin).
  unfold by_id. destruct (Z.eqb_spec (tag_id tag) key) as [Hkey|]; [|by left].
  right. by exists tag.
Qed.

Lemma find_by_id_unique key (table : list Tag) (found tag : Tag) :
  NoDup (List.map tag_id table) -> List.find (by_id key) table = Some found ->
  In tag table -> tag_id tag = key -> tag = found.
Proof.
  intros Hdistinct Hfound Hin Hkey. induction table as [|first rest IH]; [done|].
  cbn in Hdistinct. apply NoDup_cons in Hdistinct as [Hfresh Hdistinct].
  cbn in Hfound. unfold by_id in Hfound at 1.
  destruct (Z.eqb_spec (tag_id first) key) as [Hfirst | Hne].
  - injection Hfound as <-. destruct Hin as [<- | Hin]; [done|].
    exfalso. apply Hfresh. apply list_elem_of_In, in_map_iff. exists tag.
    split; [congruence | done].
  - destruct Hin as [<- | Hin]; [congruence|]. by apply IH.
Qed.

(** What the two routes have in common.  [after] is what a call of the
    manager that returned guarantees. *)
Lemma change_subscription_after (after : string -> SubscriptionManager.t -> Prop)
    flag already done failed call db key (w : t) :
  NoDup (List.map tag_id (tags w)) ->
  (forall c node m, completed (call c node m) = Normal tt ->
     after node (final_state (call c node m))) ->
  let answer := fst (change_subscription flag already done failed call db key w) in
  let w' := snd (change_subscription flag already done failed call db key w) in
  opcUaClient w' = opcUaClient w
  /\ List.map tag_id (tags w') = List.map tag_id (tags w)
  /\ (forall tag', In tag' (tags w') ->
        In tag' (tags w)
        \/ (tag_id tag' = key /\ tag_isSubscribed tag' = flag
            /\ exists m', subscriptionManager w' = Some m' /\ after (tag_nodeId tag') m'))
  /\ (forall status message, answer = Response status None message -> w' = w)
  /\ (forall tag, getTag db key (tags w) = Some tag -> tag_isSubscribed tag = flag ->
        answer = Response 200 (Some true) already /\ w' = w)
  /\ (forall tag c m,
        getTag db key (tags w) = Some tag -> tag_isSubscribed tag <> flag ->
        opcUaClient w = Some c -> OpcUaClient.isConnected c = true ->
        subscriptionManager w = Some m ->
        subscriptionManager w' = Some (final_state (call c (tag_nodeId tag) m))
        /\ (forall err, completed (call c (tag_nodeId tag) m) = Thrown err ->
              answer = Response 500 (Some false) (failed ++ err) /\ tags w' = tags w)
        /\ (completed (call c (tag_nodeId tag) m) = Normal tt ->
            tag_update db = Returns -> activityLog_create db = Returns ->
              answer = Response 200 (Some true) done
              /\ In (with_isSubscribed flag tag) (tags w'))).
Proof.
  intros Hdistinct Hafter. cbv zeta. unfold change_subscription.
  destruct (getTag db key (tags w)) as [tag|] eqn:Htag.
  2: { cbn. repeat split; try done. by left. }
  destruct (Bool.eqb (tag_isSubscribed tag) flag) eqn:Hflag.
  { cbn. apply Bool.eqb_prop in Hflag. repeat split; try done; try by left.
    all: intros; congruence. }
  apply Bool.eqb_false_iff in Hflag.
  destruct (opcUaClient w) as [c|] eqn:Hc.
  2: { cbn. repeat split; try done; try by left. all: intros; congruence. }
  destruct (OpcUaClient.isConnected c) eqn:Hconnected; cbn [negb].
  2: { cbn. repeat split; try done; try by left. all: intros; congruence. }
  destruct (subscriptionManager w) as [m|] eqn:Hm.
  2: { cbn. repeat split; try done; try by left. all: intros; congruence. }
  specialize (Hafter c (tag_nodeId tag) m).
  assert (List.find (by_id key) (tags w) = Some tag) as Hfound.
  { unfold getTag in Htag. by destruct (tag_findUnique db). }
  assert (In tag (tags w) /\ tag_id tag = key) as [Hin Hkey].
  { apply find_some in Hfound as [Hin Hkey]. split; [done|]. by apply Z.eqb_eq in Hkey. }
  destruct (call c (tag_nodeId tag) m) as [[[]|err] m'] eqn:Hcall;
    cbn [completed final_state fst snd] in Hafter.
  - specialize (Hafter eq_refl).
    set (table := snd (setTagSubscription db key flag (tags w))).
    assert (List.map tag_id table = List.map tag_id (tags w)) as Hids.
    { subst table. unfold setTagSubscription. destruct (tag_update db); [|done].
      rewrite Hfound. cbn [snd]. rewrite List.map_map. apply List.map_ext.
      intros tag0. by destruct (by_id key tag0). }
    assert (forall tag', In tag' table ->
              In tag' (tags w)
              \/ (tag_id tag' = key /\ tag_isSubscribed tag' = flag
                  /\ exists m'0, Some m' = Some m'0 /\ after (tag_nodeId tag') m'0))
      as Htags.
    { intros tag' Hin'.
      destruct (setTagSubscription_tags db key flag (tags w) tag' Hin')
        as [Hold | (tag0 & Hin0 & Hkey0 & ->)]; [by left|].
      right. rewrite (find_by_id_unique key (tags w) tag tag0 Hdistinct Hfound Hin0 Hkey0).
      cbn. split; [done|]. split; [done|]. by exists m'. }
    assert (tag_update db = Returns -> In (with_isSubscribed flag tag) table) as Hflagged.
    { intros Hupdate. subst table. unfold setTagSubscription. rewrite Hupdate, Hfound.
      cbn [snd]. apply in_map_iff. exists tag. split; [|done].
      unfold by_id. by rewrite Hkey, Z.eqb_refl. }
    destruct (activityLog_create db) eqn:Hlog; cbn [fst snd tags opcUaClient
      subscriptionManager set_tags set_subscriptionManager]; fold table;
      (split; [done|]); (split; [done|]); (split; [exact Htags|]);
      (split; [done|]); (split; [intros; congruence|]);
      intros tag0 c0 m0 Htag0 _ [= <-] _ [= <-]; injection Htag0 as <-;
      rewrite Hcall; cbn [completed final_state fst snd];
      (split; [done|]); (split; [done|]); intros _ Hupdate Hlog'; try done.
    split; [done | by apply Hflagged].
  - cbn [fst snd tags opcUaClient subscriptionManager set_tags set_subscriptionManager].
    split; [done|]. split; [done|]. split; [by left|]. split; [done|].
    split; [intros; congruence|].
    intros tag0 c0 m0 Htag0 _ [= <-] _ [= <-]. injection Htag0 as <-.
    rewrite Hcall. cbn [completed final_state fst snd]. split; [done|].
    split; [by intros ? [= <-] | done].
Qed.

(** [POST /api/tags/:id/subscribe] flags a tag only behind the manager.
    The route adds and removes no tag; a tag whose flag it changes is the
    tag of the request, it is flagged subscribed, and the manager holds a
    monitored item for its node.  The answers 404 and 400 change nothing; a
    tag already flagged is answered success without a call of the manager;
    when the manager throws, the answer is 500 with its message and no flag
    is written. *)
Theorem subscribe_route_flags_behind_manager (e : SubscriptionManager.env) (db : db_env)
    (key : Z) (w : t) :
  NoDup (List.map tag_id (tags w)) ->
  let answer := fst (subscribe e db key w) in
  let w' := snd (subscribe e db key w) in
  List.map tag_id (tags w') = List.map tag_id (tags w)
  /\ (forall tag', In tag' (tags w') ->
        In tag' (tags w)
        \/ (tag_id tag' = key /\ tag_isSubscribed tag' = true
            /\ exists m', subscriptionManager w' = Some m'
                 /\ is_Some (SubscriptionManager.monitoredItems m' !! tag_nodeId tag')))
  /\ (forall status message, answer = Response status None message -> w' = w)
  /\ (forall tag, getTag db key (tags w) = Some tag -> tag_isSubscribed tag = true ->
        answer = Response 200 (Some true) "Tag já está inscrita" /\ w' = w)
  /\ (forall tag c m err,
        getTag db key (tags w) = Some tag -> tag_isSubscribed tag = false ->
        opcUaClient w = Some c -> OpcUaClient.isConnected c = true ->
        subscriptionManager w = Some m ->
        completed (SubscriptionManager.subscribe e c (tag_nodeId tag) m) = Thrown err ->
        answer = Response 500 (Some false) ("Falha na subscrição: " ++ err)
        /\ tags w' = tags w).
Proof.
  intros Hdistinct. cbv zeta. unfold subscribe.
  destruct (change_subscription_after
              (fun node m => is_Some (SubscriptionManager.monitoredItems m !! node))
              true "Tag já está inscrita" "Subscrito com sucesso" "Falha na subscrição: "
              (SubscriptionManager.subscribe e) db key w Hdistinct)
    as (_ & Hids & Htags & Hsame & Halready & Hcalled).
  { intros c node m. apply subscribe_returns_entry. }
  do 4 (split; [done|]).
  intros tag c m err Htag Hflag Hc Hconnected Hm Hthrown.
  destruct (Hcalled tag c m Htag) as (_ & Hfailed & _); try done.
  - by rewrite Hflag.
  - by apply Hfailed.
Qed.

Lemma subscribe_route_flags_behind_manager_witness :
  List.map tag_id (tags (snd (subscribe Samples.friendly Scenarios.storing 8
                                Scenarios.tagged)))
  = List.map tag_id (tags Scenarios.tagged).
Proof.
  refine (proj1 (subscribe_route_flags_behind_manager Samples.friendly
                   Scenarios.storing 8 Scenarios.tagged _)).
  cbn. apply NoDup_cons. split; [|apply NoDup_singleton].
  rewrite list_elem_of_singleton. discriminate.
Defined.

(** [POST /api/tags/:id/unsubscribe] clears a flag only behind the manager:
    a tag whose flag the route changes is the tag of the request, it is no
    longer flagged, and the manager has no entry for its node; when
    [unsubscribe] of the manager throws, the answer is 500 with its message
    and the flag stays. *)
Theorem unsubscribe_route_clears_behind_manager (e : SubscriptionManager.env) (db : db_env)
    (key : Z) (w : t) :
  NoDup (List.map tag_id (tags w)) ->
  let answer := fst (unsubscribe e db key w) in
  let w' := snd (unsubscribe e db key w) in
  List.map tag_id (tags w') = List.map tag_id (tags w)
  /\ (forall tag', In tag' (tags w') ->
        In tag' (tags w)
        \/ (tag_id tag' = key /\ tag_isSubscribed tag' = false
            /\ exists m', subscriptionManager w' = Some m'
                 /\ SubscriptionManager.monitoredItems m' !! tag_nodeId tag' = None))
  /\ (forall status message, answer = Response status None message -> w' = w)
  /\ (forall tag, getTag db key (tags w) = Some tag -> tag_isSubscribed tag = false ->
        answer = Response 200 (Some true) "Tag já está desinscrita" /\ w' = w)
  /\ (forall tag c m err,
        getTag db key (tags w) = Some tag -> tag_isSubscribed tag = true ->
        opcUaClient w = Some c -> OpcUaClient.isConnected c = true ->
        subscriptionManager w = Some m ->
        completed (SubscriptionManager.unsubscribe e (tag_nodeId tag) m) = Thrown err ->
        answer = Response 500 (Some false) ("Falha ao cancelar subscrição: " ++ err)
        /\ tags w' = tags w
        /\ exists m', subscriptionManager w' = Some m'
             /\ SubscriptionManager.monitoredItems m' = SubscriptionManager.monitoredItems m).
Proof.
  intros Hdistinct. cbv zeta. unfold unsubscribe.
  destruct (change_subscription_after
              (fun node m => SubscriptionManager.monitoredItems m !! node = None)
              false "Tag já está desinscrita" "Subscrição cancelada com sucesso"
              "Falha ao cancelar subscrição: "
              (fun _ => SubscriptionManager.unsubscribe e) db key w Hdistinct)
    as (_ & Hids & Htags & Hsame & Halready & Hcalled).
  { intros _ node m. apply unsubscribe_returns_no_entry. }
  do 4 (split; [done|]).
  intros tag c m err Htag Hflag Hc Hconnected Hm Hthrown.
  destruct (Hcalled tag c m Htag) as (Hmanager & Hfailed & _); try done.
  - by rewrite Hflag.
  - destruct (Hfailed err Hthrown) as [-> ->]. do 2 (split; [done|]).
    eexists. split; [exact Hmanager|]. revert Hthrown. rewrite unsubscribe_eq.
    destruct (SubscriptionManager.monitoredItems m !! tag_nodeId tag); [|done].
    cbv zeta. by destruct (SubscriptionManager.terminate e _).
Qed.

Lemma unsubscribe_route_clears_behind_manager_witness :
  List.map tag_id (tags (snd (unsubscribe Samples.friendly Scenarios.storing 7
                                Scenarios.tagged)))
  = List.map tag_id (tags Scenarios.tagged).
Proof.
  refine (proj1 (unsubscribe_route_clears_behind_manager Samples.friendly
                   Scenarios.storing 7 Scenarios.tagged _)).
  cbn. apply NoDup_cons. split; [|apply NoDup_singleton].
  rewrite list_elem_of_singleton. discriminate.
Defined.

(** [DELETE /api/tags/:id] removes the tag whether or not the manager can
    let go of its monitored item.  For a tag the storage finds and can
    delete, the table afterwards holds the other tags and no tag with this
    identifier.  For a subscribed tag, with a connected client and a
    manager, [unsubscribe] is called first: when it returns the manager has
    no entry for the node, and when it throws the error is dropped and the
    manager keeps its map, entry included. *)
Theorem delete_route_removes_tag (e : SubscriptionManager.env) (db : db_env)
    (key : Z) (w : t) (tag : Tag) :
  getTag db key (tags w) = Some tag -> tag_delete db = Returns ->
  let answer := fst (delete e db key w) in
  let w' := snd (delete e db key w) in
  (forall other, In other (tags w') <-> In other (tags w) /\ tag_id other <> key)
  /\ (activityLog_create db = Returns -> answer = NoContent)
  /\ (forall c m,
        tag_isSubscribed tag = true -> opcUaClient w = Some c ->
        OpcUaClient.isConnected c = true -> subscriptionManager w = Some m ->
        exists m',
          subscriptionManager w' = Some m'
          /\ (completed (SubscriptionManager.unsubscribe e (tag_nodeId tag) m) = Normal tt ->
                SubscriptionManager.monitoredItems m' !! tag_nodeId tag = None)
          /\ (forall err,
                completed (SubscriptionManager.unsubscribe e (tag_nodeId tag) m) = Thrown err ->
                SubscriptionManager.monitoredItems m' = SubscriptionManager.monitoredItems m))
  /\ (tag_isSubscribed tag = false -> subscriptionManager w' = subscriptionManager w).
Proof.
  intros Htag Hdelete. cbv zeta. unfold delete. rewrite Htag.
  assert (List.find (by_id key) (tags w) = Some tag) as Hfound.
  { unfold getTag in Htag. by destruct (tag_findUnique db). }
  set (w1 := match subscriptionManager w with Some m => _ | None => w end).
  assert (tags w1 = tags w) as Htags.
  { subst w1. destruct (subscriptionManager w); [|done].
    by destruct (tag_isSubscribed tag && _). }
  unfold deleteTag. rewrite Hdelete, Htags, Hfound.
  split; [|split; [|split]].
  - intros other. destruct (activityLog_create db); cbn [snd tags set_tags];
      rewrite filter_In; unfold by_id; rewrite negb_true_iff, Z.eqb_neq; done.
  - by intros ->.
  - intros c m Hflag Hc Hconnected Hm.
    assert (subscriptionManager w1
            = Some (final_state
                      (try_catch (SubscriptionManager.unsubscribe e (tag_nodeId tag))
                         (fun _ => ret tt) m))) as Hm1.
    { subst w1. rewrite Hm, Hflag, Hc. cbn. by rewrite Hconnected. }
    eexists. split.
    { destruct (activityLog_create db); cbn [snd subscriptionManager set_tags]; exact Hm1. }
    unfold try_catch. pose proof (unsubscribe_returns_no_entry e (tag_nodeId tag) m) as Hgone.
    pose proof (unsubscribe_eq e (tag_nodeId tag) m) as Heq.
    destruct (SubscriptionManager.unsubscribe e (tag_nodeId tag) m) as [[[]|err] m'].
    + split; [intros _; by apply Hgone | discriminate].
    + split; [discriminate|]. intros ? _. cbn.
      destruct (SubscriptionManager.monitoredItems m !! tag_nodeId tag); [|congruence].
      cbv zeta in Heq. destruct (SubscriptionManager.terminate e _); [discriminate|].
      by injection Heq as _ ->.
  - intros Hflag.
    assert (subscriptionManager w1 = subscriptionManager w) as Hm1.
    { subst w1. destruct (subscriptionManager w) eqn:Hm; [|done]. by rewrite Hflag. }
    by destruct (activityLog_create db).
Qed.

Lemma delete_route_removes_tag_witness :
  fst (delete Samples.terminate_fails Scenarios.storing 7 Scenarios.tagged) = NoContent.
Proof.
  exact (proj1 (proj2 (delete_route_removes_tag Samples.terminate_fails Scenarios.storing 7
                         Scenarios.tagged Samples.level_tag eq_refl eq_refl)) eq_refl).
Defined.

End TagSubscriptions.

(** ** The heartbeat *)

Section HeartbeatRuns.
Import Heartbeat.

Lemma heartbeat_run_step (s : socket) ev (evs : list event) : run s (ev :: evs) = run (step s ev) evs.
Proof. reflexivity. Qed.

Lemma step_terminated (s : socket) ev : terminated s = true -> step s ev = s.
Proof. intros Hs. unfold step. by rewrite Hs. Qed.

Lemma heartbeat_run_terminated (evs : list event) : forall s,
  terminated s = true -> run s evs = s.
Proof.
  induction evs as [|ev rest IH]; intros s Hs; [done|].
  rewrite heartbeat_run_step, step_terminated by done. by apply IH.
Qed.

Lemma heartbeat_run_app (evs evs' : list event) (s : socket) :
  run s (evs ++ evs') = run (run s evs) evs'.
Proof. apply fold_left_app. Qed.

(** A socket that is not alive is terminated by the next tick, unless a
    pong comes first. *)
Lemma tick_after_silence (between after : list event) : forall s,
  isAlive s = false -> ~ In Pong between ->
  terminated (run s (between ++ Tick :: after)) = true.
Proof.
  induction between as [|ev rest IH]; intros s Hdead Hsilent.
  - cbn [app]. rewrite heartbeat_run_step. destruct (terminated s) eqn:Hs.
    + rewrite step_terminated by done. by rewrite heartbeat_run_terminated.
    + unfold step. rewrite Hs, Hdead. cbn [negb]. by rewrite heartbeat_run_terminated.
  - cbn [app]. rewrite heartbeat_run_step.
    destruct (terminated s) eqn:Hs.
    { rewrite step_terminated by done. by rewrite heartbeat_run_terminated. }
    destruct ev.
    + unfold step. rewrite Hs, Hdead. cbn [negb]. by rewrite heartbeat_run_terminated.
    + exfalso. apply Hsilent. by left.
    + unfold step. rewrite Hs. apply IH; [done|]. intros Hin. apply Hsilent. by right.
Qed.

Lemma terminated_silence (evs : list event) : forall s,
  terminated s = false -> terminated (run s evs) = true ->
  (isAlive s = false /\ exists between after,
     evs = (between ++ Tick :: after)%list /\ ~ In Pong between)
  \/ silent_period evs.
Proof.
  induction evs as [|ev rest IH]; intros s Hs Hend; [cbn in Hend; congruence|].
  rewrite heartbeat_run_step in Hend.
  destruct ev.
  - destruct (isAlive s) eqn:Halive.
    + assert (step s Tick = {| isAlive := false; terminated := false; pings := S (pings s) |})
        as Hstep by (unfold step; by rewrite Hs, Halive).
      rewrite Hstep in Hend.
      destruct (IH {| isAlive := false; terminated := false; pings := S (pings s) |}
                  eq_refl Hend) as [(_ & between & after & -> & Hsilent)
                                   | (before & between & after & -> & Hsilent)].
      * right. exists [], between, after. split; [done | exact Hsilent].
      * right. by exists (Tick :: before), between, after.
    + left. split; [done|]. exists [], rest. split; [done | by intros []].
  - assert (step s Pong = {| isAlive := true; terminated := terminated s; pings := pings s |})
      as Hstep by (unfold step; by rewrite Hs).
    rewrite Hstep in Hend.
    destruct (IH {| isAlive := true; terminated := terminated s; pings := pings s |}
                Hs Hend) as [(Hdead & _) | (before & between & after & -> & Hsilent)];
      [discriminate|].
    right. by exists (Pong :: before), between, after.
  - assert (step s Message = s) as Hstep by (unfold step; by rewrite Hs).
    rewrite Hstep in Hend.
    destruct (IH _ Hs Hend) as [(Hdead & between & after & -> & Hsilent)
                               | (before & between & after & -> & Hsilent)].
    + left. split; [done|]. exists (Message :: between), after. split; [done|].
      intros [Hin | Hin]; [discriminate | by apply Hsilent].
    + right. by exists (Message :: before), between, after.
Qed.

(** The server terminates the socket of a browser exactly when a whole
    period between two ticks of the interval passes without a pong: a
    browser that answers every ping before the next tick is never
    terminated, and one that misses a period is, whatever else it sends. *)
Theorem terminated_iff_silent_period (evs : list event) :
  terminated (run connected evs) = true <-> silent_period evs.
Proof.
  split.
  - intros Hend. destruct (terminated_silence evs connected eq_refl Hend)
      as [(Hdead & _) | Hsilent]; [discriminate | done].
  - intros (before & between & after & -> & Hsilent). rewrite heartbeat_run_app, heartbeat_run_step.
    destruct (terminated (run connected before)) eqn:Hbefore.
    + rewrite step_terminated by done. by rewrite heartbeat_run_terminated.
    + destruct (isAlive (run connected before)) eqn:Halive.
      * apply tick_after_silence; [|done]. unfold step. by rewrite Hbefore, Halive.
      * unfold step at 1. rewrite Hbefore, Halive. cbn [negb]. by rewrite heartbeat_run_terminated.
Qed.

End HeartbeatRuns.

(** ** PrismaStorage.getLatestReadings *)

Section Latest.
Import ChangedListener LatestReadings.

Lemma fold_newer (rest : list Reading) : forall first,
  let best := fold_left newer rest first in
  (best = first \/ In best rest)
  /\ (timestamp first <= timestamp best)%Z
  /\ (forall r, In r rest -> (timestamp r <= timestamp best)%Z).
Proof.
  induction rest as [|r rest IH]; intros first; cbv zeta; cbn [fold_left].
  - split; [by left|]. split; [lia | by intros r []].
  - destruct (IH (newer first r)) as (Hbest & Hfirst & Hrest). unfold newer in *.
    destruct (Z.ltb_spec (timestamp first) (timestamp r)).
    + split; [destruct Hbest as [-> | Hin]; right; [by left | by right]|].
      split; [lia|]. intros r' [<- | Hin]; [done | by apply Hrest].
    + split; [destruct Hbest as [-> | Hin]; [by left | right; by right]|].
      split; [done|]. intros r' [<- | Hin]; [lia | by apply Hrest].
Qed.

(** What the query for one tag finds. *)
Lemma findFirst_latest key rows :
  match findFirst key rows with
  | Some reading =>
      In reading rows /\ tagId reading = key
      /\ forall r, In r rows -> tagId r = key -> (timestamp r <= timestamp reading)%Z
  | None => forall r, In r rows -> tagId r <> key
  end.
Proof.
  unfold findFirst.
  destruct (List.filter (fun r => (tagId r =? key)%Z) rows) as [|first rest] eqn:Hfilter.
  - intros r Hin Hkey. assert (In r []) as []. rewrite <- Hfilter. apply filter_In.
    split; [done | by apply Z.eqb_eq].
  - destruct (fold_newer rest first) as (Hbest & Hfirst & Hrest).
    assert (In (fold_left newer rest first) (first :: rest)) as Hin
      by (destruct Hbest as [-> | Hin]; [by left | by right]).
    rewrite <- Hfilter in Hin. apply filter_In in Hin as [Hin Hkey].
    split; [done|]. split; [by apply Z.eqb_eq in Hkey|].
    intros r Hr Hrkey.
    assert (In r (first :: rest)) as [<- | Hin'].
    { rewrite <- Hfilter. apply filter_In. split; [done | by apply Z.eqb_eq]. }
    + done.
    + by apply Hrest.
Qed.

Lemma collect_returns query rows (tagIds : list Z) : forall acc,
  (forall key, In key tagIds -> query key = Returns) ->
  collect query rows tagIds acc
  = Normal (acc ++ omap (fun key => findFirst key rows) tagIds)%list.
Proof.
  induction tagIds as [|key rest IH]; intros acc Hquery; cbn.
  - by rewrite app_nil_r.
  - rewrite (Hquery key) by (by left). rewrite IH by (intros k Hk; apply Hquery; by right).
    destruct (findFirst key rows); [by rewrite <- app_assoc | done].
Qed.

Lemma collect_throws query rows (tagIds : list Z) : forall acc key,
  In key tagIds -> query key <> Returns ->
  exists err, collect query rows tagIds acc = Thrown err.
Proof.
  induction tagIds as [|first rest IH]; intros acc key Hin Hthrows; [done|]. cbn.
  destruct (query first) as [|err] eqn:Hfirst; [|by exists err].
  destruct Hin as [-> | Hin]; [congruence|]. by apply (IH _ key).
Qed.

(** [getLatestReadings] answers all or nothing.  When every query returns,
    the answer has, in the order of the request, one reading for each
    requested tag that has readings, and it is a reading of that tag with
    the greatest timestamp; tags without readings are left out.  When one
    query raises, the answer is empty, the readings found before it
    included. *)
Theorem getLatestReadings_all_or_nothing (query : Z -> outcome) (rows : list Reading)
    (tagIds : list Z) :
  ((forall key, In key tagIds -> query key = Returns) ->
     List.map tagId (getLatestReadings query rows tagIds)
     = List.filter (fun key => existsb (fun r => (tagId r =? key)%Z) rows) tagIds
     /\ forall reading, In reading (getLatestReadings query rows tagIds) ->
          In reading rows
          /\ forall r, In r rows -> tagId r = tagId reading ->
               (timestamp r <= timestamp reading)%Z)
  /\ ((exists key, In key tagIds /\ query key <> Returns) ->
      getLatestReadings query rows tagIds = []).
Proof.
  unfold getLatestReadings. split.
  - intros Hquery. rewrite collect_returns by done. cbn [app]. clear Hquery.
    induction tagIds as [|key rest [IHids IHin]]; [done|].
    pose proof (findFirst_latest key rows) as Hfound.
    change (omap (fun key => findFirst key rows) (key :: rest))
      with (match findFirst key rows with
            | Some reading => reading :: omap (fun key => findFirst key rows) rest
            | None => omap (fun key => findFirst key rows) rest
            end).
    cbn [List.filter].
    destruct (findFirst key rows) as [reading|].
    + destruct Hfound as (Hin & Hkey & Hlatest).
      assert (existsb (fun r => (tagId r =? key)%Z) rows = true) as ->.
      { apply existsb_exists. exists reading. split; [done | by apply Z.eqb_eq]. }
      cbn [List.map]. rewrite IHids, Hkey. split; [done|].
      intros r [<- | Hr]; [|by apply IHin]. split; [done|].
      intros r' Hr' Hsame. apply Hlatest; [done | congruence].
    + assert (existsb (fun r => (tagId r =? key)%Z) rows = false) as ->.
      { apply not_true_is_false. intros Hsome. apply existsb_exists in Hsome
          as (r & Hr & Hkey). apply Z.eqb_eq in Hkey. by apply (Hfound r). }
      done.
  - intros (key & Hin & Hthrows).
    by destruct (collect_throws query rows tagIds [] key Hin Hthrows) as [err ->].
Qed.

End Latest.
